(** * Hierarchy analytics of Dashboard CRurales

    A shallow embedding of [src/services/hierarchyService.ts] (class
    [HierarchyService]) and of the ranking pass of
    [src/services/workerAnalyticsService.ts] (class
    [WorkerAnalyticsService]), with the properties of the hierarchical
    analytics engine stated and proved over it.

    Conventions of the embedding.
    - TypeScript types are erased at run time and the gateway result is only
      cast ([data as LiderWithHierarchy[]]); a field that may be [undefined]
      or [null] at run time is an [option], also where the interface declares
      it required ([id], [nombre], [brigadistas], ...).  A field that is
      present holds a value of its declared type.
    - A JavaScript string is a [string] that holds its UTF-8 encoding.
      [trim] removes the white space of ECMAScript; [toLowerCase] is given
      for the characters below U+0100, and the statements that depend on
      letter case say so.
    - [Date.now()] is an explicit argument [now] (milliseconds, [Z]); the value
      of [new Date(s).getTime()] is an [option Z], [None] being [NaN].
    - Counts are [nat]; the numbers of the tree builder and of the scores
      are exact rationals [Q].  The only division by a number that is not a
      power of two in the tree builder, [completedFields / 10], is also
      modelled in IEEE binary64 and shown to be exact there.  The averages
      of the statistics are binary64 numbers ([SpecFloat]), their division
      being the rounding one of JavaScript. *)

From Stdlib Require Import String Ascii.
From Stdlib Require Import List Bool Arith ZArith QArith Qabs Qpower Lia Lqa.
From Stdlib Require Import Qminmax Permutation Sorted SpecFloat.
Import ListNotations.

Set Warnings "-register-all".
Local Open Scope nat_scope.

(* ================================================================== *)
(** ** JavaScript strings *)

Module JsString.

(** A string is held as the UTF-8 encoding of its characters, the bytes a
    string literal of this file consists of; it is also the form in which
    the gateway receives the rows.  On well-formed strings emptiness,
    equality and [includes] are the same on the bytes as on the UTF-16 code
    units of JavaScript, since no encoded character occurs inside or across
    other encoded characters. *)

(** The value of a byte. *)
Definition code (c : ascii) : nat := nat_of_ascii c.

(** *** [toLowerCase] *)

(** The capital letters of Basic Latin, U+0041 to U+005A. *)
Definition isUpper (c : ascii) : bool :=
  (65 <=? code c) && (code c <=? 90).

Definition lowerChar (c : ascii) : ascii :=
  if isUpper c then ascii_of_nat (code c + 32) else c.

(** The characters U+00C0 to U+00FF are encoded by the byte 195 and a second
    byte, 128 to 191.  Second byte of a capital letter of Latin-1 Supplement:
    U+00C0 to U+00DE without the multiplication sign U+00D7. *)
Definition isUpperLatin1 (c : ascii) : bool :=
  (128 <=? code c) && (code c <=? 158) && negb (code c =? 151).

Definition lowerLatin1 (c : ascii) : ascii :=
  if isUpperLatin1 c then ascii_of_nat (code c + 32) else c.

(** [s.toLowerCase()], on the characters below U+0100: the capital letters
    of Basic Latin and of Latin-1 Supplement are replaced by their small
    letters, which lie 32 places further; every other character below U+0100
    is kept, as in JavaScript.  Characters from U+0100 on are kept as well,
    which is what JavaScript does for those without a lower case
    counterpart only; see [latin1]. *)
Fixpoint toLowerCase (s : string) : string :=
  match s with
  | EmptyString => EmptyString
  | String c s' =>
      if code c =? 195 then
        match s' with
        | EmptyString => String c EmptyString
        | String d s'' => String c (String (lowerLatin1 d) (toLowerCase s''))
        end
      else String (lowerChar c) (toLowerCase s')
  end.


(** *** [trim] *)

(** The white space of ECMAScript ([WhiteSpace] and [LineTerminator]) by the
    length of its encoding.  One byte: TAB, LF, VT, FF, CR and SPACE. *)
Definition isWhitespace (c : ascii) : bool :=
  ((9 <=? code c) && (code c <=? 13)) || (code c =? 32).

(** Two bytes: NO-BREAK SPACE, U+00A0. *)
Definition isWhitespace2 (c d : ascii) : bool :=
  (code c =? 194) && (code d =? 160).

(** Three bytes: U+1680; U+2000 to U+200A, the line and paragraph separators
    U+2028 and U+2029, and U+202F; U+205F; U+3000; and U+FEFF. *)
Definition isWhitespace3 (c d e : ascii) : bool :=
  ((code c =? 225) && (code d =? 154) && (code e =? 128))
  || ((code c =? 226) && (code d =? 128)
      && (((128 <=? code e) && (code e <=? 138))
          || (code e =? 168) || (code e =? 169) || (code e =? 175)))
  || ((code c =? 226) && (code d =? 129) && (code e =? 159))
  || ((code c =? 227) && (code d =? 128) && (code e =? 128))
  || ((code c =? 239) && (code d =? 187) && (code e =? 191)).

(** [s] consists of white space characters only. *)
Fixpoint isBlank (s : string) : bool :=
  match s with
  | EmptyString => true
  | String c s1 =>
      if isWhitespace c then isBlank s1
      else match s1 with
           | EmptyString => false
           | String d s2 =>
               if isWhitespace2 c d then isBlank s2
               else match s2 with
                    | EmptyString => false
                    | String e s3 => isWhitespace3 c d e && isBlank s3
                    end
           end
  end.

(** Drops the leading white space. *)
Fixpoint trimStart (s : string) : string :=
  match s with
  | EmptyString => EmptyString
  | String c s1 =>
      if isWhitespace c then trimStart s1
      else match s1 with
           | EmptyString => s
           | String d s2 =>
               if isWhitespace2 c d then trimStart s2
               else match s2 with
                    | EmptyString => s
                    | String e s3 =>
                        if isWhitespace3 c d e then trimStart s3 else s
                    end
           end
  end.

(** Drops the trailing white space: the string is cut where what is left of
    it is blank.  No white space character starts with a byte from 128 to
    191, so that a blank rest begins between two characters. *)
Fixpoint trimEnd (s : string) : string :=
  match s with
  | EmptyString => EmptyString
  | String c s' => if isBlank s then EmptyString else String c (trimEnd s')
  end.

(** [s.trim()] *)
Definition trim (s : string) : string := trimEnd (trimStart s).

Definition isEmpty (s : string) : bool :=
  match s with EmptyString => true | _ => false end.

(** [s.includes(t)]: [t] occurs in [s] at some position. *)
Fixpoint includes (s t : string) : bool :=
  if String.prefix t s then true
  else match s with
       | EmptyString => false
       | String _ s' => includes s' t
       end.

End JsString.

(* ================================================================== *)
(** ** Rows of the data store ([types/database.ts]) *)

Module Db.

(** [LideresRow], [BrigadistasRow], [MovilizadoresRow] and [CiudadanosRow]
    share the columns read by the service. *)
Record WorkerRow : Type := mkRow {
  id : option string;
  nombre : option string;
  clave_electoral : option string;
  curp : option string;
  direccion : option string;
  colonia : option string;
  codigo_postal : option string;
  seccion : option string;
  entidad : option string;
  municipio : option string;
  numero_cel : option string;
  num_verificado : bool;
  created_at : option Z
}.

Record MovilizadorWithHierarchy : Type := mkMov {
  mov_row : WorkerRow;
  ciudadanos : option (list WorkerRow)
}.

Record BrigadistaWithHierarchy : Type := mkBrig {
  brig_row : WorkerRow;
  movilizadores : option (list MovilizadorWithHierarchy)
}.

Record LiderWithHierarchy : Type := mkLider {
  lider_row : WorkerRow;
  brigadistas : option (list BrigadistaWithHierarchy)
}.

(** [xs || []] *)
Definition orEmpty {A} (xs : option (list A)) : list A :=
  match xs with Some l => l | None => [] end.

(** [xs?.length || 0] *)
Definition lengthOr0 {A} (xs : option (list A)) : nat :=
  match xs with Some l => length l | None => 0 end.

End Db.

(* ================================================================== *)
(** ** Numbers *)

Module Num.

Local Open Scope Q_scope.

(** A [nat] count as a JavaScript number. *)
Definition ofNat (n : nat) : Q := inject_Z (Z.of_nat n).

(** [Math.min(a, b)] *)
Definition min (a b : Q) : Q := if Qle_bool a b then a else b.

(** Result of a JavaScript division: [x / 0] is not a rational. *)
Inductive JsNumber : Type :=
| Finite (q : Q)
| Infinity
| NaN.

(** [a / b] on finite operands, [a] not negative. *)
Definition div (a b : Q) : JsNumber :=
  if Qeq_bool b 0 then (if Qeq_bool a 0 then NaN else Infinity)
  else Finite (a / b).

(** IEEE binary64, as specified by [SpecFloat]. *)
Definition prec : Z := 53%Z.
Definition emax : Z := 1024%Z.

(** A count as a binary64 number; it is that number exactly below 2^53. *)
Definition b64 (n : nat) : spec_float :=
  binary_normalize prec emax (Z.of_nat n) 0 false.
Definition b64_div : spec_float -> spec_float -> spec_float :=
  SFdiv prec emax.
Definition b64_mul : spec_float -> spec_float -> spec_float :=
  SFmul prec emax.


End Num.

(* ================================================================== *)
(** ** The tree and its builder ([HierarchyService], private part) *)

Module Hierarchy.

(** ['lider' | 'brigadista' | 'movilizador'] *)
Inductive WorkerRole : Type := Lider | Brigadista | Movilizador.

Inductive Trend : Type := up | down | stable.

Record LocationInfo : Type := mkLocation {
  entidad : option string;
  municipio : option string;
  seccion : option string;
  colonia : option string;
  codigo_postal : option string
}.

Record PerformanceMetrics : Type := mkPerformance {
  perf_ciudadanosRegistrados : nat;
  tasaVerificacion : Q;
  completitudDatos : Q;
  ranking : nat;
  tendencia : Trend;
  ultimaActividad : option Z
}.

(** [children] absent and [children] empty are not told apart by any reader
    of the tree ([children?.forEach], [children && children.length > 0]), and
    the builder always sets the field: it is a list. *)
Inductive HierarchicalWorker : Type := mkWorker {
  id : option string;
  nombre : option string;
  role : WorkerRole;
  ciudadanosRegistrados : nat;
  ubicacion : LocationInfo;
  children : list HierarchicalWorker;
  performance : PerformanceMetrics;
  parentId : option string;
  isActive : bool;
  lastActivity : option Z
}.

(** Induction that reaches the children. *)
Section WorkerInduction.
Variable P : HierarchicalWorker -> Prop.
Hypothesis step : forall w, Forall P (children w) -> P w.

Fixpoint worker_ind' (w : HierarchicalWorker) : P w :=
  step w
    (match w as w0 return Forall P (children w0) with
     | mkWorker _ _ _ _ _ ch _ _ _ _ =>
         (fix all (l : list HierarchicalWorker) : Forall P l :=
            match l with
            | [] => Forall_nil P
            | x :: l' => Forall_cons x (worker_ind' x) (all l')
            end) ch
     end).
End WorkerInduction.

Section Builder.

(** The reading of the clock, [Date.now()]. *)
Variable now : Z.

Definition msPerDay : Z := (1000 * 60 * 60 * 24)%Z.

(** [Math.floor((Date.now() - new Date(createdAt).getTime()) / msPerDay)] *)
Definition daysSinceCreation (createdAt : option Z) : option Z :=
  option_map (fun t => ((now - t) / msPerDay)%Z) createdAt.

Definition calculateTrend (worker : Db.WorkerRow) : Trend :=
  match daysSinceCreation (Db.created_at worker) with
  | Some d => if (d <? 7)%Z then up
              else if (30 <? d)%Z then down else stable
  | None => stable
  end.

Definition isWorkerActive (createdAt : option Z) : bool :=
  match daysSinceCreation createdAt with
  | Some d => (d <=? 90)%Z
  | None => false
  end.

Definition extractLocationInfo (worker : Db.WorkerRow) : LocationInfo :=
  {| entidad := Db.entidad worker;
     municipio := Db.municipio worker;
     seccion := Db.seccion worker;
     colonia := Db.colonia worker;
     codigo_postal := Db.codigo_postal worker |}.

(** The field list of [calculateDataCompleteness], in its order. *)
Definition fields : list (Db.WorkerRow -> option string) :=
  [ Db.nombre; Db.clave_electoral; Db.curp; Db.direccion; Db.colonia;
    Db.codigo_postal; Db.seccion; Db.entidad; Db.municipio;
    Db.numero_cel ].

(** [worker[field] && worker[field].trim() !== ''] *)
Definition fieldCompleted (v : option string) : bool :=
  match v with
  | Some s => negb (JsString.isEmpty s)
              && negb (JsString.isEmpty (JsString.trim s))
  | None => false
  end.

Definition completedFields (worker : Db.WorkerRow) : nat :=
  length (filter (fun field => fieldCompleted (field worker)) fields).

Definition calculateDataCompleteness (worker : Db.WorkerRow) : Q :=
  (Num.ofNat (completedFields worker) / Num.ofNat (length fields)
   * 100)%Q.

(** The same expression in binary64 arithmetic. *)
Definition calculateDataCompleteness_b64 (worker : Db.WorkerRow)
  : spec_float :=
  Num.b64_mul
    (Num.b64_div (Num.b64 (completedFields worker))
                 (Num.b64 (length fields)))
    (Num.b64 100).

Definition calculatePerformanceMetrics (worker : Db.WorkerRow)
    (ciudadanosCount : nat) : PerformanceMetrics :=
  {| perf_ciudadanosRegistrados := ciudadanosCount;
     tasaVerificacion := if Db.num_verificado worker then 100%Q else 0%Q;
     completitudDatos := calculateDataCompleteness worker;
     ranking := 0;
     tendencia := calculateTrend worker;
     ultimaActividad := Db.created_at worker |}.

Definition transformMovilizadorToHierarchicalWorker
    (movilizador : Db.MovilizadorWithHierarchy) (parent : option string)
  : HierarchicalWorker :=
  let totalCiudadanos := Db.lengthOr0 (Db.ciudadanos movilizador) in
  let row := Db.mov_row movilizador in
  {| id := Db.id row;
     nombre := Db.nombre row;
     role := Movilizador;
     ciudadanosRegistrados := totalCiudadanos;
     ubicacion := extractLocationInfo row;
     children := [];
     parentId := parent;
     performance := calculatePerformanceMetrics row totalCiudadanos;
     isActive := isWorkerActive (Db.created_at row);
     lastActivity := Db.created_at row |}.

Definition transformBrigadistaToHierarchicalWorker
    (brigadista : Db.BrigadistaWithHierarchy) (parent : option string)
  : HierarchicalWorker :=
  let row := Db.brig_row brigadista in
  let movilizadores :=
    map (fun movilizador =>
           transformMovilizadorToHierarchicalWorker movilizador
             (Db.id row))
        (Db.orEmpty (Db.movilizadores brigadista)) in
  let totalCiudadanos :=
    match Db.movilizadores brigadista with
    | Some movs =>
        fold_left (fun sum mov => sum + Db.lengthOr0 (Db.ciudadanos mov))
                  movs 0
    | None => 0
    end in
  {| id := Db.id row;
     nombre := Db.nombre row;
     role := Brigadista;
     ciudadanosRegistrados := totalCiudadanos;
     ubicacion := extractLocationInfo row;
     children := movilizadores;
     parentId := parent;
     performance := calculatePerformanceMetrics row totalCiudadanos;
     isActive := isWorkerActive (Db.created_at row);
     lastActivity := Db.created_at row |}.

Definition calculateTotalCiudadanos (lider : Db.LiderWithHierarchy)
  : nat :=
  fold_left
    (fun total brigadista =>
       total
       + fold_left
           (fun brigTotal movilizador =>
              brigTotal + Db.lengthOr0 (Db.ciudadanos movilizador))
           (Db.orEmpty (Db.movilizadores brigadista)) 0)
    (Db.orEmpty (Db.brigadistas lider)) 0.

Definition transformLiderToHierarchicalWorker
    (lider : Db.LiderWithHierarchy) : HierarchicalWorker :=
  let row := Db.lider_row lider in
  let brigadistas :=
    map (fun brigadista =>
           transformBrigadistaToHierarchicalWorker brigadista (Db.id row))
        (Db.orEmpty (Db.brigadistas lider)) in
  let totalCiudadanos := calculateTotalCiudadanos lider in
  {| id := Db.id row;
     nombre := Db.nombre row;
     role := Lider;
     ciudadanosRegistrados := totalCiudadanos;
     ubicacion := extractLocationInfo row;
     children := brigadistas;
     parentId := None;
     performance := calculatePerformanceMetrics row totalCiudadanos;
     isActive := isWorkerActive (Db.created_at row);
     lastActivity := Db.created_at row |}.

Definition transformToHierarchicalWorkers
    (data : list Db.LiderWithHierarchy) : list HierarchicalWorker :=
  map transformLiderToHierarchicalWorker data.

End Builder.

End Hierarchy.

(* ================================================================== *)
(** ** Errors ([types/errors.ts]) and exceptional results *)

Module Errors.

(** What a [throw] carries.  [ServiceError] keeps its [originalError];
    [TypeError] is what reading a property of [undefined] raises. *)
Inductive Error : Type :=
| PlainError (message : string)
| TypeError
| ServiceError (message : string) (originalError : option Error).

(** [error instanceof ServiceError] *)
Definition isServiceError (e : Error) : bool :=
  match e with ServiceError _ _ => true | _ => false end.

(** Outcome of a call: a value, or a thrown error. *)
Inductive Result (A : Type) : Type :=
| Ok (value : A)
| Throw (error : Error).

Arguments Ok {A} value.
Arguments Throw {A} error.

Definition bind {A B} (r : Result A) (k : A -> Result B) : Result B :=
  match r with
  | Ok a => k a
  | Throw e => Throw e
  end.

(** [try { body } catch (error) { throw handler(error) }] *)
Definition rethrow {A} (handler : Error -> Error) (body : Result A)
  : Result A :=
  match body with
  | Ok a => Ok a
  | Throw e => Throw (handler e)
  end.

(** [xs.filter(p)] where [p] may throw: the first throw aborts the call. *)
Fixpoint filterThrowing {A} (p : A -> Result bool) (xs : list A)
  : Result (list A) :=
  match xs with
  | [] => Ok []
  | x :: xs' =>
      bind (p x) (fun keep =>
      bind (filterThrowing p xs') (fun rest =>
      Ok (if keep then x :: rest else rest)))
  end.

End Errors.

(* ================================================================== *)
(** ** The cache: a [Map] from keys to time-stamped values *)

Module Cache.

Section Store.

(** The type of the cached values. *)
Variable T : Type.

Record Entry : Type := mkEntry { data : T; timestamp : Z }.

(** A JavaScript [Map] keeps its keys unique and in insertion order. *)
Definition Store : Type := list (string * Entry).

(** [cache.get(key)] *)
Fixpoint get (key : string) (cache : Store) : option Entry :=
  match cache with
  | [] => None
  | (k, e) :: rest => if String.eqb k key then Some e else get key rest
  end.

(** [cache.delete(key)] *)
Fixpoint delete (key : string) (cache : Store) : Store :=
  match cache with
  | [] => []
  | (k, e) :: rest =>
      if String.eqb k key then delete key rest
      else (k, e) :: delete key rest
  end.

(** [cache.set(key, entry)]: an existing key keeps its position. *)
Fixpoint set (key : string) (entry : Entry) (cache : Store) : Store :=
  match cache with
  | [] => [(key, entry)]
  | (k, e) :: rest =>
      if String.eqb k key then (k, entry) :: rest
      else (k, e) :: set key entry rest
  end.

(** [cache.size] *)
Definition size (cache : Store) : nat := length cache.

(** [cache.keys().next().value] *)
Definition oldestKey (cache : Store) : option string :=
  match cache with
  | [] => None
  | (k, _) :: _ => Some k
  end.

(** [cache.clear()] *)
Definition clear : Store := [].

Section Service.

(** [CACHE_TTL], in milliseconds. *)
Variable CACHE_TTL : Z.

(** [getFromCache(key)] at clock reading [now]: the value read, if any,
    and the cache left behind. *)
Definition getFromCache (key : string) (now : Z) (cache : Store)
  : option T * Store :=
  match get key cache with
  | None => (None, cache)
  | Some cached =>
      let isExpired := (CACHE_TTL <? now - timestamp cached)%Z in
      if isExpired then (None, delete key cache)
      else (Some (data cached), cache)
  end.

(** [setCache(key, data)] at clock reading [now]. *)
Definition setCache (key : string) (value : T) (now : Z)
    (cache : Store) : Store :=
  let cache1 := set key {| data := value; timestamp := now |} cache in
  if 100 <? size cache1 then
    match oldestKey cache1 with
    | Some k =>
        if JsString.isEmpty k then cache1 else delete k cache1
    | None => cache1
    end
  else cache1.

End Service.

End Store.

Arguments mkEntry {T} data timestamp.
Arguments data {T} e.
Arguments timestamp {T} e.
Arguments get {T} key cache.
Arguments delete {T} key cache.
Arguments set {T} key entry cache.
Arguments size {T} cache.
Arguments oldestKey {T} cache.
Arguments getFromCache {T} CACHE_TTL key now cache.
Arguments setCache {T} key value now cache.

End Cache.

(* ================================================================== *)
(** ** [HierarchyService]: queries over the built tree *)

Module Service.

Import Errors.
Export Hierarchy.

(** [HierarchicalWorker & { level: number }]: the spread copies every field
    of the worker, [children] and [performance] included. *)
Record FlatWorker : Type := mkFlat {
  worker : HierarchicalWorker;
  level : nat
}.

(** The inner [flatten] of [flattenHierarchy], for one worker of the list:
    the worker is pushed, then its children one level deeper. *)
Fixpoint flattenWorker (lvl : nat) (w : HierarchicalWorker)
  : list FlatWorker :=
  match w with
  | mkWorker _ _ _ _ _ ch _ _ _ _ =>
      {| worker := w; level := lvl |}
        :: flat_map (flattenWorker (S lvl)) ch
  end.

Definition flatten (workers : list HierarchicalWorker) (lvl : nat)
  : list FlatWorker :=
  flat_map (flattenWorker lvl) workers.

Definition flattenHierarchy (data : list HierarchicalWorker)
  : list FlatWorker :=
  flatten data 0.

(** [field?.toLowerCase().includes(searchLower)], [undefined] being falsy *)
Definition fieldIncludes (searchLower : string) (field : option string)
  : bool :=
  match field with
  | Some s => JsString.includes (JsString.toLowerCase s) searchLower
  | None => false
  end.

(** The predicate of the filter of [searchWorkers]. [worker.nombre] is
    dereferenced without a guard. *)
Definition searchMatches (searchLower : string) (fw : FlatWorker)
  : Result bool :=
  let w := worker fw in
  match nombre w with
  | None => Throw TypeError
  | Some name =>
      Ok (JsString.includes (JsString.toLowerCase name) searchLower
          || fieldIncludes searchLower (entidad (ubicacion w))
          || fieldIncludes searchLower (municipio (ubicacion w))
          || fieldIncludes searchLower (colonia (ubicacion w))
          || fieldIncludes searchLower (seccion (ubicacion w)))
  end.

(** The body of [searchWorkers] once the tree is fetched. *)
Definition searchIn (searchTerm : string)
    (hierarchicalData : list HierarchicalWorker)
  : Result (list FlatWorker) :=
  let flattened := flattenHierarchy hierarchicalData in
  let searchLower := JsString.toLowerCase searchTerm in
  filterThrowing (searchMatches searchLower) flattened.

Definition calculateOverallPerformanceScore (w : HierarchicalWorker) : Q :=
  let activityScore := if isActive w then 100%Q else 0%Q in
  let registrationScore :=
    Num.min (Num.ofNat (ciudadanosRegistrados w) * 10)%Q 100%Q in
  ((tasaVerificacion (performance w) + completitudDatos (performance w)
    + activityScore + registrationScore) / 4)%Q.

(** ['excellent' | 'good' | 'average' | 'poor'] *)
Inductive PerformanceLevel : Type := excellent | good | average | poor.

Definition Qge_bool (a b : Q) : bool := Qle_bool b a.
Definition Qlt_bool (a b : Q) : bool := negb (Qle_bool b a).

(** The [switch] of [getWorkersByPerformance]. *)
Definition inBand (lvl : PerformanceLevel) (score : Q) : bool :=
  match lvl with
  | excellent => Qge_bool score 90
  | good => Qge_bool score 70 && Qlt_bool score 90
  | average => Qge_bool score 50 && Qlt_bool score 70
  | poor => Qlt_bool score 50
  end.

(** The body of [getWorkersByPerformance] once the tree is fetched. *)
Definition byPerformanceIn (lvl : PerformanceLevel)
    (hierarchicalData : list HierarchicalWorker) : list FlatWorker :=
  let flattened := flattenHierarchy hierarchicalData in
  filter (fun fw =>
            let score := calculateOverallPerformanceScore (worker fw) in
            inBand lvl score)
         flattened.

(** *** Statistics *)

Record Productive : Type := mkProductive {
  prod_id : option string;
  prod_name : option string;
  prod_role : option WorkerRole;          (* [''] is [None] *)
  ciudadanos : nat
}.

Record HierarchyStats : Type := mkStats {
  totalLideres : nat;
  totalBrigadistas : nat;
  totalMovilizadores : nat;
  totalCiudadanos : nat;
  averageCiudadanosPorLider : spec_float;
  averageCiudadanosPorBrigadista : spec_float;
  averageCiudadanosPorMovilizador : spec_float;
  deepestLevel : nat;
  mostProductiveWorker : Productive
}.

(** The [let] variables of [getHierarchyStats]. *)
Record Totals : Type := mkTotals {
  t_lideres : nat;
  t_brigadistas : nat;
  t_movilizadores : nat;
  t_ciudadanos : nat;
  t_mostProductive : Productive;
  t_deepestLevel : nat
}.

Definition initialTotals : Totals :=
  {| t_lideres := 0; t_brigadistas := 0; t_movilizadores := 0;
     t_ciudadanos := 0;
     t_mostProductive :=
       {| prod_id := Some EmptyString; prod_name := Some EmptyString;
          prod_role := None; ciudadanos := 0 |};
     t_deepestLevel := 1 |}.

(** [if (w.ciudadanosRegistrados > mostProductiveWorker.ciudadanos) ...] *)
Definition moreProductive (r : WorkerRole) (w : HierarchicalWorker)
    (best : Productive) : Productive :=
  if ciudadanos best <? ciudadanosRegistrados w then
    {| prod_id := id w; prod_name := nombre w; prod_role := Some r;
       ciudadanos := ciudadanosRegistrados w |}
  else best.

Definition visitMovilizador (t : Totals) (mov : HierarchicalWorker)
  : Totals :=
  {| t_lideres := t_lideres t;
     t_brigadistas := t_brigadistas t;
     t_movilizadores := S (t_movilizadores t);
     t_ciudadanos := t_ciudadanos t + ciudadanosRegistrados mov;
     t_mostProductive := moreProductive Movilizador mov (t_mostProductive t);
     t_deepestLevel := Nat.max (t_deepestLevel t) 3 |}.

Definition visitBrigadista (t : Totals) (brig : HierarchicalWorker)
  : Totals :=
  let t1 :=
    {| t_lideres := t_lideres t;
       t_brigadistas := S (t_brigadistas t);
       t_movilizadores := t_movilizadores t;
       t_ciudadanos := t_ciudadanos t;
       t_mostProductive :=
         moreProductive Brigadista brig (t_mostProductive t);
       t_deepestLevel := Nat.max (t_deepestLevel t) 2 |} in
  fold_left visitMovilizador (children brig) t1.

Definition visitLider (t : Totals) (lid : HierarchicalWorker) : Totals :=
  let t1 :=
    {| t_lideres := S (t_lideres t);
       t_brigadistas := t_brigadistas t;
       t_movilizadores := t_movilizadores t;
       t_ciudadanos := t_ciudadanos t;
       t_mostProductive := moreProductive Lider lid (t_mostProductive t);
       t_deepestLevel := t_deepestLevel t |} in
  fold_left visitBrigadista (children lid) t1.

(** [count > 0 ? total / count : 0], the division being the one of
    binary64. *)
Definition averageOf (total count : nat) : spec_float :=
  if 0 <? count then Num.b64_div (Num.b64 total) (Num.b64 count)
  else Num.b64 0.

(** The body of [getHierarchyStats] once the tree is fetched. *)
Definition statsOf (hierarchicalData : list HierarchicalWorker)
  : HierarchyStats :=
  let t := fold_left visitLider hierarchicalData initialTotals in
  {| totalLideres := t_lideres t;
     totalBrigadistas := t_brigadistas t;
     totalMovilizadores := t_movilizadores t;
     totalCiudadanos := t_ciudadanos t;
     averageCiudadanosPorLider := averageOf (t_ciudadanos t) (t_lideres t);
     averageCiudadanosPorBrigadista :=
       averageOf (t_ciudadanos t) (t_brigadistas t);
     averageCiudadanosPorMovilizador :=
       averageOf (t_ciudadanos t) (t_movilizadores t);
     deepestLevel := t_deepestLevel t;
     mostProductiveWorker := t_mostProductive t |}.

(** *** The public operations, with the cache and the gateway *)

Definition CACHE_TTL : Z := (5 * 60 * 1000)%Z.

(** The service's [cache]; only trees are ever stored in it. *)
Definition ServiceCache : Type := Cache.Store (list HierarchicalWorker).

(** [DatabaseResult<LiderWithHierarchy[]>], and a gateway call that
    rejects. *)
Record DatabaseResult : Type := mkDbResult {
  db_data : option (list Db.LiderWithHierarchy);
  db_error : option string                       (* [error.message] *)
}.

Inductive GatewayOutcome : Type :=
| Resolved (result : DatabaseResult)
| Rejected (error : Error).

(** [generateCacheKey(prefix, filters)]; [filters] is given by its
    [JSON.stringify], [None] when the argument is absent. *)
Definition generateCacheKey (prefix : string) (filters : option string)
  : string :=
  let filterStr := match filters with
                   | Some s => s
                   | None => "no-filters"%string
                   end in
  (prefix ++ "-" ++ filterStr)%string.

(** What a call needs from outside: the clock at the cache read, the
    gateway's answer, and the clock once that answer has arrived. *)
Record World : Type := mkWorld {
  now : Z;
  gateway : GatewayOutcome;
  later : Z
}.

(** The [try] block of [getHierarchicalData] after a cache miss. *)
Definition fetchAndBuild (cacheKey : string) (env : World)
    (cache : ServiceCache)
  : Result (list HierarchicalWorker) * ServiceCache :=
  match gateway env with
  | Rejected e => (Throw e, cache)
  | Resolved result =>
      match db_error result, db_data result with
      | Some message, _ =>
          (Throw (ServiceError "Failed to fetch hierarchical data"
                    (Some (PlainError message))), cache)
      | None, None =>
          (Throw (ServiceError "Failed to fetch hierarchical data" None),
           cache)
      | None, Some rows =>
          let hierarchicalData :=
            transformToHierarchicalWorkers (later env) rows in
          (Ok hierarchicalData,
           Cache.setCache cacheKey hierarchicalData (later env) cache)
      end
  end.

Definition getHierarchicalData (filters : option string) (env : World)
    (cache : ServiceCache)
  : Result (list HierarchicalWorker) * ServiceCache :=
  let cacheKey := generateCacheKey "hierarchical-data" filters in
  match Cache.getFromCache CACHE_TTL cacheKey (now env) cache with
  | (Some cached, cache1) => (Ok cached, cache1)
  | (None, cache1) =>
      let (r, cache2) := fetchAndBuild cacheKey env cache1 in
      (rethrow (fun error =>
                  if isServiceError error then error
                  else ServiceError "Hierarchy service error" (Some error))
               r,
       cache2)
  end.

Definition getFlattenedHierarchy (filters : option string) (env : World)
    (cache : ServiceCache) : Result (list FlatWorker) * ServiceCache :=
  let (r, cache1) := getHierarchicalData filters env cache in
  (rethrow (fun error =>
              ServiceError "Failed to flatten hierarchy" (Some error))
           (bind r (fun hierarchicalData =>
                      Ok (flattenHierarchy hierarchicalData))),
   cache1).

Definition searchWorkers (searchTerm : string) (filters : option string)
    (env : World) (cache : ServiceCache)
  : Result (list FlatWorker) * ServiceCache :=
  let (r, cache1) := getHierarchicalData filters env cache in
  (rethrow (fun error =>
              ServiceError "Failed to search workers" (Some error))
           (bind r (searchIn searchTerm)),
   cache1).

Definition getWorkersByPerformance (lvl : PerformanceLevel)
    (filters : option string) (env : World) (cache : ServiceCache)
  : Result (list FlatWorker) * ServiceCache :=
  let (r, cache1) := getHierarchicalData filters env cache in
  (rethrow (fun error =>
              ServiceError "Failed to get workers by performance"
                (Some error))
           (bind r (fun hierarchicalData =>
                      Ok (byPerformanceIn lvl hierarchicalData))),
   cache1).

Definition getHierarchyStats (filters : option string) (env : World)
    (cache : ServiceCache) : Result HierarchyStats * ServiceCache :=
  let (r, cache1) := getHierarchicalData filters env cache in
  (rethrow (fun error =>
              ServiceError "Failed to calculate hierarchy statistics"
                (Some error))
           (bind r (fun hierarchicalData =>
                      Ok (statsOf hierarchicalData))),
   cache1).

Definition clearCache (cache : ServiceCache) : ServiceCache := Cache.clear _.

(** The caches the service can be in: the class starts with an empty [Map],
    and the [Map] is private, so it changes only through the cache reads
    and writes of [getHierarchicalData] and through [clearCache].  Calls
    interleave at their [await], hence a read and the write that follows it
    are separate steps. *)
Inductive reachable : ServiceCache -> Prop :=
| reach_initial : reachable []
| reach_read filters t cache :
    reachable cache ->
    reachable
      (snd (Cache.getFromCache CACHE_TTL
              (generateCacheKey "hierarchical-data" filters) t cache))
| reach_write filters rows t cache :
    reachable cache ->
    reachable
      (Cache.setCache (generateCacheKey "hierarchical-data" filters)
         (transformToHierarchicalWorkers t rows) t cache)
| reach_clear cache :
    reachable cache -> reachable (clearCache cache).

End Service.

(* ================================================================== *)
(** ** [WorkerAnalyticsService]: the ranking pass *)

Module Analytics.

(** Entries of [rendimientoTemporal]; [getWorkerTemporalPerformance] is a
    placeholder that returns no entry. *)
Inductive TemporalPerformance : Type := .

Definition getWorkerTemporalPerformance (workerId : option string)
  : list TemporalPerformance := [].

Record WorkerAnalytics : Type := mkAnalytics {
  workerId : option string;
  workerName : option string;
  role : Hierarchy.WorkerRole;
  ciudadanosRegistrados : nat;
  tasaVerificacion : Q;
  completitudDatos : Q;
  ubicacionGeografica : Hierarchy.LocationInfo;
  rendimientoTemporal : list TemporalPerformance;
  ranking : nat;
  tendencia : Hierarchy.Trend;
  ultimaActividad : option Z
}.

(** [worker.ranking = r] *)
Definition setRanking (r : nat) (a : WorkerAnalytics) : WorkerAnalytics :=
  {| workerId := workerId a;
     workerName := workerName a;
     role := role a;
     ciudadanosRegistrados := ciudadanosRegistrados a;
     tasaVerificacion := tasaVerificacion a;
     completitudDatos := completitudDatos a;
     ubicacionGeografica := ubicacionGeografica a;
     rendimientoTemporal := rendimientoTemporal a;
     ranking := r;
     tendencia := tendencia a;
     ultimaActividad := ultimaActividad a |}.

Definition calculateWorkerScore (a : WorkerAnalytics) : Q :=
  ((tasaVerificacion a + completitudDatos a
    + Num.ofNat (ciudadanosRegistrados a) * 2) / 4)%Q.

(** [xs.map((x, index) => f(index, x))], counting from [i]. *)
Fixpoint mapi {A B} (f : nat -> A -> B) (i : nat) (xs : list A) : list B :=
  match xs with
  | [] => []
  | x :: xs' => f i x :: mapi f (S i) xs'
  end.

(** The comparator handed to [sort]: [scoreB - scoreA]. *)
Definition compareWorkers (a b : WorkerAnalytics) : Q :=
  (calculateWorkerScore b - calculateWorkerScore a)%Q.

(** [Array.prototype.sort] is stable, and with a comparator that is a
    difference of scores its result is the one stable arrangement; it is
    modelled by insertion from the right.  [a] is placed before the first
    [b] that must not precede it ([compare(a, b) <= 0]). *)
Fixpoint insert (a : WorkerAnalytics) (sorted : list WorkerAnalytics)
  : list WorkerAnalytics :=
  match sorted with
  | [] => [a]
  | b :: rest =>
      if Qle_bool (compareWorkers a b) 0 then a :: b :: rest
      else b :: insert a rest
  end.

Fixpoint sort (xs : list WorkerAnalytics) : list WorkerAnalytics :=
  match xs with
  | [] => []
  | a :: rest => insert a (sort rest)
  end.

(** The element built for one flattened worker by the [map] of
    [getWorkerAnalytics]. *)
Definition toAnalytics (index : nat) (fw : Service.FlatWorker)
  : WorkerAnalytics :=
  let w := Service.worker fw in
  {| workerId := Hierarchy.id w;
     workerName := Hierarchy.nombre w;
     role := Hierarchy.role w;
     ciudadanosRegistrados := Hierarchy.ciudadanosRegistrados w;
     tasaVerificacion :=
       Hierarchy.tasaVerificacion (Hierarchy.performance w);
     completitudDatos :=
       Hierarchy.completitudDatos (Hierarchy.performance w);
     ubicacionGeografica := Hierarchy.ubicacion w;
     rendimientoTemporal := getWorkerTemporalPerformance (Hierarchy.id w);
     ranking := index + 1;
     tendencia := Hierarchy.tendencia (Hierarchy.performance w);
     ultimaActividad :=
       Hierarchy.ultimaActividad (Hierarchy.performance w) |}.

(** [sortedAnalytics.forEach((worker, index) => worker.ranking = index + 1)] *)
Definition assignRankings (sortedAnalytics : list WorkerAnalytics)
  : list WorkerAnalytics :=
  mapi (fun index w => setRanking (index + 1) w) 0 sortedAnalytics.

(** The body of [getWorkerAnalytics] on the flattened hierarchy it is
    given. *)
Definition rankWorkers (hierarchicalData : list Service.FlatWorker)
  : list WorkerAnalytics :=
  let analytics := mapi toAnalytics 0 hierarchicalData in
  let sortedAnalytics := sort analytics in
  assignRankings sortedAnalytics.

(** [getFlattenedHierarchyTemp], which stands in for
    [HierarchyService.getFlattenedHierarchy] in this class. *)
Definition getFlattenedHierarchyTemp : list Service.FlatWorker := [].

Definition getWorkerAnalytics : list WorkerAnalytics :=
  rankWorkers getFlattenedHierarchyTemp.

End Analytics.

(* ================================================================== *)
(** ** Notions used by the statements *)

Module Spec.

Import Hierarchy.

(** The level-3 nodes of the subtree of a node. *)
Fixpoint movilizadoresBelow (w : HierarchicalWorker)
  : list HierarchicalWorker :=
  match w with
  | mkWorker _ _ r _ _ ch _ _ _ _ =>
      match r with
      | Movilizador => [w]
      | _ => flat_map movilizadoresBelow ch
      end
  end.

(** Sum of the leaf counts of the level-3 nodes of the subtree. *)
Definition leafTotal (w : HierarchicalWorker) : nat :=
  list_sum (map ciudadanosRegistrados (movilizadoresBelow w)).

(** The rows of a collection of the source; a collection that is absent
    has none. *)
Definition rowsOf {A : Type} (collection : option (list A)) : list A :=
  match collection with
  | Some rows => rows
  | None => []
  end.

(** The leaf rows (ciudadanos) below a level-3, a level-2 and a level-1 row
    of the source. *)
Definition leafRows (src : Db.MovilizadorWithHierarchy)
  : list Db.WorkerRow :=
  rowsOf (Db.ciudadanos src).

Definition leafRowsOfBrigadista (src : Db.BrigadistaWithHierarchy)
  : list Db.WorkerRow :=
  flat_map leafRows (rowsOf (Db.movilizadores src)).

Definition leafRowsOfLider (src : Db.LiderWithHierarchy)
  : list Db.WorkerRow :=
  flat_map leafRowsOfBrigadista (rowsOf (Db.brigadistas src)).

(** A level-3 node built from a source row: its count is the length of the
    leaf-row collection of the row. *)
Definition builtMovilizador (src : Db.MovilizadorWithHierarchy)
    (node : HierarchicalWorker) : Prop :=
  role node = Movilizador
  /\ children node = []
  /\ ciudadanosRegistrados node = length (leafRows src).

(** A level-2 node built from a source row, with its level-3 children: its
    count is the sum of the counts of the level-3 nodes below it, which is
    the number of leaf rows below the row. *)
Definition builtBrigadista (src : Db.BrigadistaWithHierarchy)
    (node : HierarchicalWorker) : Prop :=
  role node = Brigadista
  /\ ciudadanosRegistrados node = leafTotal node
  /\ ciudadanosRegistrados node = length (leafRowsOfBrigadista src)
  /\ Forall2 builtMovilizador
       (rowsOf (Db.movilizadores src)) (children node).

(** A level-1 node built from a source row, with its subtree. *)
Definition builtLider (src : Db.LiderWithHierarchy)
    (node : HierarchicalWorker) : Prop :=
  role node = Lider
  /\ ciudadanosRegistrados node = leafTotal node
  /\ ciudadanosRegistrados node = length (leafRowsOfLider src)
  /\ Forall2 builtBrigadista
       (rowsOf (Db.brigadistas src)) (children node).

(** *** Malformed input *)

(** A row that lacks a required identity or name field. *)
Definition malformedRow (row : Db.WorkerRow) : Prop :=
  Db.id row = None \/ Db.nombre row = None.

Definition malformedInput (data : list Db.LiderWithHierarchy) : Prop :=
  Exists (fun l => malformedRow (Db.lider_row l)) data.

(** The gateway answered with rows and without an error. *)
Definition answered (rows : list Db.LiderWithHierarchy)
  : Service.GatewayOutcome :=
  Service.Resolved
    {| Service.db_data := Some rows; Service.db_error := None |}.

(** *** The composite score, in the words of the specification *)

Definition activityScore (active : bool) : Q :=
  if active then 100%Q else 0%Q.

Definition registrationScore (registeredCount : nat) : Q :=
  Qminmax.Qmin (Num.ofNat registeredCount * 10)%Q 100%Q.

Definition compositeScore (verificationRate dataCompleteness : Q)
    (active : bool) (registeredCount : nat) : Q :=
  ((verificationRate + dataCompleteness + activityScore active
    + registrationScore registeredCount) / 4)%Q.

(** The composite score of a node of the tree. *)
Definition scoreOfNode (w : HierarchicalWorker) : Q :=
  compositeScore (tasaVerificacion (performance w))
                 (completitudDatos (performance w))
                 (isActive w) (ciudadanosRegistrados w).

(** Descending order of the score the ranking pass computes. *)
Definition rankedBefore (a b : Analytics.WorkerAnalytics) : Prop :=
  (Analytics.calculateWorkerScore b <= Analytics.calculateWorkerScore a)%Q.

(** The score the ranking pass sorts by, written out: the verification
    rate, the data completeness and twice the registered count, over 4. *)
Definition rankingScore (a : Analytics.WorkerAnalytics) : Q :=
  ((Analytics.tasaVerificacion a + Analytics.completitudDatos a
    + 2 * Num.ofNat (Analytics.ciudadanosRegistrados a)) / 4)%Q.

(** Descending order of that score. *)
Definition byRankingScore (a b : Analytics.WorkerAnalytics) : Prop :=
  (rankingScore b <= rankingScore a)%Q.

(** Descending order of the composite score, on flattened nodes. *)
Definition byCompositeScore (a b : Service.FlatWorker) : Prop :=
  (scoreOfNode (Service.worker b) <= scoreOfNode (Service.worker a))%Q.

(** *** Data completeness, in the words of the specification *)

(** A field is populated when it is present and not blank: some character
    of it is not white space. *)
Definition populated (field : option string) : bool :=
  match field with
  | Some s => negb (JsString.isBlank s)
  | None => false
  end.

Definition b2n (b : bool) : nat := if b then 1 else 0.

(** How many of the ten fixed fields of a record are populated. *)
Definition populatedCount (w : Db.WorkerRow) : nat :=
  b2n (populated (Db.nombre w))
  + b2n (populated (Db.clave_electoral w))
  + b2n (populated (Db.curp w))
  + b2n (populated (Db.direccion w))
  + b2n (populated (Db.colonia w))
  + b2n (populated (Db.codigo_postal w))
  + b2n (populated (Db.seccion w))
  + b2n (populated (Db.entidad w))
  + b2n (populated (Db.municipio w))
  + b2n (populated (Db.numero_cel w)).

(** *** Search, in the words of the specification *)

(** [field] contains [term], letter case set aside. *)
Definition containsTerm (term : string) (field : option string) : bool :=
  match field with
  | Some s =>
      JsString.includes (JsString.toLowerCase s) (JsString.toLowerCase term)
  | None => false
  end.

(** The name or one of the five location fields contains the term. *)
Definition matchesNameOrLocation (term : string) (w : HierarchicalWorker)
  : bool :=
  containsTerm term (nombre w)
  || containsTerm term (entidad (ubicacion w))
  || containsTerm term (municipio (ubicacion w))
  || containsTerm term (seccion (ubicacion w))
  || containsTerm term (colonia (ubicacion w))
  || containsTerm term (codigo_postal (ubicacion w)).


(** *** Statistics, in the words of the specification *)

(** The level-2 and the level-3 nodes of a forest. *)
Definition level2 (data : list HierarchicalWorker)
  : list HierarchicalWorker :=
  flat_map children data.

Definition level3 (data : list HierarchicalWorker)
  : list HierarchicalWorker :=
  flat_map children (level2 data).

(** The leaves of the forest, as counted on its level-3 nodes. *)
Definition totalLeaves (data : list HierarchicalWorker) : nat :=
  list_sum (map ciudadanosRegistrados (level3 data)).




(** *** Rankings of the nodes of a tree *)

(** A node and its descendants. *)
Fixpoint subtree (w : HierarchicalWorker) : list HierarchicalWorker :=
  match w with
  | mkWorker _ _ _ _ _ ch _ _ _ _ => w :: flat_map subtree ch
  end.

(** The node and all its descendants have ranking 0. *)
Definition neverRanked (w : HierarchicalWorker) : Prop :=
  Forall (fun x => ranking (performance x) = 0) (subtree w).

(** Every tree held by the cache is unranked. *)
Definition unrankedEntries (cache : Service.ServiceCache) : Prop :=
  Forall (fun kv => Forall neverRanked (Cache.data (snd kv))) cache.

(** *** The performance bands, in the words of the specification *)





(** A worker record with its ranking left out. *)
Definition unranked (a : Analytics.WorkerAnalytics)
  : Analytics.WorkerAnalytics :=
  Analytics.setRanking 0 a.

End Spec.

(* ================================================================== *)
(** ** Sample data *)

Module Samples.

Local Open Scope string_scope.

(** A row with no column set. *)
Definition emptyRow : Db.WorkerRow :=
  {| Db.id := None; Db.nombre := None; Db.clave_electoral := None;
     Db.curp := None; Db.direccion := None; Db.colonia := None;
     Db.codigo_postal := None; Db.seccion := None; Db.entidad := None;
     Db.municipio := None; Db.numero_cel := None;
     Db.num_verificado := false; Db.created_at := None |}.

(** A row with an identity and a name only. *)
Definition namedRow (i n : string) (created : option Z) : Db.WorkerRow :=
  {| Db.id := Some i; Db.nombre := Some n; Db.clave_electoral := None;
     Db.curp := None; Db.direccion := None; Db.colonia := None;
     Db.codigo_postal := None; Db.seccion := None; Db.entidad := None;
     Db.municipio := None; Db.numero_cel := None;
     Db.num_verificado := false; Db.created_at := created |}.

(** A level-1 row without identity and name, and without children. *)
Definition namelessLider : Db.LiderWithHierarchy :=
  {| Db.lider_row := emptyRow; Db.brigadistas := None |}.

Definition world (t : Z) (rows : list Db.LiderWithHierarchy)
  : Service.World :=
  {| Service.now := t; Service.gateway := Spec.answered rows;
     Service.later := t |}.

(** A mobilizer created at time [0] with no registrant, and one with an
    unreadable creation date and five registrants, under one brigade member
    and one leader. *)
Definition idleMovilizador : Db.MovilizadorWithHierarchy :=
  {| Db.mov_row := namedRow "M1" "Marta" (Some 0%Z);
     Db.ciudadanos := Some [] |}.

Definition busyMovilizador : Db.MovilizadorWithHierarchy :=
  {| Db.mov_row := namedRow "M2" "Mario" None;
     Db.ciudadanos := Some (repeat emptyRow 5) |}.

Definition rankingRows : list Db.LiderWithHierarchy :=
  [ {| Db.lider_row := namedRow "L" "Luz" None;
       Db.brigadistas :=
         Some [ {| Db.brig_row := namedRow "B" "Beto" None;
                   Db.movilizadores :=
                     Some [idleMovilizador; busyMovilizador] |} ] |} ].

Definition rankingFlat : list Service.FlatWorker :=
  Service.flattenHierarchy
    (Hierarchy.transformToHierarchicalWorkers 0%Z rankingRows).

(** A row with the ten fields of the completeness list set. *)
Definition fullRow : Db.WorkerRow :=
  {| Db.id := Some "L7"; Db.nombre := Some "Ana Ruiz";
     Db.clave_electoral := Some "RZAN800101";
     Db.curp := Some "RUAA800101MNLZNN09";
     Db.direccion := Some "Av. Juarez 10"; Db.colonia := Some "Centro";
     Db.codigo_postal := Some "64000"; Db.seccion := Some "1204";
     Db.entidad := Some "Nuevo Leon"; Db.municipio := Some "Monterrey";
     Db.numero_cel := Some "8112345678";
     Db.num_verificado := true; Db.created_at := Some 0%Z |}.

(** The text made of the bytes given by their values. *)
Definition bytes (values : list nat) : string :=
  fold_right (fun v s => String (ascii_of_nat v) s) EmptyString values.

(** NO-BREAK SPACE (U+00A0), EM SPACE (U+2003), the line separator (U+2028)
    and the byte order mark (U+FEFF). *)
Definition noBreakSpace : string := bytes [194; 160].
Definition emSpace : string := bytes [226; 128; 131].
Definition lineSeparator : string := bytes [226; 128; 168].
Definition byteOrderMark : string := bytes [239; 187; 191].


(** A row whose ten fields are absent, empty or white space. *)
Definition blankRow : Db.WorkerRow :=
  {| Db.id := Some "L8"; Db.nombre := Some noBreakSpace;
     Db.clave_electoral := Some ""; Db.curp := None;
     Db.direccion := Some (" " ++ emSpace ++ noBreakSpace);
     Db.colonia := Some "   ";
     Db.codigo_postal := None; Db.seccion := Some "";
     Db.entidad := Some (lineSeparator ++ byteOrderMark);
     Db.municipio := None;
     Db.numero_cel := Some "  ";
     Db.num_verificado := false; Db.created_at := None |}.

(** A leader whose postal code is the only field to contain ["640"]. *)
Definition postalRows : list Db.LiderWithHierarchy :=
  [ {| Db.lider_row :=
         {| Db.id := Some "L1"; Db.nombre := Some "Ana";
            Db.clave_electoral := None; Db.curp := None;
            Db.direccion := None; Db.colonia := Some "Centro";
            Db.codigo_postal := Some "64000"; Db.seccion := Some "1204";
            Db.entidad := Some "Nuevo Leon";
            Db.municipio := Some "Monterrey"; Db.numero_cel := None;
            Db.num_verificado := true; Db.created_at := Some 0%Z |};
       Db.brigadistas := Some [] |} ].


(** One leader with two brigade members, each with one mobilizer, of 3 and
    of 7 registrants. *)
Definition scenarioRows : list Db.LiderWithHierarchy :=
  [ {| Db.lider_row := namedRow "L" "Luz" None;
       Db.brigadistas :=
         Some [ {| Db.brig_row := namedRow "B1" "Beto" None;
                   Db.movilizadores :=
                     Some [ {| Db.mov_row := namedRow "M1" "Marta" None;
                               Db.ciudadanos :=
                                 Some (repeat emptyRow 3) |} ] |};
                {| Db.brig_row := namedRow "B2" "Bruno" None;
                   Db.movilizadores :=
                     Some [ {| Db.mov_row := namedRow "M2" "Mario" None;
                               Db.ciudadanos :=
                                 Some (repeat emptyRow 7) |} ] |} ] |} ].

(** A cache that holds the number 7 under ["k"], stored at time 0. *)
Definition smallCache : Cache.Store nat :=
  [("k", {| Cache.data := 7; Cache.timestamp := 0%Z |})].

End Samples.

(* ================================================================== *)
(** ** [useHierarchyData]: look-ups in the fetched tree *)

Module TreeQueries.

Import Hierarchy.

(** The first result of a loop that returns as soon as one iteration finds
    something. *)
Definition firstSome {A B} (f : A -> option B) : list A -> option B :=
  fix go (l : list A) : option B :=
    match l with
    | [] => None
    | x :: l' =>
        match f x with
        | Some y => Some y
        | None => go l'
        end
    end.

(** [worker.id === id] *)
Definition idIs (target : string) (w : HierarchicalWorker) : bool :=
  match id w with
  | Some i => String.eqb i target
  | None => false
  end.

(** One iteration of the loop of [findWorker]: the worker, else the first
    hit among its children. *)
Fixpoint findWorker (target : string) (w : HierarchicalWorker)
  : option HierarchicalWorker :=
  match w with
  | mkWorker _ _ _ _ _ ch _ _ _ _ =>
      if idIs target w then Some w
      else firstSome (findWorker target) ch
  end.

Definition getWorkerById (data : list HierarchicalWorker) (target : string)
  : option HierarchicalWorker :=
  firstSome (findWorker target) data.

(** One iteration of the loop of [findPath], on the shared [path] array:
    push, test, descend, pop.  The result is the flag returned and the array
    left behind. *)
Fixpoint findPath (target : string) (w : HierarchicalWorker)
    (path : list HierarchicalWorker) : bool * list HierarchicalWorker :=
  match w with
  | mkWorker _ _ _ _ _ ch _ _ _ _ =>
      let path1 := path ++ [w] in
      if idIs target w then (true, path1)
      else
        let descend :=
          (fix each (l : list HierarchicalWorker)
               (p : list HierarchicalWorker)
             : bool * list HierarchicalWorker :=
             match l with
             | [] => (false, p)
             | c :: l' =>
                 let (found, p') := findPath target c p in
                 if found then (true, p') else each l' p'
             end) ch path1 in
        if fst descend then (true, snd descend)
        else (false, removelast (snd descend))
  end.

(** The loop of [findPath] over a list of workers. *)
Fixpoint findPathIn (target : string) (workers : list HierarchicalWorker)
    (path : list HierarchicalWorker) : bool * list HierarchicalWorker :=
  match workers with
  | [] => (false, path)
  | w :: rest =>
      let (found, p') := findPath target w path in
      if found then (true, p') else findPathIn target rest p'
  end.

Definition getWorkerPath (data : list HierarchicalWorker) (target : string)
  : list HierarchicalWorker :=
  snd (findPathIn target data []).

(** [countChildren] *)
Fixpoint countChildren (w : HierarchicalWorker) : nat :=
  match w with
  | mkWorker _ _ _ _ _ ch _ _ _ _ =>
      length ch + list_sum (map countChildren ch)
  end.

Definition getChildrenCount (data : list HierarchicalWorker)
    (target : string) : nat :=
  match getWorkerById data target with
  | None => 0
  | Some w => countChildren w
  end.

(** The [catch] of the hook's [searchWorkers]: a failed search is an empty
    result. *)
Definition searchWorkers (searchTerm : string) (filters : option string)
    (env : Service.World) (cache : Service.ServiceCache)
  : list Service.FlatWorker :=
  match fst (Service.searchWorkers searchTerm filters env cache) with
  | Errors.Ok found => found
  | Errors.Throw _ => []
  end.

End TreeQueries.

(* ================================================================== *)
(** ** [WorkerAnalyticsService]: productivity of the network *)

Module Productivity.

Import Hierarchy.

(** [calculateNetworkSize] *)
Fixpoint calculateNetworkSize (w : HierarchicalWorker) : nat :=
  match w with
  | mkWorker _ _ _ _ _ ch _ _ _ _ =>
      fold_left (fun size child => size + calculateNetworkSize child) ch 1
  end.

(** [lider.children?.length || 0] *)
Definition brigadierCount (lid : HierarchicalWorker) : nat :=
  length (children lid).

(** [lider.children?.reduce((sum, brig) => sum + (brig.children?.length || 0),
    0) || 0] *)
Definition mobilizerCount (lid : HierarchicalWorker) : nat :=
  fold_left (fun sum brig => sum + length (children brig)) (children lid) 0.

Definition calculateEfficiencyScore (w : HierarchicalWorker) : Q :=
  ((tasaVerificacion (performance w) + completitudDatos (performance w))
   / 2)%Q.

(** ['high' | 'medium' | 'low'] *)
Inductive PerformanceLevel : Type := high | medium | low.

Definition getPerformanceLevel (score : Q) : PerformanceLevel :=
  if Service.Qge_bool score 80 then high
  else if Service.Qge_bool score 60 then medium
  else low.

(** The [needsSupport] field of a brigadier metric. *)
Definition needsSupport (brig : HierarchicalWorker) : bool :=
  Service.Qlt_bool (calculateEfficiencyScore brig) 50.

(** The [performanceLevel] field of a brigadier metric. *)
Definition performanceLevel (brig : HierarchicalWorker) : PerformanceLevel :=
  getPerformanceLevel (calculateEfficiencyScore brig).

End Productivity.

(* ================================================================== *)
(** ** [WorkerAnalyticsService]: top and bottom performers *)

Module Performers.

Import Analytics.

Section SortBy.

(** The comparator handed to [sort]. *)
Variable compare : WorkerAnalytics -> WorkerAnalytics -> Q.

Fixpoint insertBy (a : WorkerAnalytics) (sorted : list WorkerAnalytics)
  : list WorkerAnalytics :=
  match sorted with
  | [] => [a]
  | b :: rest =>
      if Qle_bool (compare a b) 0 then a :: b :: rest
      else b :: insertBy a rest
  end.

(** [xs.sort(compare)], stable, as [Analytics.sort] is for its comparator. *)
Fixpoint sortBy (xs : list WorkerAnalytics) : list WorkerAnalytics :=
  match xs with
  | [] => []
  | a :: rest => insertBy a (sortBy rest)
  end.

End SortBy.

Definition descending (a b : WorkerAnalytics) : Q :=
  (calculateWorkerScore b - calculateWorkerScore a)%Q.

Definition ascending (a b : WorkerAnalytics) : Q :=
  (calculateWorkerScore a - calculateWorkerScore b)%Q.

(** [getTopPerformers(analytics, count)]: the slice returned, and the array
    [analytics] as the in-place [sort] leaves it. *)
Definition getTopPerformers (analytics : list WorkerAnalytics) (count : nat)
  : list WorkerAnalytics * list WorkerAnalytics :=
  let sorted := sortBy descending analytics in
  (firstn count sorted, sorted).

(** [getUnderPerformers(analytics, count)], likewise. *)
Definition getUnderPerformers (analytics : list WorkerAnalytics)
    (count : nat) : list WorkerAnalytics * list WorkerAnalytics :=
  let sorted := sortBy ascending analytics in
  (firstn count sorted, sorted).

(** The three lists of workers of [UnifiedAnalytics]. *)
Record UnifiedLists : Type := mkUnified {
  workerAnalytics : list WorkerAnalytics;
  topPerformers : list WorkerAnalytics;
  underPerformers : list WorkerAnalytics
}.

(** The object literal of [getUnifiedAnalytics], for its worker lists: the
    field [workerAnalytics] and the two calls share one array, so the field
    holds the array as the last call leaves it. *)
Definition unifiedLists (analytics : list WorkerAnalytics) : UnifiedLists :=
  let (top, array1) := getTopPerformers analytics 10 in
  let (under, array2) := getUnderPerformers array1 10 in
  {| workerAnalytics := array2;
     topPerformers := top;
     underPerformers := under |}.

End Performers.

(* ================================================================== *)
(** ** [WorkerAnalyticsService]: goals *)

Module Goals.

Import Analytics.

Definition getWorkerTarget (r : Hierarchy.WorkerRole) : nat :=
  match r with
  | Hierarchy.Lider => 1000
  | Hierarchy.Brigadista => 500
  | Hierarchy.Movilizador => 100
  end.

(** ['on-track' | 'behind' | 'ahead' | 'completed'] *)
Inductive GoalStatus : Type := onTrack | behind | ahead | completed.

Definition getGoalStatus (percentage : Q) : GoalStatus :=
  if Service.Qge_bool percentage 100 then completed
  else if Service.Qge_bool percentage 80 then ahead
  else if Service.Qge_bool percentage 60 then onTrack
  else behind.

Record WorkerGoal : Type := mkGoal {
  goal_workerId : option string;
  goal_role : Hierarchy.WorkerRole;
  currentProgress : nat;
  target : nat;
  percentage : Q;
  status : GoalStatus
}.

(** The element built for one worker by the [map] of
    [getEnhancedGoalsMetrics].  The percentage is kept as the exact value of
    [(count / target) * 100]; what binary64 makes of the expression is
    [percentage_b64] below, which leads to the same status. *)
Definition toGoal (w : WorkerAnalytics) : WorkerGoal :=
  let target := getWorkerTarget (role w) in
  let percentage :=
    (Num.ofNat (ciudadanosRegistrados w) / Num.ofNat target * 100)%Q in
  {| goal_workerId := workerId w;
     goal_role := role w;
     currentProgress := ciudadanosRegistrados w;
     target := target;
     percentage := percentage;
     status := getGoalStatus percentage |}.

Definition roleEqb (a b : Hierarchy.WorkerRole) : bool :=
  match a, b with
  | Hierarchy.Lider, Hierarchy.Lider => true
  | Hierarchy.Brigadista, Hierarchy.Brigadista => true
  | Hierarchy.Movilizador, Hierarchy.Movilizador => true
  | _, _ => false
  end.

Definition isOnTrack (s : GoalStatus) : bool :=
  match s with onTrack => true | _ => false end.
Definition isAhead (s : GoalStatus) : bool :=
  match s with ahead => true | _ => false end.
Definition isBehind (s : GoalStatus) : bool :=
  match s with behind => true | _ => false end.
Definition isCompleted (s : GoalStatus) : bool :=
  match s with completed => true | _ => false end.

Record HierarchyGoal : Type := mkHierarchyGoal {
  level : Hierarchy.WorkerRole;
  totalWorkers : nat;
  workersOnTrack : nat;
  workersBehind : nat;
  workersAhead : nat;
  averageProgress : Num.JsNumber;
  levelTarget : nat;
  levelCurrent : nat
}.

Definition calculateHierarchyGoal (lvl : Hierarchy.WorkerRole)
    (goals : list WorkerGoal) : HierarchyGoal :=
  let levelGoals := filter (fun g => roleEqb (goal_role g) lvl) goals in
  {| level := lvl;
     totalWorkers := length levelGoals;
     workersOnTrack :=
       length (filter (fun g => isOnTrack (status g) || isAhead (status g))
                      levelGoals);
     workersBehind :=
       length (filter (fun g => isBehind (status g)) levelGoals);
     workersAhead :=
       length (filter (fun g => isAhead (status g)) levelGoals);
     averageProgress :=
       Num.div (fold_left (fun sum g => (sum + percentage g)%Q) levelGoals 0%Q)
               (Num.ofNat (length levelGoals));
     levelTarget := fold_left (fun sum g => sum + target g) levelGoals 0;
     levelCurrent :=
       fold_left (fun sum g => sum + currentProgress g) levelGoals 0 |}.

(** The percentage and the status of a worker in binary64 arithmetic. *)
Definition percentage_b64 (count target : nat) : spec_float :=
  Num.b64_mul (Num.b64_div (Num.b64 count) (Num.b64 target)) (Num.b64 100).

Definition getGoalStatus_b64 (percentage : spec_float) : GoalStatus :=
  if SFleb (Num.b64 100) percentage then completed
  else if SFleb (Num.b64 80) percentage then ahead
  else if SFleb (Num.b64 60) percentage then onTrack
  else behind.

Definition statusEqb (a b : GoalStatus) : bool :=
  match a, b with
  | onTrack, onTrack | behind, behind | ahead, ahead
  | completed, completed => true
  | _, _ => false
  end.

(** The [hierarchyLevelGoals] of [getEnhancedGoalsMetrics]. *)
Definition hierarchyLevelGoals (analytics : list WorkerAnalytics)
  : list HierarchyGoal :=
  let workerGoals := map toGoal analytics in
  [ calculateHierarchyGoal Hierarchy.Lider workerGoals;
    calculateHierarchyGoal Hierarchy.Brigadista workerGoals;
    calculateHierarchyGoal Hierarchy.Movilizador workerGoals ].

End Goals.

(* ================================================================== *)
(** ** The gateway: error classes, retry and circuit breaker
       ([types/errors.ts], [services/supabaseOptimized.ts]) *)

Module Gateway.

Local Open Scope string_scope.

(** What can be thrown, by its class.  The five classes of
    [types/errors.ts] extend [Error] directly. *)
Inductive Thrown : Type :=
| DatabaseError (message : string) (code : option string)
| NetworkError (message : string)
| ValidationError (message : string)
| ServiceError (message : string)
| RetryableError (message : string) (retryCount maxRetries : nat)
| OtherError (message : string)          (* another instance of [Error] *)
| NotAnError.                            (* a value that is no [Error] *)

Inductive ErrorType : Type := network | database | validation | service
                            | unknown.

Record ErrorInfo : Type := mkInfo {
  type : ErrorType;
  isRetryable : bool;
  info_message : string
}.

Definition retryableCodes : list string :=
  ["PGRST301"; "PGRST302"; "08000"; "08003"; "08006"].

(** [codes.includes(code)] *)
Definition includesCode (codes : list string) (code : string) : bool :=
  existsb (String.eqb code) codes.

Definition classifyError (error : Thrown) : ErrorInfo :=
  match error with
  | NetworkError m =>
      {| type := network; isRetryable := true; info_message := m |}
  | DatabaseError m code =>
      let c := match code with Some c => c | None => "" end in
      {| type := database; isRetryable := includesCode retryableCodes c;
         info_message := m |}
  | ValidationError m =>
      {| type := validation; isRetryable := false; info_message := m |}
  | ServiceError m | OtherError m | RetryableError m _ _ =>
      {| type := service; isRetryable := false; info_message := m |}
  | NotAnError =>
      {| type := unknown; isRetryable := false;
         info_message := "An unknown error occurred" |}
  end.

(** [error.message] *)
Definition messageOf (error : Thrown) : string :=
  match error with
  | DatabaseError m _ | NetworkError m | ValidationError m | ServiceError m
  | RetryableError m _ _ | OtherError m => m
  | NotAnError => ""
  end.

(** The string of an [ErrorType]. *)
Definition typeName (t : ErrorType) : string :=
  match t with
  | network => "network"
  | database => "database"
  | validation => "validation"
  | service => "service"
  | unknown => "unknown"
  end.

(** [enhanceError(error, context)] *)
Definition enhanceError (error : Thrown) (context : string) : Thrown :=
  match error with
  | DatabaseError _ _ => error
  | _ =>
      let errorInfo := classifyError error in
      DatabaseError (context ++ ": " ++ info_message errorInfo)
                    (Some (typeName (type errorInfo)))
  end.

(** How a call of a service of [HierarchyService] is seen by
    [classifyError]. *)
Definition ofServiceError (e : Errors.Error) : Thrown :=
  match e with
  | Errors.ServiceError m _ => ServiceError m
  | Errors.PlainError m => OtherError m
  | Errors.TypeError => OtherError "TypeError"
  end.

(** An awaited call: the value it resolves to, or what it throws. *)
Inductive Outcome (A : Type) : Type :=
| Returned (value : A)
| Threw (error : Thrown).

Arguments Returned {A} value.
Arguments Threw {A} error.

(** *** [withRetry] *)

Record RetryRun (A : Type) : Type := mkRun {
  outcome : Outcome A;
  calls : nat;              (* how many times [operation] was called *)
  delays : list Z           (* the waits between the calls, in order *)
}.

Arguments mkRun {A} outcome calls delays.
Arguments outcome {A} r.
Arguments calls {A} r.
Arguments delays {A} r.

(** The loop of [withRetry] from [attempt] on, [remaining] being
    [maxRetries - attempt]; [operation k] is the outcome of the call made at
    attempt [k]. *)
Fixpoint retryFrom {A} (operation : nat -> Outcome A) (baseDelay : Z)
    (attempt remaining : nat) : RetryRun A :=
  match operation attempt with
  | Returned a => mkRun (Returned a) 1 []
  | Threw error =>
      let errorInfo := classifyError error in
      match remaining with
      | O => mkRun (Threw error) 1 []            (* attempt === maxRetries *)
      | S remaining' =>
          if negb (isRetryable errorInfo) then mkRun (Threw error) 1 []
          else
            let delay := (baseDelay * 2 ^ Z.of_nat attempt)%Z in
            let run := retryFrom operation baseDelay (S attempt) remaining' in
            mkRun (outcome run) (S (calls run)) (delay :: delays run)
      end
  end.

Definition withRetry {A} (operation : nat -> Outcome A) (maxRetries : nat)
    (baseDelay : Z) : RetryRun A :=
  retryFrom operation baseDelay 0 maxRetries.

(** *** [CircuitBreaker] *)

Inductive BreakerState : Type := closed | open | halfOpen.

Record Breaker : Type := mkBreaker {
  failures : nat;
  lastFailureTime : Z;
  state : BreakerState
}.

Definition newBreaker : Breaker :=
  {| failures := 0; lastFailureTime := 0; state := closed |}.

Section CircuitBreaker.

Variable threshold : nat.
Variable timeout : Z.

(** The guard at the head of [execute] at clock reading [t]: the breaker
    with which the operation is run, or [None] when the call is refused. *)
Definition enter (t : Z) (b : Breaker) : option Breaker :=
  match state b with
  | open =>
      if (timeout <? t - lastFailureTime b)%Z then
        Some {| failures := failures b;
                lastFailureTime := lastFailureTime b;
                state := halfOpen |}
      else None
  | _ => Some b
  end.

Definition onSuccess (b : Breaker) : Breaker :=
  {| failures := 0; lastFailureTime := lastFailureTime b; state := closed |}.

Definition onFailure (t : Z) (b : Breaker) : Breaker :=
  let failures' := S (failures b) in
  {| failures := failures';
     lastFailureTime := t;
     state := if (threshold <=? failures')%nat then open else state b |}.

(** [execute(operation)]: [t] is the clock at the call, [result] what the
    operation does if it is run, [t'] the clock when it has failed. *)
Definition execute {A} (t : Z) (result : Outcome A) (t' : Z) (b : Breaker)
  : Outcome A * Breaker :=
  match enter t b with
  | None => (Threw (ServiceError "Circuit breaker is open"), b)
  | Some b1 =>
      match result with
      | Returned a => (Returned a, onSuccess b1)
      | Threw error => (Threw error, onFailure t' b1)
      end
  end.

(** The states of a breaker: calls overlap at their [await], so the guard
    and the two endings of a call are steps of their own. *)
Inductive reachableBreaker : Breaker -> Prop :=
| breaker_new : reachableBreaker newBreaker
| breaker_enter t b b' :
    reachableBreaker b -> enter t b = Some b' -> reachableBreaker b'
| breaker_success b : reachableBreaker b -> reachableBreaker (onSuccess b)
| breaker_failure t b :
    reachableBreaker b -> reachableBreaker (onFailure t b).

(** [n] calls in a row, each run to its end before the next, whose
    operations all throw [error]; the calls are made at clock reading [t]. *)
Fixpoint failingCalls (n : nat) (t : Z) (error : Thrown) (b : Breaker)
  : Breaker :=
  match n with
  | O => b
  | S n' =>
      failingCalls n' t error (snd (execute (A := unit) t (Threw error) t b))
  end.

End CircuitBreaker.

(** *** [OptimizedSupabaseService.getHierarchicalData] *)

(** The error object of a query answer. *)
Record PostgrestError : Type := mkPgError {
  pg_message : string;
  pg_code : option string
}.

(** What the database client does during one run of the operation:
    [validateConnection] may throw (always a [NetworkError]); the query
    answers with [data] and [error], or throws. *)
Record Attempt : Type := mkAttempt {
  connectionFailure : option string;       (* message of the NetworkError *)
  answer : Outcome (option (list Db.LiderWithHierarchy)
                    * option PostgrestError)
}.

(** [DatabaseResult<LiderWithHierarchy[]>], with its error kept whole. *)
Record GatewayResult : Type := mkGatewayResult {
  gw_data : option (list Db.LiderWithHierarchy);
  gw_error : option Thrown
}.

(** The body of the operation: the [try] and its [catch]. *)
Definition hierarchicalQuery (a : Attempt) : Outcome GatewayResult :=
  let tried : Outcome GatewayResult :=
    match connectionFailure a with
    | Some m => Threw (NetworkError m)
    | None =>
        match answer a with
        | Threw e => Threw e
        | Returned (data, Some error) =>
            Threw (DatabaseError "Failed to fetch hierarchical data"
                                 (pg_code error))
        | Returned (data, None) =>
            Returned {| gw_data := Some (Db.orEmpty data);
                        gw_error := None |}
        end
    end in
  match tried with
  | Returned r => Returned r
  | Threw error =>
      Returned {| gw_data := None;
                  gw_error := Some (enhanceError error "getHierarchicalData") |}
  end.

(** [getHierarchicalData(options)]: the circuit breaker of the service
    around [withRetry] around the operation; [attempts k] is what the
    database client does at the [k]-th run. *)
Definition getHierarchicalData (t : Z) (attempts : nat -> Attempt) (t' : Z)
    (b : Breaker) : Outcome GatewayResult * Breaker :=
  execute 5 60000 t
    (outcome (withRetry (fun k => hierarchicalQuery (attempts k)) 3 1000))
    t' b.

(** The outcome as [HierarchyService] reads it ([result.error.message]). *)
Definition seenByService (o : Outcome GatewayResult)
  : Service.GatewayOutcome :=
  match o with
  | Returned r =>
      Service.Resolved
        {| Service.db_data := gw_data r;
           Service.db_error := option_map messageOf (gw_error r) |}
  | Threw e =>
      Service.Rejected
        (match e with
         | ServiceError m => Errors.ServiceError m None
         | _ => Errors.PlainError (messageOf e)
         end)
  end.

End Gateway.

(* ================================================================== *)
(** ** Further notions used by the statements *)

Module Notions.

Import Hierarchy.

(** The nodes of a forest in the order of [flattenHierarchy]. *)
Definition preorder (data : list HierarchicalWorker)
  : list HierarchicalWorker :=
  flat_map Spec.subtree data.

(** The way down from a node to the first node, in that order, with the
    identifier looked for. *)
Fixpoint pathTo (target : string) (w : HierarchicalWorker)
  : option (list HierarchicalWorker) :=
  match w with
  | mkWorker _ _ _ _ _ ch _ _ _ _ =>
      if TreeQueries.idIs target w then Some [w]
      else match TreeQueries.firstSome (pathTo target) ch with
           | Some p => Some (w :: p)
           | None => None
           end
  end.

(** Each node of the list is a child of the one before it. *)
Fixpoint chain (path : list HierarchicalWorker) : Prop :=
  match path with
  | a :: (b :: _) as rest => In b (children a) /\ chain rest
  | _ => True
  end.

(** A way down: it starts at [w], is a chain of children and ends at the
    worker [findWorker] finds. *)
Definition leadsFrom (target : string) (w : HierarchicalWorker) : Prop :=
  match pathTo target w with
  | Some p =>
      exists rest found,
        p = w :: rest /\ chain p
        /\ TreeQueries.findWorker target w = Some found /\ last p w = found
  | None => TreeQueries.findWorker target w = None
  end.

(** The role of the nodes at a depth of the flattened hierarchy. *)
Definition roleAt (lvl : nat) : WorkerRole :=
  match lvl with
  | 0 => Lider
  | 1 => Brigadista
  | _ => Movilizador
  end.

(** A flattened node of a three-level forest: its depth is at most 2 and
    fixes its role, a root has no parent, a node at depth 2 has no child, and
    every child refers to the node as its parent. *)
Definition wellPlaced (fw : Service.FlatWorker) : Prop :=
  let w := Service.worker fw in
  Service.level fw <= 2
  /\ role w = roleAt (Service.level fw)
  /\ (Service.level fw = 0 -> parentId w = None)
  /\ (Service.level fw = 2 -> children w = [])
  /\ Forall (fun c => parentId c = id w) (children w).

(** The metrics of a node as the builder computes them. *)
Definition soundMetrics (w : HierarchicalWorker) : Prop :=
  perf_ciudadanosRegistrados (performance w) = ciudadanosRegistrados w
  /\ (tasaVerificacion (performance w) = 0%Q
      \/ tasaVerificacion (performance w) = 100%Q)
  /\ (0 <= completitudDatos (performance w) <= 100)%Q
  /\ ultimaActividad (performance w) = lastActivity w
  /\ (tendencia (performance w) = up -> isActive w = true)
  /\ (isActive w = false ->
      tendencia (performance w) = down \/ lastActivity w = None)
  /\ Forall (fun c => ciudadanosRegistrados c <= ciudadanosRegistrados w)
            (children w).

(** The deepest level a forest reaches, of its first three. *)
Definition depthSeen (data : list HierarchicalWorker) : nat :=
  match Spec.level3 data, Spec.level2 data with
  | _ :: _, _ => 3
  | [], _ :: _ => 2
  | [], [] => 1
  end.


(** The keys of a cache, oldest first. *)
Definition keys {T} (cache : Cache.Store T) : list string :=
  map fst cache.






(** The gateway did not answer with rows. *)
Definition gatewayFailed (g : Service.GatewayOutcome) : Prop :=
  match g with
  | Service.Resolved r =>
      Service.db_error r <> None \/ Service.db_data r = None
  | Service.Rejected _ => True
  end.

(** The result of a call is a value or a thrown [ServiceError]. *)
Definition valueOrServiceError {A} (r : Errors.Result A) : Prop :=
  match r with
  | Errors.Ok _ => True
  | Errors.Throw e => Errors.isServiceError e = true
  end.

(** [a] may stay before [b] under a comparator: [compare(a, b) <= 0]. *)
Definition precedes
    (compare : Analytics.WorkerAnalytics -> Analytics.WorkerAnalytics -> Q)
    (a b : Analytics.WorkerAnalytics) : Prop :=
  (compare a b <= 0)%Q.

(** The workers whose score is [q]. *)
Definition scoreIs (q : Q) (a : Analytics.WorkerAnalytics) : bool :=
  Qeq_bool (Analytics.calculateWorkerScore a) q.

(** A leader with 600 registrants, as the ranking pass records it. *)
Definition sampleLeader : Analytics.WorkerAnalytics :=
  {| Analytics.workerId := Some "L"%string;
     Analytics.workerName := Some "Luz"%string;
     Analytics.role := Lider;
     Analytics.ciudadanosRegistrados := 600;
     Analytics.tasaVerificacion := 100%Q;
     Analytics.completitudDatos := 50%Q;
     Analytics.ubicacionGeografica :=
       {| entidad := None; municipio := None; seccion := None;
          colonia := None; codigo_postal := None |};
     Analytics.rendimientoTemporal := [];
     Analytics.ranking := 1;
     Analytics.tendencia := stable;
     Analytics.ultimaActividad := None |}.

End Notions.

(* ================================================================== *)
(** * Properties *)

(** ** Lists *)

Module ListFacts.

Lemma fold_left_sum {A} (f : A -> nat) (l : list A) (a : nat) :
  fold_left (fun sum x => sum + f x) l a = a + list_sum (map f l).
Proof.
  revert a; induction l as [|x l IH]; intros a; simpl.
  - lia.
  - rewrite IH; lia.
Qed.

Lemma Forall2_map_r {A B} (R : A -> B -> Prop) (f : A -> B) (l : list A) :
  (forall x, In x l -> R x (f x)) -> Forall2 R l (map f l).
Proof.
  induction l as [|x l IH]; intros H; simpl; constructor.
  - apply H; now left.
  - apply IH; intros y Hy; apply H; now right.
Qed.

End ListFacts.

(** ** The registered counts of a built tree *)

Module BuilderFacts.

Import Hierarchy Spec ListFacts.

(** The collections as the builder reads them. *)
Lemma orEmpty_rowsOf {A} (collection : option (list A)) :
  Db.orEmpty collection = rowsOf collection.
Proof. destruct collection; reflexivity. Qed.

Lemma lengthOr0_leafRows (src : Db.MovilizadorWithHierarchy) :
  Db.lengthOr0 (Db.ciudadanos src) = length (leafRows src).
Proof. unfold leafRows; destruct (Db.ciudadanos src); reflexivity. Qed.

Lemma length_flat_map {A B} (f : A -> list B) (l : list A) :
  length (flat_map f l) = list_sum (map (fun x => length (f x)) l).
Proof.
  induction l as [|x l IH]; simpl; [reflexivity|].
  now rewrite length_app, IH.
Qed.

Lemma movilizador_built now parent src :
  builtMovilizador src
    (transformMovilizadorToHierarchicalWorker now src parent).
Proof.
  split; [reflexivity|split; [reflexivity|]].
  apply lengthOr0_leafRows.
Qed.

Lemma movilizadoresBelow_built now parent
    (movs : list Db.MovilizadorWithHierarchy) :
  flat_map movilizadoresBelow
    (map (fun m => transformMovilizadorToHierarchicalWorker now m parent)
         movs)
  = map (fun m => transformMovilizadorToHierarchicalWorker now m parent)
        movs.
Proof.
  induction movs as [|m movs IH]; simpl; [reflexivity|].
  now rewrite IH.
Qed.

Lemma brigadista_leafTotal now parent src :
  leafTotal (transformBrigadistaToHierarchicalWorker now src parent)
  = list_sum (map (fun m => Db.lengthOr0 (Db.ciudadanos m))
                  (Db.orEmpty (Db.movilizadores src))).
Proof.
  unfold leafTotal; simpl.
  rewrite movilizadoresBelow_built, map_map; reflexivity.
Qed.

Lemma brigadista_count now parent src :
  ciudadanosRegistrados
    (transformBrigadistaToHierarchicalWorker now src parent)
  = list_sum (map (fun m => Db.lengthOr0 (Db.ciudadanos m))
                  (Db.orEmpty (Db.movilizadores src))).
Proof.
  simpl; destruct (Db.movilizadores src) as [movs|]; simpl.
  - now rewrite fold_left_sum.
  - reflexivity.
Qed.

Lemma brigadista_leafRows src :
  list_sum (map (fun m => Db.lengthOr0 (Db.ciudadanos m))
                (Db.orEmpty (Db.movilizadores src)))
  = length (leafRowsOfBrigadista src).
Proof.
  unfold leafRowsOfBrigadista.
  rewrite length_flat_map, orEmpty_rowsOf; f_equal.
  apply map_ext; intros m; apply lengthOr0_leafRows.
Qed.

Lemma brigadista_built now parent src :
  builtBrigadista src
    (transformBrigadistaToHierarchicalWorker now src parent).
Proof.
  split; [reflexivity|split; [|split]].
  - now rewrite brigadista_count, brigadista_leafTotal.
  - rewrite brigadista_count; apply brigadista_leafRows.
  - rewrite <- orEmpty_rowsOf; simpl.
    apply Forall2_map_r; intros m _; apply movilizador_built.
Qed.

Lemma lider_leafTotal now src :
  leafTotal (transformLiderToHierarchicalWorker now src)
  = list_sum
      (map (fun b =>
              list_sum (map (fun m => Db.lengthOr0 (Db.ciudadanos m))
                            (Db.orEmpty (Db.movilizadores b))))
           (Db.orEmpty (Db.brigadistas src))).
Proof.
  unfold leafTotal; simpl.
  generalize (Db.id (Db.lider_row src)); intros parent.
  induction (Db.orEmpty (Db.brigadistas src)) as [|b bs IH]; simpl.
  - reflexivity.
  - rewrite map_app, list_sum_app, IH.
    f_equal.
    rewrite movilizadoresBelow_built, map_map; reflexivity.
Qed.

Lemma lider_count now src :
  ciudadanosRegistrados (transformLiderToHierarchicalWorker now src)
  = list_sum
      (map (fun b =>
              list_sum (map (fun m => Db.lengthOr0 (Db.ciudadanos m))
                            (Db.orEmpty (Db.movilizadores b))))
           (Db.orEmpty (Db.brigadistas src))).
Proof.
  simpl; unfold calculateTotalCiudadanos.
  rewrite (fold_left_sum
             (fun b => fold_left
                         (fun t m => t + Db.lengthOr0 (Db.ciudadanos m))
                         (Db.orEmpty (Db.movilizadores b)) 0)).
  simpl; f_equal.
  apply map_ext; intros b; now rewrite fold_left_sum.
Qed.

Lemma lider_leafRows src :
  list_sum
    (map (fun b =>
            list_sum (map (fun m => Db.lengthOr0 (Db.ciudadanos m))
                          (Db.orEmpty (Db.movilizadores b))))
         (Db.orEmpty (Db.brigadistas src)))
  = length (leafRowsOfLider src).
Proof.
  unfold leafRowsOfLider.
  rewrite length_flat_map, orEmpty_rowsOf; f_equal.
  apply map_ext; intros b; apply brigadista_leafRows.
Qed.

Lemma lider_built now src :
  builtLider src (transformLiderToHierarchicalWorker now src).
Proof.
  split; [reflexivity|split; [|split]].
  - now rewrite lider_count, lider_leafTotal.
  - rewrite lider_count; apply lider_leafRows.
  - rewrite <- orEmpty_rowsOf; simpl.
    apply Forall2_map_r; intros b _; apply brigadista_built.
Qed.

(** C1.  In every tree returned by [transformToHierarchicalWorkers] the
    nodes stand for the rows of the source, level by level and in order.  A
    level-3 (movilizador) node carries as [ciudadanosRegistrados] the length
    of the leaf-row collection of its row (0 when the row has none); a
    level-1 (lider) node and a level-2 (brigadista) node carry the sum of
    the counts of the level-3 nodes of their subtree, which is the number of
    leaf rows below their row. *)
Theorem registered_count_is_leaf_sum now
    (data : list Db.LiderWithHierarchy) :
  Forall2 builtLider data (transformToHierarchicalWorkers now data).
Proof.
  unfold transformToHierarchicalWorkers.
  apply Forall2_map_r; intros src _; apply lider_built.
Qed.

End BuilderFacts.

(** ** The builder and malformed rows *)

Module ValidationFacts.

Import Hierarchy Service Errors Spec Samples.

Lemma builder_copies_identity now (data : list Db.LiderWithHierarchy) :
  Forall2 (fun src node =>
             id node = Db.id (Db.lider_row src)
             /\ nombre node = Db.nombre (Db.lider_row src))
          data (transformToHierarchicalWorkers now data).
Proof.
  apply ListFacts.Forall2_map_r; intros src _; split; reflexivity.
Qed.

(** C2, refuted as stated: a level-1 row without [id] and [nombre] is
    malformed, and the build returns a tree for it, whose one node has
    neither. *)
Lemma malformed_input_yields_tree :
  malformedInput [namelessLider]
  /\ exists tree,
       fst (getHierarchicalData None (world 0 [namelessLider]) [])
       = Ok tree
       /\ map id tree = [None] /\ map nombre tree = [None].
Proof.
  split.
  - constructor; left; reflexivity.
  - eexists; repeat split; reflexivity.
Qed.

(** C2, as amended: the builder validates nothing.  For every input,
    malformed or not, it returns one node per level-1 row, in order, with
    [id] and [nombre] copied as they are, and whenever the gateway answers
    with rows and no error [getHierarchicalData] does not fail, whatever
    the cache holds: on a miss it returns the tree built from the rows, on
    a hit the cached tree. *)
Theorem builder_validates_nothing (data : list Db.LiderWithHierarchy) :
  (forall t,
      Forall2 (fun src node =>
                 id node = Db.id (Db.lider_row src)
                 /\ nombre node = Db.nombre (Db.lider_row src))
              data (transformToHierarchicalWorkers t data))
  /\ (forall key t1 t2 cache,
        fst (fetchAndBuild key
               {| now := t1; gateway := answered data; later := t2 |} cache)
        = Ok (transformToHierarchicalWorkers t2 data))
  /\ (forall filters t1 t2 cache,
        fst (getHierarchicalData filters
               {| now := t1; gateway := answered data; later := t2 |} cache)
        = match fst (Cache.getFromCache CACHE_TTL
                       (generateCacheKey "hierarchical-data" filters)
                       t1 cache) with
          | Some cached => Ok cached
          | None => Ok (transformToHierarchicalWorkers t2 data)
          end).
Proof.
  split; [|split].
  - intros t; apply builder_copies_identity.
  - reflexivity.
  - intros filters t1 t2 cache; unfold getHierarchicalData.
    cbn [now].
    destruct (Cache.getFromCache CACHE_TTL
                (generateCacheKey "hierarchical-data" filters) t1 cache)
      as [[cached|] cache1]; reflexivity.
Qed.

End ValidationFacts.

(** ** Rational comparisons *)

Module NumFacts.

Import Service.

Lemma Qge_bool_iff a b : Qge_bool a b = true <-> (b <= a)%Q.
Proof. unfold Qge_bool; apply Qle_bool_iff. Qed.

Lemma Qlt_bool_iff a b : Qlt_bool a b = true <-> (a < b)%Q.
Proof.
  unfold Qlt_bool; rewrite negb_true_iff; split.
  - intros H; apply Qnot_le_lt; intros Hle.
    apply Qle_bool_iff in Hle; congruence.
  - intros H; destruct (Qle_bool b a) eqn:E; [|reflexivity].
    apply Qle_bool_iff in E; exfalso; exact (Qlt_not_le _ _ H E).
Qed.

Lemma Qle_bool_comp a a' b b' :
  (a == a')%Q -> (b == b')%Q -> Qle_bool a b = Qle_bool a' b'.
Proof.
  intros Ha Hb; apply eq_true_iff_eq.
  rewrite !Qle_bool_iff, Ha, Hb; reflexivity.
Qed.

Lemma min_is_Qmin a b : (Num.min a b == Qmin a b)%Q.
Proof.
  unfold Num.min; destruct (Qle_bool a b) eqn:E.
  - apply Qle_bool_iff in E; symmetry; now apply Q.min_l.
  - symmetry; apply Q.min_r; apply Qlt_le_weak, Qnot_le_lt.
    intros H; apply Qle_bool_iff in H; congruence.
Qed.

Lemma inBand_comp lvl a b : (a == b)%Q -> inBand lvl a = inBand lvl b.
Proof.
  intros H; destruct lvl; unfold inBand, Qge_bool, Qlt_bool;
    repeat rewrite (@Qle_bool_comp _ _ a b (Qeq_refl _) H);
    repeat rewrite (@Qle_bool_comp a b _ _ H (Qeq_refl _)); reflexivity.
Qed.

End NumFacts.

(** ** The ranking pass *)

Module RankingFacts.

Import Analytics Spec.

Lemma mapi_length {A B} (f : nat -> A -> B) i (l : list A) :
  length (mapi f i l) = length l.
Proof.
  revert i; induction l as [|x l IH]; intros i; simpl; congruence.
Qed.

Lemma rankings_of_assign i (l : list WorkerAnalytics) :
  map ranking (mapi (fun index w => setRanking (index + 1) w) i l)
  = seq (i + 1) (length l).
Proof.
  revert i; induction l as [|a l IH]; intros i; simpl.
  - reflexivity.
  - f_equal; rewrite IH; f_equal.
Qed.

Lemma unranked_assign i (l : list WorkerAnalytics) :
  map unranked (mapi (fun index w => setRanking (index + 1) w) i l)
  = map unranked l.
Proof.
  revert i; induction l as [|a l IH]; intros i; simpl.
  - reflexivity.
  - now rewrite IH.
Qed.

Lemma scores_of_assign i (l : list WorkerAnalytics) :
  map calculateWorkerScore
      (mapi (fun index w => setRanking (index + 1) w) i l)
  = map calculateWorkerScore l.
Proof.
  revert i; induction l as [|a l IH]; intros i; simpl.
  - reflexivity.
  - now rewrite IH.
Qed.

Lemma insert_perm a l : Permutation (insert a l) (a :: l).
Proof.
  induction l as [|b l IH]; simpl.
  - apply Permutation_refl.
  - destruct (Qle_bool (compareWorkers a b) 0).
    + apply Permutation_refl.
    + eapply perm_trans; [apply perm_skip, IH | apply perm_swap].
Qed.

Lemma sort_perm l : Permutation (sort l) l.
Proof.
  induction l as [|a l IH]; simpl.
  - apply perm_nil.
  - eapply perm_trans; [apply insert_perm | apply perm_skip, IH].
Qed.

Lemma rankedBefore_trans a b c :
  rankedBefore a b -> rankedBefore b c -> rankedBefore a c.
Proof. unfold rankedBefore; intros H1 H2; eapply Qle_trans; eauto. Qed.

(** The comparator is not positive exactly when [a] may stay before [b]. *)
Lemma compare_nonpositive a b :
  Qle_bool (compareWorkers a b) 0 = true <-> rankedBefore a b.
Proof.
  unfold compareWorkers, rankedBefore; rewrite Qle_bool_iff.
  set (sa := calculateWorkerScore a); set (sb := calculateWorkerScore b).
  rewrite (Qle_minus_iff (sb - sa) 0), (Qle_minus_iff sb sa).
  assert (E : (0 + - (sb - sa) == sa + - sb)%Q) by ring.
  rewrite E; reflexivity.
Qed.

Lemma compare_positive a b :
  Qle_bool (compareWorkers a b) 0 = false -> rankedBefore b a.
Proof.
  intros H; unfold rankedBefore.
  apply Qlt_le_weak, Qnot_le_lt; intros Hle.
  apply compare_nonpositive in Hle; congruence.
Qed.

Lemma insert_sorted a l :
  StronglySorted rankedBefore l -> StronglySorted rankedBefore (insert a l).
Proof.
  induction l as [|b l IH]; intros Hs; simpl.
  - constructor; [constructor|constructor].
  - inversion Hs as [|b' l' Hl Hb]; subst.
    destruct (Qle_bool (compareWorkers a b) 0) eqn:E.
    + apply compare_nonpositive in E.
      constructor; [assumption|].
      constructor; [assumption|].
      eapply Forall_impl; [|exact Hb].
      intros c Hc; eapply rankedBefore_trans; eauto.
    + apply compare_positive in E.
      constructor; [now apply IH|].
      eapply Permutation_Forall;
        [apply Permutation_sym, insert_perm|].
      constructor; assumption.
Qed.

Lemma sort_sorted l : StronglySorted rankedBefore (sort l).
Proof.
  induction l as [|a l IH]; simpl.
  - constructor.
  - now apply insert_sorted.
Qed.

(** Sortedness looks at the scores only. *)
Lemma scores_cons a a' (l l' : list WorkerAnalytics) :
  map calculateWorkerScore (a :: l) = map calculateWorkerScore (a' :: l') ->
  calculateWorkerScore a = calculateWorkerScore a'
  /\ map calculateWorkerScore l = map calculateWorkerScore l'.
Proof.
  intros H; split.
  - exact (f_equal (hd (calculateWorkerScore a)) H).
  - exact (f_equal (@tl _) H).
Qed.

Lemma before_all_by_scores a a' (l l' : list WorkerAnalytics) :
  calculateWorkerScore a = calculateWorkerScore a' ->
  map calculateWorkerScore l = map calculateWorkerScore l' ->
  Forall (rankedBefore a) l -> Forall (rankedBefore a') l'.
Proof.
  intros Ha; revert l'.
  induction l as [|b l IH]; intros [|b' l'] Hl Hall;
    try discriminate; constructor;
    apply scores_cons in Hl; destruct Hl as [Hb Hl];
    inversion Hall as [|? ? Hb0 Hall0]; subst.
  - unfold rankedBefore in *; now rewrite <- Ha, <- Hb.
  - now apply IH.
Qed.

Lemma sorted_by_scores (l l' : list WorkerAnalytics) :
  map calculateWorkerScore l = map calculateWorkerScore l' ->
  StronglySorted rankedBefore l -> StronglySorted rankedBefore l'.
Proof.
  revert l'; induction l as [|a l IH]; intros [|a' l'] Heq Hs;
    try discriminate; [constructor|].
  apply scores_cons in Heq; destruct Heq as [Ha Hl].
  inversion Hs as [|? ? Hs' Hall]; subst.
  constructor; [now apply IH|].
  eapply before_all_by_scores; eauto.
Qed.

Lemma rankWorkers_sorted flat : StronglySorted rankedBefore (rankWorkers flat).
Proof.
  unfold rankWorkers, assignRankings.
  eapply sorted_by_scores; [symmetry; apply scores_of_assign|].
  apply sort_sorted.
Qed.

Lemma rankWorkers_rankings flat :
  map ranking (rankWorkers flat) = seq 1 (length flat).
Proof.
  unfold rankWorkers, assignRankings.
  rewrite rankings_of_assign; simpl.
  now rewrite (Permutation_length (sort_perm _)), mapi_length.
Qed.

(** The score of the pass is the one written out. *)
Lemma score_is_rankingScore a :
  (calculateWorkerScore a == rankingScore a)%Q.
Proof.
  unfold calculateWorkerScore, rankingScore.
  apply Qmult_comp; [ring | reflexivity].
Qed.

Lemma sorted_byRankingScore l :
  StronglySorted rankedBefore l -> StronglySorted byRankingScore l.
Proof.
  induction 1 as [|a l _ IH Hall]; constructor; [exact IH|].
  eapply Forall_impl; [|exact Hall].
  intros b Hb; unfold byRankingScore, rankedBefore in *.
  now rewrite <- !score_is_rankingScore.
Qed.

(** C4, refuted as stated: the list the rankings are assigned over is not
    the input sorted descending by composite score.  Over the flattened
    sample tree the pass ranks L, B, M2, M1 in this order, and no
    arrangement of the four nodes that descends by composite score has them
    in this order: M1, of composite score 27.5, is ranked last, behind
    three nodes of composite score 15. *)
Lemma ranking_order_is_not_composite_order :
  map (fun a => (workerId a, ranking a)) (rankWorkers Samples.rankingFlat)
  = [(Some "L", 1); (Some "B", 2); (Some "M2", 3); (Some "M1", 4)]%string
  /\ forall arranged,
       Permutation arranged Samples.rankingFlat ->
       StronglySorted byCompositeScore arranged ->
       map (fun fw => Hierarchy.id (Service.worker fw)) arranged
       <> map workerId (rankWorkers Samples.rankingFlat).
Proof.
  split; [vm_compute; reflexivity|].
  intros arranged Hperm Hsorted Heq.
  destruct arranged as [|x rest];
    [apply Permutation_nil in Hperm; discriminate|].
  inversion Hsorted as [|? ? _ Hall]; subst.
  assert (Hx : In x Samples.rankingFlat).
  { eapply Permutation_in; [exact Hperm | now left]. }
  pose (m1 := nth 2 Samples.rankingFlat x).
  assert (Hm : In m1 (x :: rest)).
  { eapply Permutation_in; [apply Permutation_sym, Hperm|].
    right; right; left; reflexivity. }
  assert (Hid : Hierarchy.id (Service.worker x) = Some "L"%string).
  { exact (f_equal (hd None) Heq). }
  destruct Hm as [Hm | Hm].
  - rewrite Hm in Hid; vm_compute in Hid; discriminate.
  - rewrite Forall_forall in Hall; specialize (Hall m1 Hm).
    unfold byCompositeScore in Hall.
    destruct Hx as [<- | [<- | [<- | [<- | []]]]];
      vm_compute in Hall; try (apply Hall; reflexivity);
      vm_compute in Hid; discriminate.
Qed.

(** C4, as amended.  After the ranking pass over N flattened workers the
    rankings are, in list order, 1, 2, ..., N: every value of 1..N is
    assigned, none twice.  The list they are assigned over holds the
    records of the input and is sorted descending by the score of the pass,
    (verification rate + data completeness + 2 * registered count) / 4,
    not by the composite score. *)
Theorem rankings_are_dense (flat : list Service.FlatWorker) :
  let ranked := rankWorkers flat in
  map ranking ranked = seq 1 (length flat)
  /\ NoDup (map ranking ranked)
  /\ (forall r, In r (map ranking ranked) <-> 1 <= r <= length flat)
  /\ StronglySorted byRankingScore ranked
  /\ Permutation (map unranked ranked)
                 (map unranked (mapi toAnalytics 0 flat)).
Proof.
  intros ranked; subst ranked.
  rewrite rankWorkers_rankings.
  split; [reflexivity|].
  split; [apply seq_NoDup|].
  split; [intros r; rewrite in_seq; lia|].
  split; [apply sorted_byRankingScore, rankWorkers_sorted|].
  unfold rankWorkers, assignRankings.
  rewrite unranked_assign.
  apply Permutation_map, sort_perm.
Qed.

End RankingFacts.

(** ** The composite score and the performance bands *)

Module ScoreFacts.

Import Hierarchy Service Spec NumFacts Samples.
Local Open Scope Q_scope.

Lemma overall_score_is_composite (w : HierarchicalWorker) :
  calculateOverallPerformanceScore w == scoreOfNode w.
Proof.
  unfold calculateOverallPerformanceScore, scoreOfNode, compositeScore,
    activityScore, registrationScore.
  rewrite min_is_Qmin; reflexivity.
Qed.

Lemma byPerformance_spec lvl data fw :
  In fw (byPerformanceIn lvl data)
  <-> In fw (flattenHierarchy data)
      /\ inBand lvl (calculateOverallPerformanceScore (worker fw)) = true.
Proof. unfold byPerformanceIn; apply filter_In. Qed.

(** C3, refuted as stated: over the flattened sample tree the ranking pass
    ranks the idle but active mobilizer M1 last, although its composite
    score, 27.5, is above the 15 of the three other nodes; the score of the
    pass is 2.5 for M1 and 5 for the others. *)
Lemma ranking_pass_uses_another_score :
  map (fun fw => id (worker fw)) rankingFlat
  = [Some "L"; Some "B"; Some "M1"; Some "M2"]%string
  /\ map (fun fw => Qred (scoreOfNode (worker fw))) rankingFlat
     = [15 # 1; 15 # 1; 55 # 2; 15 # 1]
  /\ map (fun a => Qred (Analytics.calculateWorkerScore a))
         (Analytics.mapi Analytics.toAnalytics 0 rankingFlat)
     = [5 # 1; 5 # 1; 5 # 2; 5 # 1]
  /\ map (fun a => (Analytics.workerId a, Analytics.ranking a))
         (Analytics.rankWorkers rankingFlat)
     = [(Some "L", 1%nat); (Some "B", 2%nat);
        (Some "M2", 3%nat); (Some "M1", 4%nat)]%string
  /\ ~ (forall i fw,
          nth_error rankingFlat i = Some fw ->
          Analytics.calculateWorkerScore (Analytics.toAnalytics i fw)
          == scoreOfNode (worker fw)).
Proof.
  repeat split; try (vm_compute; reflexivity).
  intros H; specialize (H 0%nat _ eq_refl); vm_compute in H; discriminate.
Qed.

(** C3, as amended: the score of a node that [getWorkersByPerformance]
    classifies is (verificationRate + dataCompleteness + activityScore +
    registrationScore) / 4, with activityScore 100 for an active node and 0
    otherwise and registrationScore min(registeredCount * 10, 100).  The
    ranking pass of [getWorkerAnalytics] sorts by another score,
    (verificationRate + dataCompleteness + 2 * registeredCount) / 4. *)
Theorem composite_score_governs_bands_only :
  (forall w, calculateOverallPerformanceScore w == scoreOfNode w)
  /\ (forall lvl data fw,
        In fw (byPerformanceIn lvl data)
        <-> In fw (flattenHierarchy data)
            /\ inBand lvl (scoreOfNode (worker fw)) = true)
  /\ (forall a,
        Analytics.calculateWorkerScore a
        == (Analytics.tasaVerificacion a + Analytics.completitudDatos a
            + 2 * Num.ofNat (Analytics.ciudadanosRegistrados a)) / 4)
  /\ (forall flat,
        StronglySorted rankedBefore (Analytics.rankWorkers flat)).
Proof.
  split; [exact overall_score_is_composite|].
  split.
  - intros lvl data fw; rewrite byPerformance_spec.
    now rewrite (inBand_comp lvl _ _ (overall_score_is_composite (worker fw))).
  - split.
    + intros a; unfold Analytics.calculateWorkerScore.
      apply Qmult_comp; [ring | reflexivity].
    + exact RankingFacts.rankWorkers_sorted.
Qed.










End ScoreFacts.

(** ** Strings *)

Module StringFacts.

Import JsString.

(** Nothing is left by [trimEnd] exactly of the blank strings. *)
Lemma isEmpty_trimEnd s : isEmpty (trimEnd s) = isBlank s.
Proof.
  destruct s as [|c s]; [reflexivity|].
  cbn [trimEnd]; destruct (isBlank (String c s)); reflexivity.
Qed.

(** Dropping the leading white space keeps a string blank or not blank. *)
Lemma isBlank_trimStart_upto n :
  forall s, String.length s <= n -> isBlank (trimStart s) = isBlank s.
Proof.
  induction n as [|n IH]; intros s Hlen.
  - destruct s; [reflexivity | simpl in Hlen; lia].
  - destruct s as [|c s1]; [reflexivity|].
    simpl in Hlen.
    cbn [trimStart isBlank].
    destruct (isWhitespace c) eqn:E1; [apply IH; lia|].
    destruct s1 as [|d s2]; [cbn [isBlank]; now rewrite E1|].
    simpl in Hlen.
    destruct (isWhitespace2 c d) eqn:E2; [apply IH; lia|].
    destruct s2 as [|e s3]; [cbn [isBlank]; now rewrite E1, E2|].
    simpl in Hlen.
    destruct (isWhitespace3 c d e) eqn:E3; [apply IH; lia|].
    cbn [isBlank]; now rewrite E1, E2, E3.
Qed.

Lemma isBlank_trimStart s : isBlank (trimStart s) = isBlank s.
Proof. now apply (isBlank_trimStart_upto (String.length s)). Qed.

(** After [trim] nothing is left exactly of the blank strings. *)
Lemma trim_empty_iff_blank s : isEmpty (trim s) = isBlank s.
Proof.
  unfold trim; now rewrite isEmpty_trimEnd, isBlank_trimStart.
Qed.







End StringFacts.

(** ** Data completeness *)

Module CompletenessFacts.

Import Hierarchy Spec Samples.

Lemma fieldCompleted_populated v : fieldCompleted v = populated v.
Proof.
  destruct v as [s|]; [|reflexivity].
  unfold fieldCompleted, populated.
  rewrite StringFacts.trim_empty_iff_blank.
  destruct s; reflexivity.
Qed.

Lemma length_filter_cons {A} (p : A -> bool) x l :
  length (filter p (x :: l)) = b2n (p x) + length (filter p l).
Proof. simpl; destruct (p x); reflexivity. Qed.

Lemma completedFields_populatedCount w :
  completedFields w = populatedCount w.
Proof.
  unfold completedFields, fields, populatedCount.
  rewrite !length_filter_cons, !fieldCompleted_populated; simpl; lia.
Qed.

Lemma b2n_le_1 b : b2n b <= 1.
Proof. destruct b; simpl; lia. Qed.

Lemma populatedCount_le_10 w : populatedCount w <= 10.
Proof.
  unfold populatedCount.
  repeat match goal with
         | |- context [b2n ?b] =>
             let H := fresh in
             pose proof (b2n_le_1 b) as H;
             let n := fresh "n" in set (n := b2n b) in *; clearbody n
         end.
  lia.
Qed.

(** The value for each count of populated fields. *)
Lemma completeness_of_count (k : nat) :
  k <= 10 ->
  let q := (Num.ofNat k / Num.ofNat 10 * 100)%Q in
  (q == 100 * Num.ofNat k / 10)%Q
  /\ (0 <= q)%Q /\ (q <= 100)%Q
  /\ (k = 10 -> Qred q = 100%Q)
  /\ (k = 0 -> Qred q = 0%Q)
  /\ Num.b64_mul (Num.b64_div (Num.b64 k) (Num.b64 10)) (Num.b64 100)
     = Num.b64 (10 * k).
Proof.
  intros Hk.
  do 11 (destruct k as [|k];
         [ vm_compute; repeat split; congruence |]).
  lia.
Qed.

(** C7.  [calculateDataCompleteness] is 100 * (number of the ten fixed
    fields that are present and not blank after trimming) / 10; it lies
    between 0 and 100, is exactly 100 when the ten fields are populated and
    exactly 0 when none is.  The binary64 evaluation of the expression of
    the source gives the same number, without rounding. *)
Theorem data_completeness (w : Db.WorkerRow) :
  (calculateDataCompleteness w
   == 100 * Num.ofNat (populatedCount w) / 10)%Q
  /\ (0 <= calculateDataCompleteness w)%Q
  /\ (calculateDataCompleteness w <= 100)%Q
  /\ (populatedCount w = 10 -> Qred (calculateDataCompleteness w) = 100%Q)
  /\ (populatedCount w = 0 -> Qred (calculateDataCompleteness w) = 0%Q)
  /\ calculateDataCompleteness_b64 w = Num.b64 (10 * populatedCount w).
Proof.
  unfold calculateDataCompleteness, calculateDataCompleteness_b64.
  rewrite completedFields_populatedCount.
  change (length fields) with 10.
  exact (completeness_of_count (populatedCount w) (populatedCount_le_10 w)).
Qed.

(** The two boundary cases of C7 on sample rows. *)
Lemma data_completeness_witness :
  Qred (calculateDataCompleteness fullRow) = 100%Q
  /\ Qred (calculateDataCompleteness blankRow) = 0%Q.
Proof.
  split.
  - apply (data_completeness fullRow); reflexivity.
  - apply (data_completeness blankRow); reflexivity.
Defined.

End CompletenessFacts.

(** ** Search *)

Module SearchFacts.

Import Hierarchy Service Errors Spec Samples.







(** C5, on the sample tree: the one node has ["640"] in its postal code,
    so it matches by name or location, and [searchWorkers] returns no
    node; a term found in another location field returns the node. *)
Theorem postal_code_is_not_searched :
  let tree := transformToHierarchicalWorkers 0 postalRows in
  map (fun fw => matchesNameOrLocation "640" (worker fw))
      (flattenHierarchy tree) = [true]
  /\ fst (searchWorkers "640" None (world 0 postalRows) []) = Ok []
  /\ fst (searchWorkers "CENTRO" None (world 0 postalRows) [])
     = Ok (flattenHierarchy tree).
Proof. repeat split; vm_compute; reflexivity. Qed.

End SearchFacts.

(** ** The cache *)

Module CacheFacts.

Import Cache.

Section Store.

Context {T : Type}.
Implicit Types (cache : Store T) (key k : string) (e : Entry T).

Lemma get_delete key cache : get key (delete key cache) = None.
Proof.
  induction cache as [|[k e] cache IH]; simpl; [reflexivity|].
  destruct (String.eqb k key) eqn:E; [exact IH|].
  simpl; now rewrite E.
Qed.

Lemma get_delete_other k key cache :
  k <> key -> get key (delete k cache) = get key cache.
Proof.
  intros Hk; induction cache as [|[k' e] cache IH]; simpl; [reflexivity|].
  destruct (String.eqb k' k) eqn:E.
  - apply String.eqb_eq in E; subst k'.
    apply String.eqb_neq in Hk; now rewrite Hk.
  - simpl; now rewrite IH.
Qed.

Lemma get_set key e cache : get key (set key e cache) = Some e.
Proof.
  induction cache as [|[k e'] cache IH]; simpl.
  - now rewrite String.eqb_refl.
  - destruct (String.eqb k key) eqn:E; simpl; now rewrite E.
Qed.

(** Writing grows the map by one entry at most, and only by a new key,
    which goes last. *)
Lemma set_cases key e cache :
  size (set key e cache) = size cache
  \/ (get key cache = None /\ set key e cache = cache ++ [(key, e)]).
Proof.
  induction cache as [|[k e'] cache IH]; simpl.
  - right; split; reflexivity.
  - destruct (String.eqb k key) eqn:E.
    + left; reflexivity.
    + destruct IH as [IH | [IH1 IH2]].
      * left; unfold size in *; simpl; congruence.
      * right; split; [assumption | now rewrite IH2].
Qed.

Lemma oldestKey_absent key cache k :
  get key cache = None -> oldestKey cache = Some k -> k <> key.
Proof.
  destruct cache as [|[k' e] cache]; simpl; [discriminate|].
  intros Hg Hk; injection Hk as ->.
  destruct (String.eqb k key) eqn:E; [discriminate|].
  now apply String.eqb_neq.
Qed.

(** In a map within the capacity bound the value just written is there to
    be read: the eviction takes another key. *)
Lemma get_setCache key (value : T) t cache :
  size cache <= 100 ->
  get key (setCache key value t cache)
  = Some {| data := value; timestamp := t |}.
Proof.
  intros Hsize; unfold setCache.
  set (e := {| data := value; timestamp := t |}).
  destruct (100 <? size (set key e cache)) eqn:Hfull;
    [|apply get_set].
  apply Nat.ltb_lt in Hfull.
  destruct (set_cases key e cache) as [H | [Hnone Happ]]; [lia|].
  destruct (oldestKey (set key e cache)) as [k|] eqn:Hold;
    [|apply get_set].
  destruct (JsString.isEmpty k); [apply get_set|].
  rewrite get_delete_other; [apply get_set|].
  destruct cache as [|[k' e'] cache].
  - rewrite Happ in Hfull; simpl in Hfull; lia.
  - apply (oldestKey_absent key ((k', e') :: cache)); [assumption|].
    rewrite Happ in Hold; simpl in Hold; simpl; exact Hold.
Qed.

Lemma getFromCache_fresh TTL key now cache e :
  get key cache = Some e ->
  (now - timestamp e <= TTL)%Z ->
  getFromCache TTL key now cache = (Some (data e), cache).
Proof.
  intros Hget Hfresh; unfold getFromCache; rewrite Hget.
  destruct (Z.ltb_spec TTL (now - timestamp e)); [lia | reflexivity].
Qed.

Lemma getFromCache_stale TTL key now cache e :
  get key cache = Some e ->
  (now - timestamp e > TTL)%Z ->
  getFromCache TTL key now cache = (None, delete key cache).
Proof.
  intros Hget Hstale; unfold getFromCache; rewrite Hget.
  destruct (Z.ltb_spec TTL (now - timestamp e)); [reflexivity | lia].
Qed.

Lemma getFromCache_absent TTL key now cache :
  get key cache = None ->
  getFromCache TTL key now cache = (None, cache).
Proof. intros Hget; unfold getFromCache; now rewrite Hget. Qed.

(** The entry of a key right after a write of that key: the one written,
    unless the write evicted it at once. *)
Lemma get_setCache_cases key (value : T) t cache :
  get key (setCache key value t cache)
  = Some {| data := value; timestamp := t |}
  \/ get key (setCache key value t cache) = None.
Proof.
  unfold setCache.
  set (e := {| data := value; timestamp := t |}).
  destruct (100 <? size (set key e cache)); [|left; apply get_set].
  destruct (oldestKey (set key e cache)) as [k|];
    [|left; apply get_set].
  destruct (JsString.isEmpty k); [left; apply get_set|].
  destruct (String.eqb_spec k key) as [-> | Hk].
  - right; apply get_delete.
  - left; rewrite get_delete_other; [apply get_set | exact Hk].
Qed.

(** C8.  A read at time [now] of a key stored at [timestamp e] returns
    the stored value and leaves the cache as it is when [now - timestamp
    e <= TTL]; when [now - timestamp e > TTL] it returns nothing and
    deletes the entry.  A value written at time [t] is returned by a read
    at [t + TTL] (in a cache within its capacity) and is absent and
    removed at a read at [t + TTL + 1]. *)
Theorem cached_value_expires_after_ttl (TTL : Z) key (value : T)
    (t now : Z) cache :
  (forall e, get key cache = Some e ->
      ((now - timestamp e <= TTL)%Z ->
         getFromCache TTL key now cache = (Some (data e), cache))
      /\ ((now - timestamp e > TTL)%Z ->
            getFromCache TTL key now cache = (None, delete key cache)
            /\ get key (delete key cache) = None))
  /\ (size cache <= 100 ->
      getFromCache TTL key (t + TTL) (setCache key value t cache)
      = (Some value, setCache key value t cache))
  /\ fst (getFromCache TTL key (t + TTL + 1)
            (setCache key value t cache)) = None
  /\ get key (snd (getFromCache TTL key (t + TTL + 1)
                    (setCache key value t cache))) = None.
Proof.
  split; [|split].
  - intros e Hget; split; intros Hage.
    + exact (getFromCache_fresh TTL key now cache e Hget Hage).
    + split; [|apply get_delete].
      exact (getFromCache_stale TTL key now cache e Hget Hage).
  - intros Hsize.
    rewrite (getFromCache_fresh TTL key (t + TTL) _ _
               (get_setCache key value t cache Hsize));
      [reflexivity | simpl; lia].
  - destruct (get_setCache_cases key value t cache) as [H | H].
    + rewrite (getFromCache_stale TTL key (t + TTL + 1) _ _ H);
        [|simpl; lia].
      split; [reflexivity | apply get_delete].
    + rewrite (getFromCache_absent TTL key (t + TTL + 1) _ H).
      split; [reflexivity | exact H].
Qed.

End Store.

(** C8 on a sample cache: the value stored at time 0 is read at the age of
    the TTL and is gone one millisecond later. *)
Lemma cached_value_expires_witness :
  getFromCache Service.CACHE_TTL "k" 300000 Samples.smallCache
  = (Some 7, Samples.smallCache)
  /\ getFromCache Service.CACHE_TTL "k" 300001 Samples.smallCache
     = (None, [])
  /\ getFromCache Service.CACHE_TTL "k" 300000 (setCache "k" 7 0 [])
     = (Some 7, Samples.smallCache).
Proof.
  pose proof (cached_value_expires_after_ttl Service.CACHE_TTL "k" 7 0
                300000 Samples.smallCache) as (Hfresh & _).
  pose proof (cached_value_expires_after_ttl Service.CACHE_TTL "k" 7 0
                300001 Samples.smallCache) as (Hstale & _).
  pose proof (cached_value_expires_after_ttl Service.CACHE_TTL "k" 7 0
                0 []) as (_ & Hwritten & _).
  split; [|split].
  - apply (Hfresh {| data := 7; timestamp := 0 |} eq_refl).
    vm_compute; discriminate.
  - apply (Hstale {| data := 7; timestamp := 0 |} eq_refl).
    vm_compute; reflexivity.
  - apply Hwritten; simpl; lia.
Defined.

End CacheFacts.

(** ** The division of binary64 *)

Module RoundingFacts.

Import Notions.
Local Open Scope Z_scope.

























End RoundingFacts.

(** ** Statistics *)

Module StatsFacts.

Import Hierarchy Service Spec Samples.

(** The four counters of the running totals. *)
Ltac split_counts := repeat split; simpl; try lia.

Lemma visit_movilizadores movs t :
  let t' := fold_left visitMovilizador movs t in
  t_lideres t' = t_lideres t
  /\ t_brigadistas t' = t_brigadistas t
  /\ t_movilizadores t' = t_movilizadores t + length movs
  /\ t_ciudadanos t'
     = t_ciudadanos t + list_sum (map ciudadanosRegistrados movs).
Proof.
  revert t; induction movs as [|m movs IH]; intros t; cbn [fold_left].
  - split_counts.
  - destruct (IH (visitMovilizador t m)) as (H1 & H2 & H3 & H4).
    cbv zeta in *; rewrite H1, H2, H3, H4; split_counts.
Qed.

Lemma visit_brigadista t brig :
  let t' := visitBrigadista t brig in
  t_lideres t' = t_lideres t
  /\ t_brigadistas t' = S (t_brigadistas t)
  /\ t_movilizadores t' = t_movilizadores t + length (children brig)
  /\ t_ciudadanos t'
     = t_ciudadanos t
       + list_sum (map ciudadanosRegistrados (children brig)).
Proof.
  unfold visitBrigadista.
  match goal with
  | |- context [fold_left visitMovilizador ?l ?t0] =>
      destruct (visit_movilizadores l t0) as (H1 & H2 & H3 & H4)
  end.
  cbv zeta in *; rewrite H1, H2, H3, H4; split_counts.
Qed.

Lemma visit_brigadistas brigs t :
  let t' := fold_left visitBrigadista brigs t in
  t_lideres t' = t_lideres t
  /\ t_brigadistas t' = t_brigadistas t + length brigs
  /\ t_movilizadores t'
     = t_movilizadores t + length (flat_map children brigs)
  /\ t_ciudadanos t'
     = t_ciudadanos t
       + list_sum (map ciudadanosRegistrados (flat_map children brigs)).
Proof.
  revert t; induction brigs as [|b brigs IH]; intros t; cbn [fold_left].
  - split_counts.
  - destruct (IH (visitBrigadista t b)) as (H1 & H2 & H3 & H4).
    destruct (visit_brigadista t b) as (B1 & B2 & B3 & B4).
    cbv zeta in *; rewrite H1, H2, H3, H4, B1, B2, B3, B4.
    cbn [flat_map]; rewrite length_app, map_app, list_sum_app.
    split_counts.
Qed.

Lemma visit_lider t lid :
  let t' := visitLider t lid in
  t_lideres t' = S (t_lideres t)
  /\ t_brigadistas t' = t_brigadistas t + length (children lid)
  /\ t_movilizadores t'
     = t_movilizadores t + length (flat_map children (children lid))
  /\ t_ciudadanos t'
     = t_ciudadanos t
       + list_sum (map ciudadanosRegistrados
                       (flat_map children (children lid))).
Proof.
  unfold visitLider.
  match goal with
  | |- context [fold_left visitBrigadista ?l ?t0] =>
      destruct (visit_brigadistas l t0) as (H1 & H2 & H3 & H4)
  end.
  cbv zeta in *; rewrite H1, H2, H3, H4; split_counts.
Qed.

Lemma visit_lideres data t :
  let t' := fold_left visitLider data t in
  t_lideres t' = t_lideres t + length data
  /\ t_brigadistas t' = t_brigadistas t + length (level2 data)
  /\ t_movilizadores t' = t_movilizadores t + length (level3 data)
  /\ t_ciudadanos t' = t_ciudadanos t + totalLeaves data.
Proof.
  unfold totalLeaves, level3, level2.
  revert t; induction data as [|l data IH]; intros t; cbn [fold_left].
  - split_counts.
  - destruct (IH (visitLider t l)) as (H1 & H2 & H3 & H4).
    destruct (visit_lider t l) as (L1 & L2 & L3 & L4).
    cbv zeta in *; rewrite H1, H2, H3, H4, L1, L2, L3, L4.
    cbn [flat_map].
    rewrite flat_map_app, !length_app, map_app, list_sum_app.
    split_counts.
Qed.






End StatsFacts.

(** ** Rankings of the workers the service returns *)

Module UnrankedFacts.

Import Hierarchy Service Errors Spec Samples.

(** *** Flattening and subtrees *)

Lemma flattenWorker_subtree w :
  forall lvl, map worker (flattenWorker lvl w) = subtree w.
Proof.
  induction w as [w IH] using worker_ind'; intros lvl.
  destruct w as [i n r c u ch p pa a la]; cbn [children] in IH.
  cbn [flattenWorker subtree map worker]; f_equal.
  induction IH as [|x ch Hx _ IHch]; cbn [flat_map].
  - reflexivity.
  - now rewrite map_app, Hx, IHch.
Qed.

Lemma subtree_descendant w :
  forall x, In x (subtree w) -> incl (subtree x) (subtree w).
Proof.
  induction w as [w IH] using worker_ind'; intros x Hx.
  destruct w as [i n r c u ch p pa a la]; cbn [children] in IH.
  cbn [subtree] in Hx |- *.
  destruct Hx as [<- | Hx]; [apply incl_refl|].
  apply in_flat_map in Hx; destruct Hx as (child & Hchild & Hx).
  rewrite Forall_forall in IH.
  intros y Hy; right; apply in_flat_map; exists child; split; [assumption|].
  exact (IH child Hchild x Hx y Hy).
Qed.

Lemma neverRanked_descendant w x :
  neverRanked w -> In x (subtree w) -> neverRanked x.
Proof.
  unfold neverRanked; rewrite !Forall_forall; intros Hw Hx y Hy.
  apply Hw; exact (subtree_descendant w x Hx y Hy).
Qed.

Lemma flattened_neverRanked tree :
  Forall neverRanked tree ->
  Forall (fun fw => neverRanked (worker fw)) (flattenHierarchy tree).
Proof.
  intros Htree; apply Forall_forall; intros fw Hfw.
  unfold flattenHierarchy, flatten in Hfw.
  apply in_flat_map in Hfw; destruct Hfw as (root & Hroot & Hfw).
  rewrite Forall_forall in Htree.
  apply (neverRanked_descendant root); [now apply Htree|].
  rewrite <- (flattenWorker_subtree root 0); now apply in_map.
Qed.

(** *** The builder leaves every ranking at 0 *)

Lemma movilizador_neverRanked now parent src :
  neverRanked (transformMovilizadorToHierarchicalWorker now src parent).
Proof. repeat constructor. Qed.

Lemma brigadista_neverRanked now parent src :
  neverRanked (transformBrigadistaToHierarchicalWorker now src parent).
Proof.
  constructor; [reflexivity|].
  apply Forall_flat_map, Forall_map, Forall_forall.
  intros m _; apply movilizador_neverRanked.
Qed.

Lemma lider_neverRanked now src :
  neverRanked (transformLiderToHierarchicalWorker now src).
Proof.
  constructor; [reflexivity|].
  apply Forall_flat_map, Forall_map, Forall_forall.
  intros b _; apply brigadista_neverRanked.
Qed.

Lemma built_neverRanked now rows :
  Forall neverRanked (transformToHierarchicalWorkers now rows).
Proof.
  apply Forall_map, Forall_forall; intros l _; apply lider_neverRanked.
Qed.

(** *** The cache holds unranked trees only *)

Lemma unranked_get key cache e :
  unrankedEntries cache -> Cache.get key cache = Some e ->
  Forall neverRanked (Cache.data e).
Proof.
  induction 1 as [|[k e'] cache He _ IH]; simpl; [discriminate|].
  destruct (String.eqb k key); [|exact IH].
  intros H; injection H as <-; exact He.
Qed.

Lemma unranked_delete key cache :
  unrankedEntries cache -> unrankedEntries (Cache.delete key cache).
Proof.
  induction 1 as [|[k e] cache He _ IH]; simpl; [constructor|].
  destruct (String.eqb k key); [exact IH | now constructor].
Qed.

Lemma unranked_set key e cache :
  Forall neverRanked (Cache.data e) ->
  unrankedEntries cache -> unrankedEntries (Cache.set key e cache).
Proof.
  intros He; induction 1 as [|[k e'] cache He' Hc IH]; simpl.
  - repeat constructor; exact He.
  - destruct (String.eqb k key); constructor; assumption.
Qed.

Lemma unranked_setCache key tree t cache :
  Forall neverRanked tree ->
  unrankedEntries cache -> unrankedEntries (Cache.setCache key tree t cache).
Proof.
  intros Htree Hc; unfold Cache.setCache.
  assert (H : unrankedEntries
                (Cache.set key {| Cache.data := tree; Cache.timestamp := t |}
                           cache))
    by now apply unranked_set.
  destruct (100 <? _); [|exact H].
  destruct (Cache.oldestKey _) as [k|]; [|exact H].
  destruct (JsString.isEmpty k); [exact H | now apply unranked_delete].
Qed.

Lemma unranked_getFromCache TTL key t cache :
  unrankedEntries cache ->
  unrankedEntries (snd (Cache.getFromCache TTL key t cache))
  /\ forall tree, fst (Cache.getFromCache TTL key t cache) = Some tree ->
                  Forall neverRanked tree.
Proof.
  intros Hc; unfold Cache.getFromCache.
  destruct (Cache.get key cache) as [e|] eqn:Hget; simpl.
  - destruct (TTL <? t - Cache.timestamp e)%Z; simpl.
    + split; [now apply unranked_delete | discriminate].
    + split; [exact Hc|].
      intros tree H; injection H as <-; exact (unranked_get _ _ _ Hc Hget).
  - split; [exact Hc | discriminate].
Qed.

Lemma reachable_unranked cache : reachable cache -> unrankedEntries cache.
Proof.
  induction 1 as [| filters t cache _ IH | filters rows t cache _ IH
                  | cache _ IH].
  - constructor.
  - now apply unranked_getFromCache.
  - apply unranked_setCache; [apply built_neverRanked | exact IH].
  - constructor.
Qed.

(** *** The public operations *)

Lemma fetchAndBuild_unranked key env cache :
  unrankedEntries cache ->
  unrankedEntries (snd (fetchAndBuild key env cache))
  /\ forall tree, fst (fetchAndBuild key env cache) = Ok tree ->
                  Forall neverRanked tree.
Proof.
  intros Hc; unfold fetchAndBuild.
  destruct (gateway env) as [[[rows|] [message|]] | e]; simpl;
    try (split; [exact Hc | discriminate]).
  split.
  - apply unranked_setCache; [apply built_neverRanked | exact Hc].
  - intros tree H; injection H as <-; apply built_neverRanked.
Qed.

Lemma getHierarchicalData_unranked filters env cache :
  unrankedEntries cache ->
  forall tree, fst (getHierarchicalData filters env cache) = Ok tree ->
               Forall neverRanked tree.
Proof.
  intros Hc tree; unfold getHierarchicalData.
  destruct (unranked_getFromCache CACHE_TTL
              (generateCacheKey "hierarchical-data" filters) (now env)
              cache Hc) as [Hc1 Hread].
  destruct (Cache.getFromCache _ _ _ _) as [[cached|] cache1]; simpl in *.
  - intros H; injection H as <-; now apply Hread.
  - destruct (fetchAndBuild_unranked
                (generateCacheKey "hierarchical-data" filters) env cache1
                Hc1) as [_ Hbuilt].
    destruct (fetchAndBuild _ _ _) as [[built | e] cache2]; simpl in *.
    + intros H; injection H as <-; now apply Hbuilt.
    + discriminate.
Qed.

Lemma getHierarchicalData_reachable filters env cache :
  reachable cache -> reachable (snd (getHierarchicalData filters env cache)).
Proof.
  intros Hc; unfold getHierarchicalData.
  pose proof (reach_read filters (now env) cache Hc) as Hread.
  destruct (Cache.getFromCache _ _ _ _) as [[cached|] cache1]; simpl in *;
    [exact Hread|].
  unfold fetchAndBuild.
  destruct (gateway env) as [[[rows|] [message|]] | e]; simpl;
    try exact Hread.
  now apply reach_write.
Qed.

Lemma rethrow_ok {A} handler (r : Result A) a :
  rethrow handler r = Ok a -> r = Ok a.
Proof. destruct r; simpl; [auto | discriminate]. Qed.

Lemma bind_ok {A B} (r : Result A) (k : A -> Result B) b :
  bind r k = Ok b -> exists a, r = Ok a /\ k a = Ok b.
Proof. destruct r as [a|e]; simpl; [eauto | discriminate]. Qed.

Lemma filterThrowing_incl {A} (p : A -> Result bool) l l' :
  filterThrowing p l = Ok l' -> incl l' l.
Proof.
  revert l'; induction l as [|x l IH]; intros l'; simpl.
  - intros H; injection H as <-; apply incl_refl.
  - destruct (p x) as [keep|]; [|discriminate]; simpl.
    destruct (filterThrowing p l) as [rest|]; [|discriminate]; simpl.
    intros H; injection H as <-.
    specialize (IH rest eq_refl).
    destruct keep.
    + intros y [<- | Hy]; [now left | right; now apply IH].
    + now apply incl_tl.
Qed.

(** What an operation built on [getHierarchicalData] returns is a part of
    the flattening of a tree that [getHierarchicalData] returned. *)
Lemma derived_unranked filters env cache (body : _ -> Result _) handler flat :
  unrankedEntries cache ->
  (forall tree out, body tree = Ok out -> incl out (flattenHierarchy tree)) ->
  rethrow handler
    (bind (fst (getHierarchicalData filters env cache)) body) = Ok flat ->
  Forall (fun fw => neverRanked (worker fw)) flat.
Proof.
  intros Hc Hbody H.
  apply rethrow_ok, bind_ok in H; destruct H as (tree & Htree & Hout).
  apply (incl_Forall (Hbody tree flat Hout)).
  apply flattened_neverRanked.
  exact (getHierarchicalData_unranked filters env cache Hc tree Htree).
Qed.

(** C10.  In every state the service can be in, the workers returned by
    [getHierarchicalData], [getFlattenedHierarchy], [searchWorkers] and
    [getWorkersByPerformance], and all their descendants, have
    [performance.ranking] 0; the state after the call is again one the
    service can be in. *)
Theorem service_never_ranks filters env cache :
  reachable cache ->
  (forall tree,
      fst (getHierarchicalData filters env cache) = Ok tree ->
      Forall neverRanked tree)
  /\ (forall flat,
        fst (getFlattenedHierarchy filters env cache) = Ok flat ->
        Forall (fun fw => neverRanked (worker fw)) flat)
  /\ (forall term flat,
        fst (searchWorkers term filters env cache) = Ok flat ->
        Forall (fun fw => neverRanked (worker fw)) flat)
  /\ (forall lvl flat,
        fst (getWorkersByPerformance lvl filters env cache) = Ok flat ->
        Forall (fun fw => neverRanked (worker fw)) flat)
  /\ reachable (snd (getHierarchicalData filters env cache)).
Proof.
  intros Hreach.
  pose proof (reachable_unranked cache Hreach) as Hc.
  split; [exact (getHierarchicalData_unranked filters env cache Hc)|].
  split; [|split; [|split]].
  - intros flat; unfold getFlattenedHierarchy.
    destruct (getHierarchicalData filters env cache) as [r cache1] eqn:E.
    replace r with (fst (getHierarchicalData filters env cache))
      by now rewrite E.
    apply derived_unranked; [exact Hc|].
    intros tree out H; injection H as <-; apply incl_refl.
  - intros term flat; unfold searchWorkers.
    destruct (getHierarchicalData filters env cache) as [r cache1] eqn:E.
    replace r with (fst (getHierarchicalData filters env cache))
      by now rewrite E.
    apply derived_unranked; [exact Hc|].
    intros tree out; apply filterThrowing_incl.
  - intros lvl flat; unfold getWorkersByPerformance.
    destruct (getHierarchicalData filters env cache) as [r cache1] eqn:E.
    replace r with (fst (getHierarchicalData filters env cache))
      by now rewrite E.
    apply derived_unranked; [exact Hc|].
    intros tree out H; injection H as <-; apply incl_filter.
  - now apply getHierarchicalData_reachable.
Qed.

(** C10 on the sample tree, fetched into the empty cache. *)
Lemma service_never_ranks_witness :
  let tree := transformToHierarchicalWorkers 0 scenarioRows in
  Forall neverRanked tree
  /\ Forall (fun fw => neverRanked (worker fw)) (flattenHierarchy tree).
Proof.
  destruct (service_never_ranks None (world 0 scenarioRows) []
              reach_initial) as (Htree & Hflat & _).
  split; [apply Htree | apply Hflat]; reflexivity.
Defined.

End UnrankedFacts.

(** ** Look-ups in the tree *)

Module TreeFacts.

Import Hierarchy Spec Notions TreeQueries.

Lemma find_app {A} (p : A -> bool) l1 l2 :
  find p (l1 ++ l2)
  = match find p l1 with Some x => Some x | None => find p l2 end.
Proof.
  induction l1 as [|x l1 IH]; simpl; [reflexivity|].
  destruct (p x); [reflexivity | exact IH].
Qed.

Lemma firstSome_find {A B} (f : A -> option B) (g : A -> list B)
    (p : B -> bool) l :
  Forall (fun x => f x = find p (g x)) l ->
  firstSome f l = find p (flat_map g l).
Proof.
  induction 1 as [|x l Hx _ IH]; simpl; [reflexivity|].
  rewrite find_app, Hx, IH; reflexivity.
Qed.

Lemma findWorker_find target w :
  findWorker target w = find (idIs target) (subtree w).
Proof.
  induction w as [w IH] using worker_ind'.
  destruct w as [i n r c u ch p pa a la]; cbn [children] in IH.
  cbn [findWorker subtree find].
  destruct (idIs target _); [reflexivity|].
  now apply firstSome_find.
Qed.

Lemma preorder_flatten data :
  map Service.worker (Service.flattenHierarchy data) = preorder data.
Proof.
  unfold Service.flattenHierarchy, Service.flatten, preorder.
  induction data as [|w data IH]; simpl; [reflexivity|].
  now rewrite map_app, UnrankedFacts.flattenWorker_subtree, IH.
Qed.

Lemma getWorkerById_find data target :
  getWorkerById data target = find (idIs target) (preorder data).
Proof.
  unfold getWorkerById, preorder; apply firstSome_find, Forall_forall.
  intros w _; apply findWorker_find.
Qed.

(** The worker found is the first one, in the order of the flattened
    hierarchy, with the identifier; nothing is found exactly when no node of
    the tree has it. *)
Theorem getWorkerById_first_in_preorder data target :
  getWorkerById data target
  = find (idIs target) (map Service.worker (Service.flattenHierarchy data))
  /\ (getWorkerById data target = None
      <-> Forall (fun w => id w <> Some target) (preorder data)).
Proof.
  rewrite preorder_flatten, getWorkerById_find; split; [reflexivity|].
  rewrite Forall_forall; split.
  - intros Hnone w Hw Hid.
    apply (find_none _ _ Hnone) in Hw.
    unfold idIs in Hw; rewrite Hid, String.eqb_refl in Hw; discriminate.
  - intros Hall; destruct (find _ _) as [w|] eqn:E; [|reflexivity].
    apply find_some in E; destruct E as [Hin Hid].
    exfalso; apply (Hall w Hin).
    unfold idIs in Hid; destruct (id w) as [i|]; [|discriminate].
    apply String.eqb_eq in Hid; now subst.
Qed.

(** *** The path to a worker *)

Lemma findPath_each target ch path :
  (fix each (l : list HierarchicalWorker) (p : list HierarchicalWorker)
     : bool * list HierarchicalWorker :=
     match l with
     | [] => (false, p)
     | c :: l' =>
         let (found, p') := findPath target c p in
         if found then (true, p') else each l' p'
     end) ch path
  = findPathIn target ch path.
Proof.
  revert path; induction ch as [|c ch IH]; intros path; simpl.
  - reflexivity.
  - destruct (findPath target c path) as [[|] p']; [reflexivity | apply IH].
Qed.

Lemma findPath_cons target w path :
  findPath target w path
  = if idIs target w then (true, path ++ [w])
    else let descend := findPathIn target (children w) (path ++ [w]) in
         if fst descend then (true, snd descend)
         else (false, removelast (snd descend)).
Proof.
  destruct w as [i n r c u ch p pa a la]; cbn [findPath children].
  destruct (idIs target _); [reflexivity|].
  now rewrite findPath_each.
Qed.

Lemma pathTo_cons target w :
  pathTo target w
  = if idIs target w then Some [w]
    else match firstSome (pathTo target) (children w) with
         | Some p => Some (w :: p)
         | None => None
         end.
Proof. destruct w; reflexivity. Qed.

(** What the loop over a list of workers does to the array, given what one
    iteration does. *)
Lemma findPathIn_pathTo target l :
  Forall (fun w => forall path,
              findPath target w path
              = match pathTo target w with
                | Some p => (true, path ++ p)
                | None => (false, path)
                end) l ->
  forall path,
    findPathIn target l path
    = match firstSome (pathTo target) l with
      | Some p => (true, path ++ p)
      | None => (false, path)
      end.
Proof.
  induction 1 as [|w l Hw _ IH]; intros path; simpl; [reflexivity|].
  rewrite Hw; destruct (pathTo target w); [reflexivity | apply IH].
Qed.

(** The array after [findPath] is the array before it, extended by the way
    down to the target when there is one: a failed search pops all it
    pushed. *)
Lemma findPath_pathTo target w :
  forall path,
    findPath target w path
    = match pathTo target w with
      | Some p => (true, path ++ p)
      | None => (false, path)
      end.
Proof.
  induction w as [w IH] using worker_ind'; intros path.
  rewrite findPath_cons, pathTo_cons.
  destruct (idIs target w); [reflexivity|].
  cbv zeta; rewrite (findPathIn_pathTo target (children w) IH).
  destruct (firstSome (pathTo target) (children w)) as [p|]; simpl.
  - now rewrite <- app_assoc.
  - now rewrite removelast_last.
Qed.

Lemma getWorkerPath_pathTo data target :
  getWorkerPath data target
  = match firstSome (pathTo target) data with
    | Some p => p
    | None => []
    end.
Proof.
  unfold getWorkerPath.
  rewrite (findPathIn_pathTo target data).
  - destruct (firstSome _ _); reflexivity.
  - apply Forall_forall; intros w _; apply findPath_pathTo.
Qed.

Lemma firstSome_some {A B} (f : A -> option B) l y :
  firstSome f l = Some y -> exists x, In x l /\ f x = Some y.
Proof.
  induction l as [|x l IH]; simpl; [discriminate|].
  destruct (f x) as [y'|] eqn:E.
  - intros H; injection H as <-; exists x; auto.
  - intros H; destruct (IH H) as (x' & Hin & Hx'); exists x'; auto.
Qed.

Lemma firstSome_none {A B} (f : A -> option B) l :
  firstSome f l = None <-> forall x, In x l -> f x = None.
Proof.
  induction l as [|x l IH]; simpl.
  - split; [intros _ x [] | reflexivity].
  - destruct (f x) as [y|] eqn:E.
    + split; [discriminate|].
      intros H; specialize (H x (or_introl eq_refl)); congruence.
    + rewrite IH; split.
      * intros H x' [<- | Hx']; auto.
      * intros H x' Hx'; apply H; now right.
Qed.

Lemma last_cons_default {A} (x : A) l d d' :
  last (x :: l) d = last (x :: l) d'.
Proof.
  revert x; induction l as [|y l IH]; intros x; [reflexivity|].
  change (last (y :: l) d = last (y :: l) d'); apply IH.
Qed.

Lemma pathTo_among target l :
  Forall (leadsFrom target) l ->
  match firstSome (pathTo target) l with
  | Some p =>
      exists c rest found,
        In c l /\ p = c :: rest /\ chain p
        /\ firstSome (findWorker target) l = Some found
        /\ last p c = found
  | None => firstSome (findWorker target) l = None
  end.
Proof.
  induction 1 as [|x l Hx _ IH]; cbn [firstSome]; [reflexivity|].
  unfold leadsFrom in Hx.
  destruct (pathTo target x) as [px|].
  - destruct Hx as (rest & found & -> & Hchain & -> & Hlast).
    exists x, rest, found; repeat split; auto; now left.
  - rewrite Hx.
    destruct (firstSome (pathTo target) l) as [p|]; [|exact IH].
    destruct IH as (c & rest & found & Hin & Hp & Hchain & Hfound & Hlast).
    exists c, rest, found; repeat split; auto; now right.
Qed.

Lemma pathTo_spec target w : leadsFrom target w.
Proof.
  induction w as [w IH] using worker_ind'.
  apply pathTo_among in IH.
  unfold leadsFrom; rewrite pathTo_cons.
  destruct w as [i n r c u ch pf pa a la]; cbn [children] in *.
  cbn [findWorker].
  destruct (idIs target _).
  - exists [], (mkWorker i n r c u ch pf pa a la); repeat split.
  - destruct (firstSome (pathTo target) ch) as [p|]; [|exact IH].
    destruct IH as (x & rest & found & Hin & -> & Hchain & Hfound & Hlast).
    exists (x :: rest), found; repeat split; auto.
    exact (eq_trans (last_cons_default x rest _ x) Hlast).
Qed.

(** [getWorkerPath] returns the empty list exactly when [getWorkerById]
    finds nothing; otherwise it returns a chain of children that starts at a
    root of the tree and ends at the worker [getWorkerById] returns. *)
Theorem getWorkerPath_leads_to_worker data target :
  match getWorkerById data target with
  | None => getWorkerPath data target = []
  | Some found =>
      exists root rest,
        getWorkerPath data target = root :: rest
        /\ In root data
        /\ chain (root :: rest)
        /\ last (root :: rest) root = found
  end.
Proof.
  rewrite getWorkerPath_pathTo; unfold getWorkerById.
  induction data as [|w data IH]; cbn [firstSome]; [reflexivity|].
  pose proof (pathTo_spec target w) as Hw; unfold leadsFrom in Hw.
  destruct (pathTo target w) as [p|].
  - destruct Hw as (rest & found & -> & Hchain & -> & Hlast).
    exists w, rest; repeat split; auto; now left.
  - rewrite Hw.
    destruct (firstSome (findWorker target) data) as [found|]; [|exact IH].
    destruct IH as (root & rest & Hp & Hin & Hchain & Hlast).
    exists root, rest; repeat split; auto; now right.
Qed.

End TreeFacts.

(** ** The shape and the metrics of a built tree *)

Module ShapeFacts.

Import Hierarchy Service Spec Notions.

(** *** Sizes *)

Lemma length_flat_map_sum {A B} (f : A -> list B) l :
  length (flat_map f l) = list_sum (map (fun x => length (f x)) l).
Proof.
  induction l as [|x l IH]; simpl; [reflexivity|].
  now rewrite length_app, IH.
Qed.

Lemma list_sum_ext {A} (f g : A -> nat) l :
  Forall (fun x => f x = g x) l ->
  list_sum (map f l) = list_sum (map g l).
Proof.
  induction 1 as [|x l Hx _ IH]; simpl; [reflexivity|].
  now rewrite Hx, IH.
Qed.

Lemma networkSize_subtree w :
  Productivity.calculateNetworkSize w = length (subtree w).
Proof.
  induction w as [w IH] using worker_ind'.
  destruct w as [i n r c u ch p pa a la]; cbn [children] in IH.
  cbn [Productivity.calculateNetworkSize subtree length].
  rewrite ListFacts.fold_left_sum, length_flat_map_sum.
  now rewrite (list_sum_ext _ _ ch IH).
Qed.

Lemma countChildren_subtree w :
  S (TreeQueries.countChildren w) = length (subtree w).
Proof.
  induction w as [w IH] using worker_ind'.
  destruct w as [i n r c u ch p pa a la]; cbn [children] in IH.
  cbn [TreeQueries.countChildren subtree length]; f_equal.
  rewrite length_flat_map_sum, <- (list_sum_ext _ _ ch IH).
  clear IH; induction ch as [|x ch IHch]; simpl; lia.
Qed.

(** The network size of a worker is the number of nodes its subtree
    contributes to the flattened hierarchy, and one more than the number of
    descendants [getChildrenCount] counts. *)
Theorem network_size_is_flattened_size w lvl :
  Productivity.calculateNetworkSize w = length (flattenWorker lvl w)
  /\ Productivity.calculateNetworkSize w = S (TreeQueries.countChildren w).
Proof.
  rewrite networkSize_subtree, countChildren_subtree.
  split; [|reflexivity].
  now rewrite <- (UnrankedFacts.flattenWorker_subtree w lvl), length_map.
Qed.

(** *** Every node of a built tree *)

Section BuiltNodes.

Variable now : Z.
Variable P : HierarchicalWorker -> Prop.
Hypothesis movilizador_ok :
  forall src parent,
    P (transformMovilizadorToHierarchicalWorker now src parent).
Hypothesis brigadista_ok :
  forall src parent,
    P (transformBrigadistaToHierarchicalWorker now src parent).
Hypothesis lider_ok :
  forall src, P (transformLiderToHierarchicalWorker now src).

Lemma built_nodes rows :
  Forall P (preorder (transformToHierarchicalWorkers now rows)).
Proof.
  unfold preorder, transformToHierarchicalWorkers.
  apply Forall_flat_map, Forall_map, Forall_forall; intros l _.
  constructor; [apply lider_ok|].
  apply Forall_flat_map, Forall_map, Forall_forall; intros b _.
  constructor; [apply brigadista_ok|].
  apply Forall_flat_map, Forall_map, Forall_forall; intros m _.
  constructor; [apply movilizador_ok | constructor].
Qed.

End BuiltNodes.

(** *** Shape *)

Lemma movilizador_wellPlaced now src parent :
  wellPlaced
    {| worker := transformMovilizadorToHierarchicalWorker now src parent;
       level := 2 |}.
Proof. repeat split; auto; discriminate. Qed.

Lemma brigadista_wellPlaced now src parent :
  wellPlaced
    {| worker := transformBrigadistaToHierarchicalWorker now src parent;
       level := 1 |}.
Proof.
  repeat split; simpl; auto; try discriminate.
  apply Forall_map, Forall_forall; reflexivity.
Qed.

Lemma lider_wellPlaced now src :
  wellPlaced
    {| worker := transformLiderToHierarchicalWorker now src; level := 0 |}.
Proof.
  repeat split; simpl; auto; try discriminate.
  apply Forall_map, Forall_forall; reflexivity.
Qed.

(** The flattened hierarchy of a built tree has three levels: depth 0 holds
    the lideres, which have no parent, depth 1 the brigadistas, depth 2 the
    movilizadores, which have no children; no node is deeper, and the
    [parentId] of every child is the [id] of the node above it. *)
Theorem built_tree_has_three_levels now rows :
  Forall wellPlaced
    (flattenHierarchy (transformToHierarchicalWorkers now rows)).
Proof.
  unfold flattenHierarchy, flatten, transformToHierarchicalWorkers.
  apply Forall_flat_map, Forall_map, Forall_forall; intros l _.
  constructor; [apply lider_wellPlaced|].
  apply Forall_flat_map, Forall_map, Forall_forall; intros b _.
  constructor; [apply brigadista_wellPlaced|].
  apply Forall_flat_map, Forall_map, Forall_forall; intros m _.
  constructor; [apply movilizador_wellPlaced | constructor].
Qed.

(** *** Trend and activity *)

Lemma trend_cases now (row : Db.WorkerRow) :
  (calculateTrend now row = up ->
   isWorkerActive now (Db.created_at row) = true)
  /\ (isWorkerActive now (Db.created_at row) = false ->
      calculateTrend now row = down \/ Db.created_at row = None)
  /\ (Db.created_at row = None -> calculateTrend now row = stable).
Proof.
  unfold calculateTrend, isWorkerActive, daysSinceCreation.
  destruct (Db.created_at row) as [t|]; simpl.
  - set (d := ((now - t) / msPerDay)%Z).
    destruct (Z.ltb_spec d 7), (Z.ltb_spec 30 d), (Z.leb_spec d 90);
      repeat split; auto; try discriminate; try lia.
  - repeat split; auto; discriminate.
Qed.

(** A worker whose trend is 'up' is active, and a worker that is not active
    has the trend 'down' unless its creation date cannot be read, in which
    case it is inactive with the trend 'stable'. *)
Theorem trend_agrees_with_activity now (row : Db.WorkerRow) :
  (calculateTrend now row = up ->
   isWorkerActive now (Db.created_at row) = true)
  /\ (isWorkerActive now (Db.created_at row) = false ->
      calculateTrend now row = down \/ Db.created_at row = None)
  /\ (Db.created_at row = None ->
      calculateTrend now row = stable
      /\ isWorkerActive now (Db.created_at row) = false).
Proof.
  unfold calculateTrend, isWorkerActive, daysSinceCreation.
  destruct (Db.created_at row) as [t|]; simpl.
  - set (d := ((now - t) / msPerDay)%Z).
    destruct (Z.ltb_spec d 7), (Z.ltb_spec 30 d), (Z.leb_spec d 90);
      repeat split; auto; try discriminate; try lia.
  - repeat split; auto; discriminate.
Qed.

(** The trend is 'up' for a worker created at the clock reading, which is
    then active. *)
Lemma trend_agrees_with_activity_witness :
  isWorkerActive 0 (Db.created_at Samples.fullRow) = true.
Proof.
  apply (trend_agrees_with_activity 0 Samples.fullRow); reflexivity.
Defined.

(** *** Metrics *)

Lemma completeness_bounds row :
  (0 <= calculateDataCompleteness row <= 100)%Q.
Proof.
  unfold calculateDataCompleteness.
  rewrite CompletenessFacts.completedFields_populatedCount.
  change (length fields) with 10.
  destruct (CompletenessFacts.completeness_of_count (populatedCount row)
              (CompletenessFacts.populatedCount_le_10 row))
    as (_ & H0 & H100 & _).
  split; assumption.
Qed.

Lemma term_le_list_sum {A} (f : A -> nat) l x :
  In x l -> f x <= list_sum (map f l).
Proof.
  induction l as [|y l IH]; simpl; [intros []|].
  intros [-> | Hx]; [lia | specialize (IH Hx); lia].
Qed.

(** The metrics computed from a row. *)
Lemma metrics_of_row now row count :
  let p := calculatePerformanceMetrics now row count in
  perf_ciudadanosRegistrados p = count
  /\ (tasaVerificacion p = 0%Q \/ tasaVerificacion p = 100%Q)
  /\ (0 <= completitudDatos p <= 100)%Q
  /\ ultimaActividad p = Db.created_at row
  /\ (tendencia p = up -> isWorkerActive now (Db.created_at row) = true)
  /\ (isWorkerActive now (Db.created_at row) = false ->
      tendencia p = down \/ Db.created_at row = None).
Proof.
  destruct (trend_cases now row) as (Hup & Hdown & _).
  simpl; repeat split; auto; try apply completeness_bounds.
  destruct (Db.num_verificado row); auto.
Qed.

Lemma movilizador_soundMetrics now src parent :
  soundMetrics (transformMovilizadorToHierarchicalWorker now src parent).
Proof.
  destruct (metrics_of_row now (Db.mov_row src)
              (Db.lengthOr0 (Db.ciudadanos src)))
    as (H1 & H2 & H3 & H4 & H5 & H6).
  repeat split; auto; apply H3.
Qed.

Lemma movilizador_le_brigadista now src parent parent' m :
  In m (Db.orEmpty (Db.movilizadores src)) ->
  ciudadanosRegistrados
    (transformMovilizadorToHierarchicalWorker now m parent')
  <= ciudadanosRegistrados
       (transformBrigadistaToHierarchicalWorker now src parent).
Proof.
  intros Hm; rewrite BuilderFacts.brigadista_count.
  exact (term_le_list_sum (fun m => Db.lengthOr0 (Db.ciudadanos m)) _ m Hm).
Qed.

Lemma brigadista_le_lider now src parent b :
  In b (Db.orEmpty (Db.brigadistas src)) ->
  ciudadanosRegistrados (transformBrigadistaToHierarchicalWorker now b parent)
  <= ciudadanosRegistrados (transformLiderToHierarchicalWorker now src).
Proof.
  intros Hb; rewrite BuilderFacts.brigadista_count, BuilderFacts.lider_count.
  exact (term_le_list_sum
           (fun b => list_sum (map (fun m => Db.lengthOr0 (Db.ciudadanos m))
                                   (Db.orEmpty (Db.movilizadores b))))
           _ b Hb).
Qed.

Lemma brigadista_soundMetrics now src parent :
  soundMetrics (transformBrigadistaToHierarchicalWorker now src parent).
Proof.
  destruct (metrics_of_row now (Db.brig_row src)
              (ciudadanosRegistrados
                 (transformBrigadistaToHierarchicalWorker now src parent)))
    as (H1 & H2 & H3 & H4 & H5 & H6).
  repeat split; auto; try apply H3.
  apply Forall_map, Forall_forall; intros m Hm.
  now apply movilizador_le_brigadista.
Qed.

Lemma lider_soundMetrics now src :
  soundMetrics (transformLiderToHierarchicalWorker now src).
Proof.
  destruct (metrics_of_row now (Db.lider_row src)
              (ciudadanosRegistrados
                 (transformLiderToHierarchicalWorker now src)))
    as (H1 & H2 & H3 & H4 & H5 & H6).
  repeat split; auto; try apply H3.
  apply Forall_map, Forall_forall; intros b Hb.
  now apply brigadista_le_lider.
Qed.

Lemma built_soundMetrics now rows :
  Forall soundMetrics (preorder (transformToHierarchicalWorkers now rows)).
Proof.
  apply built_nodes.
  - apply movilizador_soundMetrics.
  - apply brigadista_soundMetrics.
  - apply lider_soundMetrics.
Qed.

Lemma registration_bounds n :
  (0 <= Num.min (Num.ofNat n * 10) 100 <= 100)%Q.
Proof.
  assert (H0 : (0 <= Num.ofNat n * 10)%Q).
  { unfold Num.ofNat, Qle; simpl; lia. }
  unfold Num.min; destruct (Qle_bool (Num.ofNat n * 10) 100) eqn:E.
  - apply Qle_bool_iff in E; split; assumption.
  - split; [discriminate | apply Qle_refl].
Qed.

Lemma score_bounds w :
  soundMetrics w ->
  (0 <= calculateOverallPerformanceScore w <= 100)%Q.
Proof.
  intros (_ & Htv & Hcd & _).
  unfold calculateOverallPerformanceScore.
  pose proof (registration_bounds (ciudadanosRegistrados w)) as Hreg.
  set (reg := Num.min _ _) in *.
  set (cd := completitudDatos (performance w)) in *.
  destruct Hcd as [Hcd0 Hcd100], Hreg as [Hreg0 Hreg100].
  destruct Htv as [-> | ->], (isActive w); cbv iota;
    (split; [apply Qle_shift_div_l | apply Qle_shift_div_r]); lra.
Qed.

(** On every node of a built tree the copy of the count kept in
    [performance] is the count of the node, the verification rate is 0 or
    100, the completeness lies in [0, 100], the last activity is the one of
    the node, trend and activity agree, no child has a greater count than
    its parent, and the composite score lies in [0, 100]. *)
Theorem built_tree_metrics_are_sound now rows :
  Forall (fun w =>
            soundMetrics w
            /\ (0 <= calculateOverallPerformanceScore w <= 100)%Q)
         (preorder (transformToHierarchicalWorkers now rows)).
Proof.
  eapply Forall_impl; [|apply built_soundMetrics].
  intros w Hw; split; [exact Hw | now apply score_bounds].
Qed.

End ShapeFacts.

(** ** Statistics: depth, most productive worker, sizes *)

Module StatsMoreFacts.

Import Hierarchy Service Spec Notions.

(** *** The deepest level *)

Lemma deepest_movilizadores movs t :
  t_deepestLevel (fold_left visitMovilizador movs t)
  = match movs with
    | [] => t_deepestLevel t
    | _ :: _ => Nat.max (t_deepestLevel t) 3
    end.
Proof.
  revert t; induction movs as [|m movs IH]; intros t; [reflexivity|].
  cbn [fold_left]; rewrite IH; destruct movs; simpl; lia.
Qed.

Lemma deepest_brigadistas brigs t :
  t_deepestLevel (fold_left visitBrigadista brigs t)
  = match flat_map children brigs, brigs with
    | _ :: _, _ => Nat.max (t_deepestLevel t) 3
    | [], _ :: _ => Nat.max (t_deepestLevel t) 2
    | [], [] => t_deepestLevel t
    end.
Proof.
  revert t; induction brigs as [|b brigs IH]; intros t; [reflexivity|].
  cbn [fold_left flat_map]; rewrite IH.
  unfold visitBrigadista; rewrite deepest_movilizadores.
  destruct (children b) as [|m ms]; cbn [app t_deepestLevel];
    destruct (flat_map children brigs), brigs; lia.
Qed.

Lemma deepest_lideres data t :
  t_deepestLevel (fold_left visitLider data t)
  = match level3 data, level2 data with
    | _ :: _, _ => Nat.max (t_deepestLevel t) 3
    | [], _ :: _ => Nat.max (t_deepestLevel t) 2
    | [], [] => t_deepestLevel t
    end.
Proof.
  unfold level3, level2.
  revert t; induction data as [|l data IH]; intros t; [reflexivity|].
  cbn [fold_left flat_map]; rewrite IH.
  unfold visitLider; rewrite deepest_brigadistas.
  rewrite flat_map_app.
  destruct (flat_map children (children l)), (children l);
    cbn [app t_deepestLevel];
    destruct (flat_map children (flat_map children data)),
             (flat_map children data); lia.
Qed.

(** [deepestLevel] is 1 for a forest without level-2 nodes, also for the
    empty forest, 2 when there are level-2 nodes and no level-3 node, and 3
    as soon as one level-3 node exists. *)
Theorem deepest_level_is_depth_seen data :
  deepestLevel (statsOf data) = depthSeen data.
Proof.
  unfold statsOf, depthSeen; cbn [deepestLevel].
  rewrite deepest_lideres; cbn [initialTotals t_deepestLevel].
  destruct (level3 data), (level2 data); reflexivity.
Qed.

(** *** The most productive worker *)















End StatsMoreFacts.

(** ** Flattening, totals and bands *)

Module FlattenFacts.

Import Hierarchy Service Spec Notions.

Lemma preorder_app l1 l2 : preorder (l1 ++ l2) = preorder l1 ++ preorder l2.
Proof. unfold preorder; apply flat_map_app. Qed.

(** The nodes of a forest: its roots, and the nodes of the forest of their
    children. *)
Lemma length_preorder l :
  length (preorder l) = length l + length (preorder (flat_map children l)).
Proof.
  induction l as [|w l IH]; [reflexivity|].
  cbn [flat_map]; rewrite preorder_app, length_app.
  change (preorder (w :: l)) with (subtree w ++ preorder l).
  rewrite length_app, IH.
  destruct w as [i n r c u ch p pa a la]; cbn [subtree children length].
  fold (preorder ch); lia.
Qed.

Lemma built_level3_childless now rows :
  flat_map children (level3 (transformToHierarchicalWorkers now rows)) = [].
Proof.
  unfold level3, level2, transformToHierarchicalWorkers.
  induction rows as [|l rows IH]; [reflexivity|].
  cbn [map flat_map]; rewrite !flat_map_app, IH, app_nil_r.
  cbn [children transformLiderToHierarchicalWorker].
  induction (Db.orEmpty (Db.brigadistas l)) as [|b bs IHb]; [reflexivity|].
  cbn [map flat_map]; rewrite !flat_map_app, IHb, app_nil_r.
  cbn [children transformBrigadistaToHierarchicalWorker].
  induction (Db.orEmpty (Db.movilizadores b)) as [|m ms IHm];
    [reflexivity | exact IHm].
Qed.

(** The flattened hierarchy has one entry for each node the statistics count
    and one for each node below the third level; on a built tree, which has
    no such node, its length is [totalLideres + totalBrigadistas +
    totalMovilizadores]. *)
Theorem flattened_length_is_total_of_workers data :
  (let stats := statsOf data in
   length (flattenHierarchy data)
   = totalLideres stats + totalBrigadistas stats + totalMovilizadores stats
     + length (preorder (flat_map children (level3 data))))
  /\ (forall now rows,
        let tree := transformToHierarchicalWorkers now rows in
        length (flattenHierarchy tree)
        = totalLideres (statsOf tree) + totalBrigadistas (statsOf tree)
          + totalMovilizadores (statsOf tree)).
Proof.
  assert (G : forall d,
             length (flattenHierarchy d)
             = totalLideres (statsOf d) + totalBrigadistas (statsOf d)
               + totalMovilizadores (statsOf d)
               + length (preorder (flat_map children (level3 d)))).
  { intros d.
    destruct (StatsFacts.visit_lideres d initialTotals) as (H1 & H2 & H3 & _).
    cbv zeta in *; simpl in H1, H2, H3.
    unfold statsOf; cbn [totalLideres totalBrigadistas totalMovilizadores].
    rewrite H1, H2, H3.
    rewrite <- (length_map worker), TreeFacts.preorder_flatten.
    rewrite (length_preorder d).
    fold (level2 d); rewrite (length_preorder (level2 d)).
    fold (level3 d); rewrite (length_preorder (level3 d)); lia. }
  split; [apply G|].
  intros now rows tree; rewrite (G tree); subst tree.
  rewrite built_level3_childless; simpl; lia.
Qed.

(** *** Bands *)

Lemma band_cases s :
  (inBand excellent s = true /\ inBand good s = false
   /\ inBand average s = false /\ inBand poor s = false)
  \/ (inBand excellent s = false /\ inBand good s = true
      /\ inBand average s = false /\ inBand poor s = false)
  \/ (inBand excellent s = false /\ inBand good s = false
      /\ inBand average s = true /\ inBand poor s = false)
  \/ (inBand excellent s = false /\ inBand good s = false
      /\ inBand average s = false /\ inBand poor s = true).
Proof.
  unfold inBand, Qge_bool, Qlt_bool.
  destruct (Qle_bool 90 s) eqn:E90, (Qle_bool 70 s) eqn:E70,
           (Qle_bool 50 s) eqn:E50; simpl; auto 10;
    repeat match goal with
           | H : Qle_bool _ _ = true |- _ => apply Qle_bool_iff in H
           | H : Qle_bool ?a ?b = false |- _ =>
               assert (~ (a <= b)%Q)
                 by (intros Hle; apply Qle_bool_iff in Hle; congruence);
               clear H
           end; exfalso; lra.
Qed.

Lemma band_lengths (l : list FlatWorker) :
  length (filter (fun fw => inBand excellent
                              (calculateOverallPerformanceScore (worker fw)))
                 l)
  + length (filter (fun fw => inBand good
                                (calculateOverallPerformanceScore (worker fw)))
                   l)
  + length (filter (fun fw => inBand average
                                (calculateOverallPerformanceScore (worker fw)))
                   l)
  + length (filter (fun fw => inBand poor
                                (calculateOverallPerformanceScore (worker fw)))
                   l)
  = length l.
Proof.
  induction l as [|fw l IH]; [reflexivity|].
  cbn [filter].
  destruct (band_cases (calculateOverallPerformanceScore (worker fw)))
    as [H | [H | [H | H]]];
    destruct H as (-> & -> & -> & ->); cbn [length]; lia.
Qed.

(** The four bands split the flattened hierarchy: every score is in exactly
    one band, so the four results of [getWorkersByPerformance] have as many
    nodes together as the flattened hierarchy. *)
Theorem performance_bands_partition data :
  (forall s,
      (inBand excellent s = true /\ inBand good s = false
       /\ inBand average s = false /\ inBand poor s = false)
      \/ (inBand excellent s = false /\ inBand good s = true
          /\ inBand average s = false /\ inBand poor s = false)
      \/ (inBand excellent s = false /\ inBand good s = false
          /\ inBand average s = true /\ inBand poor s = false)
      \/ (inBand excellent s = false /\ inBand good s = false
          /\ inBand average s = false /\ inBand poor s = true))
  /\ length (byPerformanceIn excellent data)
     + length (byPerformanceIn good data)
     + length (byPerformanceIn average data)
     + length (byPerformanceIn poor data)
     = length (flattenHierarchy data).
Proof.
  split; [exact band_cases | apply band_lengths].
Qed.

End FlattenFacts.

(** ** The cache: order, eviction and bound *)

Module CacheOrderFacts.

Import Cache Notions.

Section Store.

Context {T : Type}.
Implicit Types (cache : Store T) (key k : string) (e : Entry T).

Lemma get_none_iff key cache : get key cache = None <-> ~ In key (keys cache).
Proof.
  induction cache as [|[k e] cache IH]; simpl.
  - split; [intros _ [] | reflexivity].
  - destruct (String.eqb_spec k key) as [-> | Hk].
    + split; [discriminate | intros H; exfalso; apply H; now left].
    + rewrite IH; split.
      * intros H [Heq | Hin]; [congruence | contradiction].
      * intros H Hin; apply H; now right.
Qed.

(** A write replaces the entry of a key where it stands, or appends a new
    key. *)
Lemma set_keys key e cache :
  (In key (keys cache) /\ keys (set key e cache) = keys cache)
  \/ (~ In key (keys cache) /\ set key e cache = cache ++ [(key, e)]).
Proof.
  induction cache as [|[k e'] cache IH]; simpl.
  - right; split; [intros [] | reflexivity].
  - destruct (String.eqb_spec k key) as [-> | Hk].
    + left; split; [now left | reflexivity].
    + destruct IH as [[Hin Hkeys] | [Hout Happ]].
      * left; split; [now right | simpl; now rewrite Hkeys].
      * right; split; [|now rewrite Happ].
        intros [Heq | Hin]; [congruence | contradiction].
Qed.

Lemma keys_delete k cache :
  keys (delete k cache)
  = filter (fun k' => negb (String.eqb k' k)) (keys cache).
Proof.
  induction cache as [|[k' e] cache IH]; simpl; [reflexivity|].
  destruct (String.eqb k' k); simpl; now rewrite IH.
Qed.

Lemma delete_absent k cache : ~ In k (keys cache) -> delete k cache = cache.
Proof.
  induction cache as [|[k' e] cache IH]; simpl; [reflexivity|].
  intros H; destruct (String.eqb_spec k' k) as [-> | Hk].
  - exfalso; apply H; now left.
  - rewrite IH; [reflexivity | intros Hin; apply H; now right].
Qed.

Lemma keys_app cache cache' : keys (cache ++ cache') = keys cache ++ keys cache'.
Proof. apply map_app. Qed.

(** The three cases of a write into a cache with distinct keys: a key
    already there keeps its place and nothing is evicted; a new key goes
    last; a new key written into a cache of 100 entries goes last and the
    oldest entry, the first one, is evicted. *)
Theorem write_evicts_the_oldest_entry key (value : T) t cache :
  let e := {| data := value; timestamp := t |} in
  NoDup (keys cache) ->
  (In key (keys cache) -> size cache <= 100 ->
   keys (setCache key value t cache) = keys cache
   /\ get key (setCache key value t cache) = Some e)
  /\ (~ In key (keys cache) -> size cache < 100 ->
      setCache key value t cache = cache ++ [(key, e)])
  /\ (forall k0 e0 rest,
        ~ In key (keys cache) -> cache = (k0, e0) :: rest ->
        size cache = 100 -> JsString.isEmpty k0 = false ->
        setCache key value t cache = rest ++ [(key, e)]).
Proof.
  intros e Hnodup; unfold setCache; fold e.
  split; [|split].
  - intros Hin Hsize.
    destruct (set_keys key e cache) as [[_ Hkeys] | [Hout _]];
      [|contradiction].
    assert (Hs : size (set key e cache) = size cache).
    { unfold size; rewrite <- (length_map fst (set key e cache)).
      fold (keys (set key e cache)); rewrite Hkeys.
      unfold keys; apply length_map. }
    rewrite Hs.
    destruct (Nat.ltb_spec 100 (size cache)); [lia|].
    split; [exact Hkeys | apply CacheFacts.get_set].
  - intros Hout Hsize.
    destruct (set_keys key e cache) as [[Hin _] | [_ Happ]];
      [contradiction|].
    rewrite Happ.
    destruct (Nat.ltb_spec 100 (size (cache ++ [(key, e)]))) as [Hfull|];
      [|reflexivity].
    unfold size in *; rewrite length_app in Hfull; simpl in Hfull; lia.
  - intros k0 e0 rest Hout -> Hsize Hk0.
    destruct (set_keys key e ((k0, e0) :: rest)) as [[Hin _] | [_ Happ]];
      [contradiction|].
    rewrite Happ.
    destruct (Nat.ltb_spec 100 (size (((k0, e0) :: rest) ++ [(key, e)])))
      as [_ | Hfull].
    + cbn [app oldestKey]; rewrite Hk0.
      cbn [delete]; rewrite String.eqb_refl.
      apply delete_absent.
      rewrite keys_app; intros Hin; apply in_app_or in Hin.
      inversion Hnodup as [|? ? Hfresh _]; subst.
      destruct Hin as [Hin | [Heq | []]]; [contradiction|].
      simpl in Heq; subst k0; apply Hout; now left.
    + unfold size in *; rewrite length_app in Hfull; simpl in *; lia.
Qed.

End Store.

(** The second case on the sample cache: a new key goes last. *)
Lemma write_evicts_the_oldest_entry_witness :
  setCache "j" 8 5 Samples.smallCache
  = Samples.smallCache ++ [("j"%string, {| data := 8; timestamp := 5 |})].
Proof.
  assert (Hnodup : NoDup (keys Samples.smallCache)).
  { repeat constructor; intros []. }
  destruct (write_evicts_the_oldest_entry "j" 8 5 Samples.smallCache Hnodup)
    as (_ & Hnew & _).
  apply Hnew.
  - intros [H | []]; discriminate.
  - simpl; lia.
Defined.

End CacheOrderFacts.

(** ** The service: bound of the cache, hits, failures, errors *)

Module ServiceMoreFacts.

Import Hierarchy Service Errors Spec Notions Samples.

(** *** The cache of the service *)

(** What every cache of the service satisfies. *)
Lemma keys_set_invariant {T} key (e : Cache.Entry T) cache :
  JsString.isEmpty key = false ->
  NoDup (keys cache) ->
  Forall (fun k => JsString.isEmpty k = false) (keys cache) ->
  NoDup (keys (Cache.set key e cache))
  /\ Forall (fun k => JsString.isEmpty k = false)
            (keys (Cache.set key e cache)).
Proof.
  intros Hkey Hnodup Hall.
  destruct (CacheOrderFacts.set_keys key e cache)
    as [[_ Hkeys] | [Hout Happ]].
  - rewrite Hkeys; split; assumption.
  - rewrite Happ, CacheOrderFacts.keys_app; simpl; split.
    + apply NoDup_app; [assumption | repeat constructor; intros [] |].
      intros k Hk [<- | []]; contradiction.
    + apply Forall_app; split; [assumption | repeat constructor; assumption].
Qed.

Lemma keys_delete_invariant {T} k (cache : Cache.Store T) :
  NoDup (keys cache) ->
  Forall (fun k => JsString.isEmpty k = false) (keys cache) ->
  NoDup (keys (Cache.delete k cache))
  /\ Forall (fun k => JsString.isEmpty k = false)
            (keys (Cache.delete k cache)).
Proof.
  intros Hnodup Hall; rewrite CacheOrderFacts.keys_delete; split.
  - now apply NoDup_filter.
  - apply Forall_forall; intros k' Hk'; apply filter_In in Hk'.
    rewrite Forall_forall in Hall; now apply Hall.
Qed.

Lemma size_delete_head {T} k (e : Cache.Entry T) rest :
  Cache.size (Cache.delete k ((k, e) :: rest)) <= Cache.size rest.
Proof.
  cbn [Cache.delete]; rewrite String.eqb_refl.
  unfold Cache.size; induction rest as [|[k' e'] rest IH]; simpl; [lia|].
  destruct (String.eqb k' k); simpl; lia.
Qed.

Lemma setCache_invariant {T} key (value : T) t cache :
  JsString.isEmpty key = false ->
  Cache.size cache <= 100 ->
  NoDup (keys cache) ->
  Forall (fun k => JsString.isEmpty k = false) (keys cache) ->
  Cache.size (Cache.setCache key value t cache) <= 100
  /\ NoDup (keys (Cache.setCache key value t cache))
  /\ Forall (fun k => JsString.isEmpty k = false)
            (keys (Cache.setCache key value t cache)).
Proof.
  intros Hkey Hsize Hnodup Hall; unfold Cache.setCache.
  set (e := {| Cache.data := value; Cache.timestamp := t |}).
  destruct (keys_set_invariant key e cache Hkey Hnodup Hall) as [Hn1 Ha1].
  destruct (Nat.ltb_spec 100 (Cache.size (Cache.set key e cache)))
    as [Hfull | Hok]; [|auto].
  destruct (Cache.set key e cache) as [|[k0 e0] rest] eqn:Hset;
    [simpl in Hfull; lia|].
  cbn [Cache.oldestKey].
  inversion Ha1 as [|? ? Hk0 _]; subst; simpl in Hk0; rewrite Hk0.
  destruct (keys_delete_invariant k0 ((k0, e0) :: rest) Hn1 Ha1)
    as [Hn2 Ha2].
  split; [|split; assumption].
  pose proof (size_delete_head k0 e0 rest) as Hd.
  destruct (CacheFacts.set_cases key e cache) as [Hs | [_ Happ]].
  - rewrite Hset in Hs; lia.
  - rewrite Hset in Happ.
    assert (Hlen : Cache.size ((k0, e0) :: rest) = S (Cache.size cache)).
    { rewrite Happ; unfold Cache.size; rewrite length_app; simpl; lia. }
    unfold Cache.size in *; simpl in Hlen; lia.
Qed.

Lemma reachable_bounded cache :
  reachable cache ->
  Cache.size cache <= 100
  /\ NoDup (keys cache)
  /\ Forall (fun k => JsString.isEmpty k = false) (keys cache).
Proof.
  induction 1 as [| filters t cache _ (Hs & Hn & Ha)
                  | filters rows t cache _ (Hs & Hn & Ha)
                  | cache _ _].
  - repeat split; [simpl; lia | constructor | constructor].
  - unfold Cache.getFromCache.
    destruct (Cache.get _ cache) as [e|]; simpl; [|auto].
    destruct (_ <? _)%Z; simpl; [|auto].
    destruct (keys_delete_invariant
                (generateCacheKey "hierarchical-data" filters) cache Hn Ha)
      as [Hn' Ha'].
    split; [|split; assumption].
    unfold Cache.size in *; rewrite <- (length_map fst).
    fold (keys (Cache.delete
                  (generateCacheKey "hierarchical-data" filters) cache)).
    rewrite CacheOrderFacts.keys_delete.
    pose proof (filter_length_le
                  (fun k' => negb (String.eqb k'
                     (generateCacheKey "hierarchical-data" filters)))
                  (keys cache)) as Hle.
    unfold keys in Hle at 2; rewrite length_map in Hle; lia.
  - apply setCache_invariant; auto.
  - repeat split; [simpl; lia | constructor | constructor].
Qed.

(** In every state of the service the cache holds at most 100 trees, under
    distinct keys, none of them empty, so that the eviction of the oldest
    entry is never skipped; and a tree written under a key is the entry of
    that key after the write. *)
Theorem service_cache_is_bounded cache :
  reachable cache ->
  (Cache.size cache <= 100
   /\ NoDup (keys cache)
   /\ Forall (fun k => JsString.isEmpty k = false) (keys cache))
  /\ (forall key tree t,
        Cache.get key (Cache.setCache key tree t cache)
        = Some {| Cache.data := tree; Cache.timestamp := t |}).
Proof.
  intros Hreach; pose proof (reachable_bounded cache Hreach) as Hb.
  split; [exact Hb|].
  intros key tree t; apply CacheFacts.get_setCache; apply Hb.
Qed.

(** After one fetch into the empty cache. *)
Lemma service_cache_is_bounded_witness :
  Cache.size (snd (getHierarchicalData None (world 0 scenarioRows) [])) <= 100.
Proof.
  apply (service_cache_is_bounded
           (snd (getHierarchicalData None (world 0 scenarioRows) []))).
  apply UnrankedFacts.getHierarchicalData_reachable, reach_initial.
Defined.

(** *** Hits and failed fetches *)

Lemma getHierarchicalData_miss filters env cache :
  fst (Cache.getFromCache CACHE_TTL
         (generateCacheKey "hierarchical-data" filters) (now env) cache)
  = None ->
  getHierarchicalData filters env cache
  = (rethrow (fun error =>
                if isServiceError error then error
                else ServiceError "Hierarchy service error" (Some error))
             (fst (fetchAndBuild
                     (generateCacheKey "hierarchical-data" filters) env
                     (snd (Cache.getFromCache CACHE_TTL
                             (generateCacheKey "hierarchical-data" filters)
                             (now env) cache)))),
     snd (fetchAndBuild
            (generateCacheKey "hierarchical-data" filters) env
            (snd (Cache.getFromCache CACHE_TTL
                    (generateCacheKey "hierarchical-data" filters)
                    (now env) cache)))).
Proof.
  unfold getHierarchicalData.
  destruct (Cache.getFromCache _ _ _ _) as [[cached|] cache1]; simpl;
    [discriminate|].
  intros _; destruct (fetchAndBuild _ _ _); reflexivity.
Qed.

Lemma getHierarchicalData_hit filters env cache e :
  Cache.get (generateCacheKey "hierarchical-data" filters) cache = Some e ->
  (now env - Cache.timestamp e <= CACHE_TTL)%Z ->
  getHierarchicalData filters env cache = (Ok (Cache.data e), cache).
Proof.
  intros Hget Hfresh; unfold getHierarchicalData.
  now rewrite (CacheFacts.getFromCache_fresh CACHE_TTL _ (now env) cache e
                 Hget Hfresh).
Qed.

(** A tree fetched on a miss is served from the cache to every later call
    with the same filters made within the TTL of the fetch: the call returns
    the same tree, leaves the cache as it is and does not depend on what the
    gateway would answer. *)
Theorem fetched_tree_is_served_from_cache filters t1 t2 rows env' cache :
  reachable cache ->
  fst (Cache.getFromCache CACHE_TTL
         (generateCacheKey "hierarchical-data" filters) t1 cache) = None ->
  (now env' - t2 <= CACHE_TTL)%Z ->
  let first :=
    getHierarchicalData filters
      {| now := t1; gateway := answered rows; later := t2 |} cache in
  fst first = Ok (transformToHierarchicalWorkers t2 rows)
  /\ getHierarchicalData filters env' (snd first)
     = (Ok (transformToHierarchicalWorkers t2 rows), snd first).
Proof.
  intros Hreach Hmiss Hfresh first; subst first.
  rewrite (getHierarchicalData_miss filters
             {| now := t1; gateway := answered rows; later := t2 |} cache
             Hmiss).
  cbn [now gateway later fetchAndBuild answered db_error db_data fst snd
       rethrow].
  split; [reflexivity|].
  set (cache1 := snd (Cache.getFromCache _ _ t1 cache)).
  assert (Hreach1 : reachable cache1) by (apply reach_read; exact Hreach).
  destruct (reachable_bounded cache1 Hreach1) as (Hsize & _).
  apply (getHierarchicalData_hit filters env' _
           {| Cache.data := transformToHierarchicalWorkers t2 rows;
              Cache.timestamp := t2 |}).
  - now apply CacheFacts.get_setCache.
  - exact Hfresh.
Qed.

(** A fetch into the empty cache, read again 5 minutes later while the
    gateway is down. *)
Lemma fetched_tree_is_served_from_cache_witness :
  let first := getHierarchicalData None (world 0 scenarioRows) [] in
  getHierarchicalData None
    {| now := 300000; gateway := Rejected TypeError; later := 300000 |}
    (snd first)
  = (Ok (transformToHierarchicalWorkers 0 scenarioRows), snd first).
Proof.
  apply (fetched_tree_is_served_from_cache None 0 0 scenarioRows
           {| now := 300000; gateway := Rejected TypeError;
              later := 300000 |} [] reach_initial).
  - reflexivity.
  - vm_compute; discriminate.
Defined.

(** A fetch that fails stores nothing: after a miss answered without rows
    the call throws a [ServiceError] and the cache has no entry for the key,
    so the next call asks the gateway again. *)
Theorem failed_fetch_is_not_cached filters env cache :
  fst (Cache.getFromCache CACHE_TTL
         (generateCacheKey "hierarchical-data" filters) (now env) cache)
  = None ->
  gatewayFailed (gateway env) ->
  (exists e, fst (getHierarchicalData filters env cache) = Throw e
             /\ isServiceError e = true)
  /\ Cache.get (generateCacheKey "hierarchical-data" filters)
               (snd (getHierarchicalData filters env cache)) = None.
Proof.
  intros Hmiss Hfail.
  rewrite (getHierarchicalData_miss filters env cache Hmiss).
  assert (Hnone : Cache.get (generateCacheKey "hierarchical-data" filters)
                    (snd (Cache.getFromCache CACHE_TTL
                            (generateCacheKey "hierarchical-data" filters)
                            (now env) cache)) = None).
  { unfold Cache.getFromCache in *.
    destruct (Cache.get _ cache) as [e|] eqn:Hget; simpl in *; [|exact Hget].
    destruct (_ <? _)%Z; simpl in *; [apply CacheFacts.get_delete|].
    discriminate. }
  unfold fetchAndBuild.
  destruct (gateway env) as [[[rows|] [message|]] | e]; simpl in *.
  - split; [eexists; split; reflexivity | exact Hnone].
  - destruct Hfail as [H | H]; congruence.
  - split; [eexists; split; reflexivity | exact Hnone].
  - split; [eexists; split; reflexivity | exact Hnone].
  - split; [|exact Hnone].
    destruct (isServiceError e) eqn:E; eexists; split;
      try reflexivity; assumption.
Qed.

(** A gateway error on the empty cache. *)
Lemma failed_fetch_is_not_cached_witness :
  Cache.get (generateCacheKey "hierarchical-data" None)
    (snd (getHierarchicalData None
            {| now := 0;
               gateway := Resolved {| db_data := None;
                                      db_error := Some "timeout"%string |};
               later := 0 |} [])) = None.
Proof.
  apply (failed_fetch_is_not_cached None
           {| now := 0;
              gateway := Resolved {| db_data := None;
                                     db_error := Some "timeout"%string |};
              later := 0 |} []).
  - reflexivity.
  - left; discriminate.
Defined.

(** *** Errors *)

Lemma getHierarchicalData_throws filters env cache :
  valueOrServiceError (fst (getHierarchicalData filters env cache)).
Proof.
  unfold getHierarchicalData.
  destruct (Cache.getFromCache _ _ _ _) as [[cached|] cache1]; [exact I|].
  unfold fetchAndBuild.
  destruct (gateway env) as [[[rows|] [message|]] | e]; simpl; auto.
  destruct (isServiceError e) eqn:E; auto.
Qed.

Lemma derived_throws {A B} (r : Result A) (k : A -> Result B) message :
  valueOrServiceError
    (rethrow (fun error => ServiceError message (Some error)) (bind r k)).
Proof. destruct r as [a|e]; simpl; [destruct (k a)|]; reflexivity. Qed.

(** The five fetching operations of the service throw nothing but
    [ServiceError]: what the gateway, the builder or the search throws is
    wrapped, a [ServiceError] of the gateway passes through
    [getHierarchicalData] as it is. *)
Theorem service_throws_only_service_errors filters env cache term lvl :
  valueOrServiceError (fst (getHierarchicalData filters env cache))
  /\ valueOrServiceError (fst (getFlattenedHierarchy filters env cache))
  /\ valueOrServiceError (fst (searchWorkers term filters env cache))
  /\ valueOrServiceError (fst (getWorkersByPerformance lvl filters env cache))
  /\ valueOrServiceError (fst (getHierarchyStats filters env cache)).
Proof.
  split; [apply getHierarchicalData_throws|].
  unfold getFlattenedHierarchy, searchWorkers, getWorkersByPerformance,
    getHierarchyStats.
  destruct (getHierarchicalData filters env cache) as [r cache1].
  repeat split; apply derived_throws.
Qed.

End ServiceMoreFacts.

(** ** Search: what is found, and when it fails *)

Module SearchMoreFacts.

Import Hierarchy Service Errors Spec Notions Samples.










Lemma search_throws_on_nameless q l :
  Exists (fun fw => nombre (worker fw) = None) l ->
  filterThrowing (searchMatches q) l = Throw TypeError.
Proof.
  induction l as [|fw l IH]; intros Hex; [inversion Hex|].
  cbn [filterThrowing]; unfold searchMatches at 1.
  destruct (nombre (worker fw)) as [name|] eqn:E; [|reflexivity].
  cbn [bind]; rewrite IH; [reflexivity|].
  inversion Hex as [? ? Hhead | ? ? Htail]; subst; [congruence | exact Htail].
Qed.

(** One node without a name makes every search fail: [searchWorkers] throws
    a [ServiceError] around the [TypeError], whatever the term and also when
    other nodes match, and the hook's [searchWorkers] returns no node. *)
Theorem search_fails_on_a_nameless_node term filters env cache tree :
  fst (getHierarchicalData filters env cache) = Ok tree ->
  Exists (fun fw => nombre (worker fw) = None) (flattenHierarchy tree) ->
  fst (searchWorkers term filters env cache)
  = Throw (ServiceError "Failed to search workers" (Some TypeError))
  /\ TreeQueries.searchWorkers term filters env cache = [].
Proof.
  intros Htree Hex.
  assert (H : fst (searchWorkers term filters env cache)
              = Throw (ServiceError "Failed to search workers"
                                    (Some TypeError))).
  { unfold searchWorkers.
    destruct (getHierarchicalData filters env cache) as [r cache1].
    simpl in Htree; subst r; cbn [fst bind rethrow].
    unfold searchIn; now rewrite search_throws_on_nameless. }
  split; [exact H|].
  unfold TreeQueries.searchWorkers; now rewrite H.
Qed.

(** A leader without a name under a named one. *)
Lemma search_fails_on_a_nameless_node_witness :
  TreeQueries.searchWorkers "ana" None
    (world 0 (postalRows ++ [namelessLider])) [] = [].
Proof.
  apply (search_fails_on_a_nameless_node "ana" None
           (world 0 (postalRows ++ [namelessLider])) []
           (transformToHierarchicalWorkers 0 (postalRows ++ [namelessLider]))).
  - reflexivity.
  - right; left; reflexivity.
Defined.

End SearchMoreFacts.

(** ** Sorting by score: stability, top and bottom performers *)

Module PerformersFacts.

Import Analytics Performers Spec Notions.

Section SortBy.

Variable compare : WorkerAnalytics -> WorkerAnalytics -> Q.

Hypothesis precedes_trans :
  forall a b c, precedes compare a b -> precedes compare b c ->
                precedes compare a c.
Hypothesis precedes_total :
  forall a b, ~ precedes compare a b -> precedes compare b a.

Lemma insertBy_test a b :
  Qle_bool (compare a b) 0 = true <-> precedes compare a b.
Proof. apply Qle_bool_iff. Qed.

Lemma insertBy_perm a l : Permutation (insertBy compare a l) (a :: l).
Proof.
  induction l as [|b l IH]; simpl; [apply Permutation_refl|].
  destruct (Qle_bool (compare a b) 0); [apply Permutation_refl|].
  eapply perm_trans; [apply perm_skip, IH | apply perm_swap].
Qed.

Lemma sortBy_perm l : Permutation (sortBy compare l) l.
Proof.
  induction l as [|a l IH]; simpl; [apply perm_nil|].
  eapply perm_trans; [apply insertBy_perm | apply perm_skip, IH].
Qed.

Lemma insertBy_sorted a l :
  StronglySorted (precedes compare) l ->
  StronglySorted (precedes compare) (insertBy compare a l).
Proof.
  induction l as [|b l IH]; intros Hs; simpl.
  - repeat constructor.
  - inversion Hs as [|? ? Hl Hb]; subst.
    destruct (Qle_bool (compare a b) 0) eqn:E.
    + apply insertBy_test in E.
      constructor; [assumption|].
      constructor; [assumption|].
      eapply Forall_impl; [|exact Hb].
      intros c Hc; eapply precedes_trans; eauto.
    + assert (Hba : precedes compare b a).
      { apply precedes_total; intros H; apply insertBy_test in H.
        congruence. }
      constructor; [now apply IH|].
      eapply Permutation_Forall; [apply Permutation_sym, insertBy_perm|].
      constructor; assumption.
Qed.

Lemma sortBy_sorted l : StronglySorted (precedes compare) (sortBy compare l).
Proof.
  induction l as [|a l IH]; simpl; [constructor | now apply insertBy_sorted].
Qed.

(** Sorting a sorted array changes nothing. *)
Lemma sortBy_of_sorted l :
  StronglySorted (precedes compare) l -> sortBy compare l = l.
Proof.
  induction 1 as [|a l Hs IH Ha]; simpl; [reflexivity|].
  rewrite IH; destruct l as [|b l]; [reflexivity|].
  simpl; inversion Ha as [|? ? Hab _]; subst.
  apply insertBy_test in Hab; now rewrite Hab.
Qed.

(** Workers of one class keep their order when members of the class are
    never strictly out of order. *)
Lemma insertBy_stable (p : WorkerAnalytics -> bool) a l :
  (forall b, p a = true -> p b = true -> precedes compare a b) ->
  filter p (insertBy compare a l) = filter p (a :: l).
Proof.
  intros Htie; induction l as [|b l IH]; [reflexivity|].
  cbn [insertBy].
  destruct (Qle_bool (compare a b) 0) eqn:E; [reflexivity|].
  cbn [filter] in *; rewrite IH.
  destruct (p a) eqn:Ea, (p b) eqn:Eb; try reflexivity.
  exfalso; specialize (Htie b eq_refl Eb).
  apply insertBy_test in Htie; congruence.
Qed.

Lemma sortBy_stable (p : WorkerAnalytics -> bool) l :
  (forall a b, p a = true -> p b = true -> precedes compare a b) ->
  filter p (sortBy compare l) = filter p l.
Proof.
  intros Htie; induction l as [|a l IH]; [reflexivity|].
  cbn [sortBy]; rewrite insertBy_stable; [|intros b; apply Htie].
  cbn [filter]; now rewrite IH.
Qed.

End SortBy.

(** *** The two comparators *)

Lemma descending_precedes a b :
  precedes descending a b <-> rankedBefore a b.
Proof.
  unfold precedes, descending, rankedBefore; split; intros H; lra.
Qed.

Lemma ascending_precedes a b :
  precedes ascending a b <-> rankedBefore b a.
Proof.
  unfold precedes, ascending, rankedBefore; split; intros H; lra.
Qed.

Lemma descending_trans a b c :
  precedes descending a b -> precedes descending b c ->
  precedes descending a c.
Proof. unfold precedes, descending; intros; lra. Qed.

Lemma descending_total a b :
  ~ precedes descending a b -> precedes descending b a.
Proof. unfold precedes, descending; intros; lra. Qed.

Lemma ascending_trans a b c :
  precedes ascending a b -> precedes ascending b c -> precedes ascending a c.
Proof. unfold precedes, ascending; intros; lra. Qed.

Lemma ascending_total a b :
  ~ precedes ascending a b -> precedes ascending b a.
Proof. unfold precedes, ascending; intros; lra. Qed.

Lemma scoreIs_tie compare q :
  (forall a b, (calculateWorkerScore a == calculateWorkerScore b)%Q ->
               precedes compare a b) ->
  forall a b, scoreIs q a = true -> scoreIs q b = true -> precedes compare a b.
Proof.
  intros H a b Ha Hb; apply H.
  unfold scoreIs in *; apply Qeq_bool_iff in Ha, Hb; now rewrite Ha, Hb.
Qed.

Lemma sort_is_sortBy l : sort l = sortBy descending l.
Proof.
  induction l as [|a l IH]; [reflexivity|].
  cbn [sort sortBy]; rewrite IH.
  generalize (sortBy descending l); intros s.
  induction s as [|b s IHs]; [reflexivity|].
  cbn [insert insertBy]; now rewrite IHs.
Qed.

Lemma sorted_descending l :
  StronglySorted rankedBefore l <-> StronglySorted (precedes descending) l.
Proof.
  split; induction 1 as [|a l Hs IH Ha]; constructor; auto;
    (eapply Forall_impl; [|exact Ha]); intros b Hb;
    now apply descending_precedes.
Qed.

Lemma sorted_impl {A} (R R' : A -> A -> Prop) l :
  (forall a b, R a b -> R' a b) ->
  StronglySorted R l -> StronglySorted R' l.
Proof.
  intros HR; induction 1 as [|a l Hs IH Ha]; constructor; auto.
  eapply Forall_impl; [|exact Ha]; intros b; apply HR.
Qed.

Lemma sorted_firstn {A} (R : A -> A -> Prop) n l :
  StronglySorted R l -> StronglySorted R (firstn n l).
Proof.
  intros Hs; revert n; induction Hs as [|a l Hs IH Ha]; intros [|n];
    simpl; try constructor; auto.
  apply Forall_forall; intros b Hb.
  rewrite Forall_forall in Ha; apply Ha.
  rewrite <- (firstn_skipn n l); apply in_or_app; now left.
Qed.

Lemma firstn_seq n start len :
  firstn n (seq start len) = seq start (Nat.min n len).
Proof.
  revert start len; induction n as [|n IH]; intros start [|len];
    simpl; try reflexivity.
  now rewrite IH.
Qed.

Lemma filter_assign (p : WorkerAnalytics -> bool) i l :
  (forall r a, p (setRanking r a) = p a) ->
  map unranked
      (filter p (mapi (fun index w => setRanking (index + 1) w) i l))
  = map unranked (filter p l).
Proof.
  intros Hp; revert i; induction l as [|a l IH]; intros i; [reflexivity|].
  cbn [mapi filter]; rewrite Hp.
  destruct (p a); cbn [map]; now rewrite IH.
Qed.

(** Workers with the same score are ranked in the order in which the
    flattened hierarchy lists them: the sort of the ranking pass is
    stable. *)
Theorem equal_scores_keep_hierarchy_order flat q :
  map unranked (filter (scoreIs q) (rankWorkers flat))
  = map unranked (filter (scoreIs q) (mapi toAnalytics 0 flat)).
Proof.
  unfold rankWorkers, assignRankings.
  rewrite filter_assign by reflexivity.
  rewrite sort_is_sortBy, sortBy_stable; [reflexivity|].
  apply scoreIs_tie; intros a b H.
  unfold precedes, descending; lra.
Qed.

(** On the workers as the ranking pass returns them, [getTopPerformers]
    leaves the array as it is and returns its first [count] workers, whose
    rankings are 1, 2, ... up to [count] or to the number of workers. *)
Theorem top_performers_are_the_first_ranked flat count :
  getTopPerformers (rankWorkers flat) count
  = (firstn count (rankWorkers flat), rankWorkers flat)
  /\ map ranking (fst (getTopPerformers (rankWorkers flat) count))
     = seq 1 (Nat.min count (length flat)).
Proof.
  assert (E : sortBy descending (rankWorkers flat) = rankWorkers flat).
  { apply sortBy_of_sorted, sorted_descending.
    apply RankingFacts.rankWorkers_sorted. }
  unfold getTopPerformers; rewrite E; split; [reflexivity|].
  cbn [fst]; rewrite <- firstn_map, RankingFacts.rankWorkers_rankings.
  apply firstn_seq.
Qed.

(** The worker lists of the unified analytics share one array, which the
    two sorts reorder in place: the list published as [workerAnalytics] is
    the input sorted ascending by score, lowest first, [underPerformers] is
    its first ten, and [topPerformers] is the first ten of the input sorted
    descending. *)
Theorem unified_analytics_lists_are_resorted analytics :
  let unified := unifiedLists analytics in
  StronglySorted (fun a b => rankedBefore b a) (workerAnalytics unified)
  /\ Permutation (workerAnalytics unified) analytics
  /\ underPerformers unified = firstn 10 (workerAnalytics unified)
  /\ topPerformers unified = firstn 10 (sortBy descending analytics)
  /\ StronglySorted rankedBefore (topPerformers unified).
Proof.
  unfold unifiedLists, getTopPerformers, getUnderPerformers.
  cbn [workerAnalytics underPerformers topPerformers].
  split; [|split; [|split; [|split]]]; try reflexivity.
  - apply (sorted_impl (precedes ascending)).
    + intros a b; apply ascending_precedes.
    + apply sortBy_sorted; [apply ascending_trans | apply ascending_total].
  - eapply perm_trans; apply sortBy_perm.
  - apply sorted_firstn, sorted_descending.
    apply sortBy_sorted; [apply descending_trans | apply descending_total].
Qed.

End PerformersFacts.

(** ** Productivity and goals *)

Module GoalsFacts.

Import Hierarchy Spec Notions Productivity Goals.

(** *** Efficiency *)

Lemma needsSupport_low w :
  needsSupport w = true -> performanceLevel w = low.
Proof.
  unfold needsSupport, performanceLevel, getPerformanceLevel.
  intros H; apply NumFacts.Qlt_bool_iff in H.
  destruct (Service.Qge_bool _ 80) eqn:E80.
  { apply NumFacts.Qge_bool_iff in E80; lra. }
  destruct (Service.Qge_bool _ 60) eqn:E60; [|reflexivity].
  apply NumFacts.Qge_bool_iff in E60; lra.
Qed.

Lemma verified_efficiency w :
  soundMetrics w ->
  (tasaVerificacion (performance w) = 100%Q -> needsSupport w = false)
  /\ (tasaVerificacion (performance w) = 0%Q -> performanceLevel w = low).
Proof.
  intros (_ & _ & [Hcd0 Hcd100] & _).
  unfold needsSupport, performanceLevel, getPerformanceLevel,
    calculateEfficiencyScore.
  set (cd := completitudDatos (performance w)) in *.
  split; intros ->.
  - destruct (Service.Qlt_bool ((100 + cd) / 2) 50) eqn:E; [|reflexivity].
    apply NumFacts.Qlt_bool_iff in E.
    assert ((100 + cd) / 2 == 50 + cd / 2)%Q by field.
    assert (0 <= cd / 2)%Q by (apply Qle_shift_div_l; lra).
    lra.
  - assert (H : ((0 + cd) / 2 <= 50)%Q) by (apply Qle_shift_div_r; lra).
    destruct (Service.Qge_bool ((0 + cd) / 2) 80) eqn:E80.
    { apply NumFacts.Qge_bool_iff in E80; lra. }
    destruct (Service.Qge_bool ((0 + cd) / 2) 60) eqn:E60; [|reflexivity].
    apply NumFacts.Qge_bool_iff in E60; lra.
Qed.

(** A worker that needs support has the performance level 'low'.  On a
    built tree, where the verification rate is 0 or 100, a verified worker
    never needs support and an unverified worker is always 'low', whatever
    the completeness of its data. *)
Theorem efficiency_follows_verification now rows :
  Forall (fun w =>
            (needsSupport w = false \/ performanceLevel w = low)
            /\ ((tasaVerificacion (performance w) = 100%Q
                 /\ needsSupport w = false)
                \/ (tasaVerificacion (performance w) = 0%Q
                    /\ performanceLevel w = low)))
         (preorder (transformToHierarchicalWorkers now rows)).
Proof.
  eapply Forall_impl; [|apply ShapeFacts.built_soundMetrics].
  intros w Hw; split.
  - destruct (needsSupport w) eqn:E; [right | now left].
    now apply needsSupport_low.
  - destruct (verified_efficiency w Hw) as [Hv Hu].
    destruct Hw as (_ & [H0 | H100] & _); [right | left]; auto.
Qed.

(** *** The network of a leader *)

Lemma mobilizerCount_level3 lid :
  mobilizerCount lid = length (flat_map children (children lid)).
Proof.
  unfold mobilizerCount.
  rewrite ListFacts.fold_left_sum, ShapeFacts.length_flat_map_sum.
  reflexivity.
Qed.

(** For every leader of a built tree the network size is one, for the
    leader, plus its brigadier count plus its mobilizer count. *)
Theorem leader_network_is_its_three_levels now rows :
  Forall (fun lid =>
            calculateNetworkSize lid
            = 1 + brigadierCount lid + mobilizerCount lid)
         (transformToHierarchicalWorkers now rows).
Proof.
  apply Forall_map, Forall_forall; intros src _.
  rewrite ShapeFacts.networkSize_subtree, mobilizerCount_level3.
  unfold brigadierCount.
  set (lid := transformLiderToHierarchicalWorker now src).
  change (subtree lid) with (lid :: preorder (children lid)).
  cbn [length]; rewrite FlattenFacts.length_preorder.
  rewrite (FlattenFacts.length_preorder (flat_map children (children lid))).
  assert (E : flat_map children (flat_map children (children lid)) = []).
  { pose proof (FlattenFacts.built_level3_childless now [src]) as H.
    unfold level3, level2 in H; cbn [transformToHierarchicalWorkers map
      flat_map] in H.
    now rewrite app_nil_r in H. }
  rewrite E; simpl; lia.
Qed.

(** *** Goals *)

Lemma roleEqb_eq a b : roleEqb a b = true <-> a = b.
Proof. destruct a, b; simpl; split; congruence. Qed.

Lemma status_counts (l : list WorkerGoal) :
  length (filter (fun g => isOnTrack (status g) || isAhead (status g)) l)
  + length (filter (fun g => isBehind (status g)) l)
  + length (filter (fun g => isCompleted (status g)) l)
  = length l
  /\ length (filter (fun g => isAhead (status g)) l)
     <= length (filter (fun g => isOnTrack (status g) || isAhead (status g))
                       l).
Proof.
  induction l as [|g l [IH1 IH2]]; [split; reflexivity|].
  cbn [filter]; destruct (status g); cbn [isOnTrack isAhead isBehind
    isCompleted orb length]; lia.
Qed.

Lemma level_targets_sum lvl (l : list Analytics.WorkerAnalytics) :
  list_sum (map target
                (filter (fun g => roleEqb (goal_role g) lvl) (map toGoal l)))
  = length (filter (fun g => roleEqb (goal_role g) lvl) (map toGoal l))
    * getWorkerTarget lvl.
Proof.
  induction l as [|w l IH]; [reflexivity|].
  cbn [map filter].
  change (goal_role (toGoal w)) with (Analytics.role w).
  destruct (roleEqb (Analytics.role w) lvl) eqn:E; [|exact IH].
  apply roleEqb_eq in E.
  set (rest := filter _ (map toGoal l)) in *.
  change (getWorkerTarget (Analytics.role w) + list_sum (map target rest)
          = S (length rest) * getWorkerTarget lvl).
  rewrite IH, E; lia.
Qed.

Lemma level_targets lvl (l : list Analytics.WorkerAnalytics) :
  fold_left (fun sum g => sum + target g)
            (filter (fun g => roleEqb (goal_role g) lvl) (map toGoal l)) 0
  = length (filter (fun g => roleEqb (goal_role g) lvl) (map toGoal l))
    * getWorkerTarget lvl.
Proof. rewrite ListFacts.fold_left_sum; apply level_targets_sum. Qed.

(** The goal of a level counts the workers of that role: its target is
    their number times the target of the role, [workersOnTrack] includes the
    workers that are ahead, the completed workers are in neither
    [workersOnTrack] nor [workersBehind], and the average progress of a level
    without workers is NaN, the division being unguarded. *)
Theorem level_goal_counts analytics lvl :
  let goal := calculateHierarchyGoal lvl (map toGoal analytics) in
  totalWorkers goal
  = length (filter (fun w => roleEqb (Analytics.role w) lvl) analytics)
  /\ levelTarget goal = totalWorkers goal * getWorkerTarget lvl
  /\ workersAhead goal <= workersOnTrack goal
  /\ workersOnTrack goal + workersBehind goal <= totalWorkers goal
  /\ match totalWorkers goal with
     | O => averageProgress goal = Num.NaN
     | S _ => exists q, averageProgress goal = Num.Finite q
     end.
Proof.
  unfold calculateHierarchyGoal; cbv zeta.
  cbn [totalWorkers levelTarget workersAhead workersOnTrack workersBehind
       averageProgress].
  set (levelGoals := filter _ (map toGoal analytics)).
  destruct (status_counts levelGoals) as [Hsum Hahead].
  split; [|split; [|split; [|split]]].
  - subst levelGoals; clear.
    induction analytics as [|w l IH]; [reflexivity|].
    cbn [map filter].
    change (goal_role (toGoal w)) with (Analytics.role w).
    destruct (roleEqb (Analytics.role w) lvl); cbn [length]; now rewrite IH.
  - apply level_targets.
  - exact Hahead.
  - lia.
  - destruct levelGoals as [|g gs]; [reflexivity|].
    cbn [length]; unfold Num.div.
    assert (E : Qeq_bool (Num.ofNat (S (length gs))) 0 = false).
    { destruct (Qeq_bool _ 0) eqn:E; [|reflexivity].
      apply Qeq_bool_eq in E; unfold Num.ofNat, Qeq in E; simpl in E; lia. }
    rewrite E; eexists; reflexivity.
Qed.

(** The statuses computed in binary64 for every count up to the target. *)
Lemma statuses_b64 r :
  forallb (fun c =>
             statusEqb
               (getGoalStatus_b64 (percentage_b64 c (getWorkerTarget r)))
               (getGoalStatus
                  (Num.ofNat c / Num.ofNat (getWorkerTarget r) * 100)%Q))
          (seq 0 (S (getWorkerTarget r)))
  = true.
Proof. destruct r; vm_compute; reflexivity. Qed.

Lemma statusEqb_eq a b : statusEqb a b = true -> a = b.
Proof. destruct a, b; simpl; congruence. Qed.

Lemma status_thresholds r c :
  let p := (Num.ofNat c / Num.ofNat (getWorkerTarget r) * 100)%Q in
  (getGoalStatus p = completed <-> getWorkerTarget r <= c)
  /\ (getGoalStatus p = behind <-> 5 * c < 3 * getWorkerTarget r).
Proof.
  cbv zeta; unfold getGoalStatus.
  set (p := (Num.ofNat c / Num.ofNat (getWorkerTarget r) * 100)%Q).
  assert (H100 : (100 <= p)%Q <-> getWorkerTarget r <= c).
  { subst p; destruct r; unfold Num.ofNat, Qle; simpl; lia. }
  assert (H80 : (80 <= p)%Q <-> 4 * getWorkerTarget r <= 5 * c).
  { subst p; destruct r; unfold Num.ofNat, Qle; simpl; lia. }
  assert (H60 : (60 <= p)%Q <-> 3 * getWorkerTarget r <= 5 * c).
  { subst p; destruct r; unfold Num.ofNat, Qle; simpl; lia. }
  rewrite <- NumFacts.Qge_bool_iff in H100, H80, H60.
  destruct (Service.Qge_bool p 100), (Service.Qge_bool p 80),
           (Service.Qge_bool p 60);
    split; split; intros H; try discriminate; try reflexivity;
    repeat match goal with
           | H : true = true <-> _ |- _ => apply proj1 in H; specialize (H eq_refl)
           | H : false = true <-> _ |- _ =>
               apply proj2 in H;
               let H' := fresh in
               assert (H' : ~ _) by (intros X; specialize (H X); discriminate);
               clear H
           end; try lia.
Qed.

(** The goal of a worker is 'completed' exactly when its count reaches the
    target of its role (1000, 500 or 100) and 'behind' exactly when the count
    is below 60 % of it; for every count up to the target the binary64
    evaluation of the percentage gives the same status as the exact one. *)
Theorem goal_status_follows_the_count (w : Analytics.WorkerAnalytics) :
  let goal := toGoal w in
  let count := Analytics.ciudadanosRegistrados w in
  (status goal = completed <-> target goal <= count)
  /\ (status goal = behind <-> 5 * count < 3 * target goal)
  /\ (count <= target goal ->
      getGoalStatus_b64 (percentage_b64 count (target goal)) = status goal).
Proof.
  cbv zeta; cbn [toGoal status target].
  destruct (status_thresholds (Analytics.role w)
              (Analytics.ciudadanosRegistrados w)) as [Hc Hb].
  split; [exact Hc|]; split; [exact Hb|].
  intros Hle; apply statusEqb_eq.
  pose proof (statuses_b64 (Analytics.role w)) as H.
  rewrite forallb_forall in H; apply H, in_seq; lia.
Qed.

(** A leader with 600 of 1000 registrants is on track in both arithmetics. *)
Lemma goal_status_follows_the_count_witness :
  getGoalStatus_b64 (percentage_b64 600 1000) = onTrack.
Proof.
  apply (goal_status_follows_the_count sampleLeader); simpl; lia.
Defined.

End GoalsFacts.

(** ** The gateway: classification, retry, circuit breaker *)

Module GatewayFacts.

Import Gateway.

(** *** Classification *)

Lemma includesCode_iff codes code :
  includesCode codes code = true <-> In code codes.
Proof.
  unfold includesCode; rewrite existsb_exists; split.
  - intros (c & Hc & E); apply String.eqb_eq in E; now subst.
  - intros H; exists code; split; [exact H | apply String.eqb_refl].
Qed.

Lemma retryable_iff e :
  isRetryable (classifyError e) = true
  <-> (exists m, e = NetworkError m)
      \/ (exists m c, e = DatabaseError m (Some c) /\ In c retryableCodes).
Proof.
  assert (Hno : forall e',
             (forall m, e' <> NetworkError m) ->
             (forall m c, e' <> DatabaseError m (Some c)) ->
             ~ ((exists m, e' = NetworkError m)
                \/ (exists m c, e' = DatabaseError m (Some c)
                                /\ In c retryableCodes))).
  { intros e' H1 H2 [(m & H) | (m & c & H & _)];
      [exact (H1 m H) | exact (H2 m c H)]. }
  destruct e as [m [c|] | m | m | m | m rc mr | m |];
    cbn [classifyError isRetryable].
  - rewrite includesCode_iff; split.
    + intros Hin; right; exists m, c; auto.
    + intros [(m' & H) | (m' & c' & H & Hin)]; [discriminate|].
      injection H as -> ->; exact Hin.
  - split; [discriminate|]; intros H; exfalso; revert H.
    apply Hno; intros; discriminate.
  - split; [intros _; left; exists m; reflexivity | reflexivity].
  - split; [discriminate|]; intros H; exfalso; revert H.
    apply Hno; intros; discriminate.
  - split; [discriminate|]; intros H; exfalso; revert H.
    apply Hno; intros; discriminate.
  - split; [discriminate|]; intros H; exfalso; revert H.
    apply Hno; intros; discriminate.
  - split; [discriminate|]; intros H; exfalso; revert H.
    apply Hno; intros; discriminate.
  - split; [discriminate|]; intros H; exfalso; revert H.
    apply Hno; intros; discriminate.
Qed.

Lemma typeName_not_retryable t :
  includesCode retryableCodes (typeName t) = false.
Proof. destruct t; reflexivity. Qed.

(** Only a [NetworkError] and a [DatabaseError] with one of the five listed
    codes are retryable; a [RetryableError] is not, nor is what the services
    of [HierarchyService] throw.  An error that went through [enhanceError]
    is retryable only when it was a [DatabaseError] with a listed code
    before: a [NetworkError] loses its retryability there. *)
Theorem retryable_errors e context (thrown : Errors.Error) :
  (isRetryable (classifyError e) = true
   <-> (exists m, e = NetworkError m)
       \/ (exists m c, e = DatabaseError m (Some c) /\ In c retryableCodes))
  /\ (isRetryable (classifyError (enhanceError e context)) = true
      <-> exists m c, e = DatabaseError m (Some c) /\ In c retryableCodes)
  /\ (type (classifyError (ofServiceError thrown)) = service
      /\ isRetryable (classifyError (ofServiceError thrown)) = false).
Proof.
  split; [apply retryable_iff|]; split.
  - destruct e as [m [c|] | m | m | m | m rc mr | m |];
      cbn [enhanceError classifyError type isRetryable];
      try rewrite typeName_not_retryable.
    + rewrite includesCode_iff; split.
      * intros Hin; exists m, c; auto.
      * intros (m' & c' & H & Hin); injection H as -> ->; exact Hin.
    + split; [discriminate | intros (m' & c' & H & _); discriminate].
    + split; [discriminate | intros (m' & c' & H & _); discriminate].
    + split; [discriminate | intros (m' & c' & H & _); discriminate].
    + split; [discriminate | intros (m' & c' & H & _); discriminate].
    + split; [discriminate | intros (m' & c' & H & _); discriminate].
    + split; [discriminate | intros (m' & c' & H & _); discriminate].
    + split; [discriminate | intros (m' & c' & H & _); discriminate].
  - destruct thrown; split; reflexivity.
Qed.

(** *** Retry *)

Lemma retryFrom_spec {A} (operation : nat -> Outcome A) baseDelay :
  forall remaining attempt,
    let run := retryFrom operation baseDelay attempt remaining in
    1 <= calls run <= S remaining
    /\ outcome run = operation (attempt + calls run - 1)
    /\ delays run
       = map (fun k => (baseDelay * 2 ^ Z.of_nat k)%Z)
             (seq attempt (calls run - 1))
    /\ (forall k, attempt <= k < attempt + calls run - 1 ->
                  exists e, operation k = Threw e
                            /\ isRetryable (classifyError e) = true)
    /\ match outcome run with
       | Returned _ => True
       | Threw e =>
           isRetryable (classifyError e) = false \/ calls run = S remaining
       end.
Proof.
  induction remaining as [|remaining IH]; intros attempt; cbn [retryFrom].
  - destruct (operation attempt) as [a|e] eqn:E; cbn [calls outcome delays];
      replace (attempt + 1 - 1) with attempt by lia;
      rewrite E; repeat split; auto; try lia; intros k Hk; lia.
  - destruct (operation attempt) as [a|e] eqn:E.
    + cbn [calls outcome delays];
        replace (attempt + 1 - 1) with attempt by lia;
        rewrite E; repeat split; auto; try lia; intros k Hk; lia.
    + destruct (isRetryable (classifyError e)) eqn:R; cbn [negb].
      * specialize (IH (S attempt)); cbv zeta in IH.
        destruct IH as (Hcalls & Hout & Hdel & Hprev & Hlast).
        set (run := retryFrom operation baseDelay (S attempt) remaining) in *.
        cbn [calls outcome delays].
        replace (attempt + S (calls run) - 1) with (S attempt + calls run - 1)
          by lia.
        replace (S (calls run) - 1) with (S (calls run - 1)) by lia.
        cbn [seq map]; rewrite Hdel.
        repeat split; auto; try lia.
        -- intros k Hk.
           destruct (Nat.eq_dec k attempt) as [-> | Hne]; [eauto|].
           apply Hprev; lia.
        -- destruct (outcome run); [exact I|].
           destruct Hlast as [H | H]; [now left | right; lia].
      * cbn [calls outcome delays];
          replace (attempt + 1 - 1) with attempt by lia;
          rewrite E; repeat split; auto; try lia; intros k Hk; lia.
Qed.

Lemma sum_of_delays (baseDelay : Z) n a :
  fold_right Z.add 0%Z
    (map (fun k => (baseDelay * 2 ^ Z.of_nat k)%Z) (seq a n))
  = (baseDelay * 2 ^ Z.of_nat a * (2 ^ Z.of_nat n - 1))%Z.
Proof.
  revert a; induction n as [|n IH]; intros a.
  - simpl; ring.
  - cbn [seq map fold_right]; rewrite IH.
    rewrite !Nat2Z.inj_succ, !Z.pow_succ_r by lia; ring.
Qed.

(** [withRetry] calls the operation at least once and at most [maxRetries +
    1] times, returns the outcome of its last call, had only retryable
    errors before it, gives up on the first error that is not retryable, and
    waits [baseDelay * 2^k] after the failed attempt [k], in all
    [baseDelay * (2^(calls - 1) - 1)]. *)
Theorem retry_is_bounded_and_backs_off {A} (operation : nat -> Outcome A)
    maxRetries baseDelay :
  let run := withRetry operation maxRetries baseDelay in
  1 <= calls run <= S maxRetries
  /\ outcome run = operation (calls run - 1)
  /\ Forall (fun k => exists e, operation k = Threw e
                                /\ isRetryable (classifyError e) = true)
            (seq 0 (calls run - 1))
  /\ match outcome run with
     | Returned _ => True
     | Threw e =>
         isRetryable (classifyError e) = false \/ calls run = S maxRetries
     end
  /\ delays run
     = map (fun k => (baseDelay * 2 ^ Z.of_nat k)%Z) (seq 0 (calls run - 1))
  /\ fold_right Z.add 0%Z (delays run)
     = (baseDelay * (2 ^ Z.of_nat (calls run - 1) - 1))%Z.
Proof.
  unfold withRetry.
  destruct (retryFrom_spec operation baseDelay maxRetries 0)
    as (Hcalls & Hout & Hdel & Hprev & Hlast).
  cbv zeta in *; cbn [Nat.add] in *.
  repeat split; auto; try lia.
  - apply Forall_forall; intros k Hk; apply in_seq in Hk.
    apply Hprev; lia.
  - rewrite Hdel, sum_of_delays; simpl; ring.
Qed.

(** *** Circuit breaker *)

Section Breaker.

Variable threshold : nat.
Variable timeout : Z.
Hypothesis threshold_positive : 0 < threshold.

Lemma breaker_invariant b :
  reachableBreaker threshold timeout b ->
  (state b = closed <-> failures b < threshold).
Proof.
  induction 1 as [| t b b' _ IH Henter | b _ IH | t b _ IH].
  - simpl; split; auto.
  - unfold enter in Henter.
    destruct (state b) eqn:Hs; try (injection Henter as <-; now rewrite Hs).
    destruct (timeout <? t - lastFailureTime b)%Z; [|discriminate].
    injection Henter as <-; simpl.
    split; [discriminate | intros H; apply IH in H; discriminate].
  - simpl; split; auto.
  - unfold onFailure; cbn [state failures].
    destruct (Nat.leb_spec threshold (S (failures b))).
    + split; [discriminate | lia].
    + split; [intros _; assumption | intros _; apply IH; lia].
Qed.

Lemma failingCalls_from n t e b :
  state b = closed ->
  failures b < threshold ->
  failures b + n <= threshold ->
  failures (failingCalls threshold timeout n t e b) = failures b + n
  /\ state (failingCalls threshold timeout n t e b)
     = if failures b + n <? threshold then closed else open.
Proof.
  revert b; induction n as [|n IH]; intros b Hclosed Hlt Hle.
  - cbn [failingCalls]; rewrite Nat.add_0_r.
    destruct (Nat.ltb_spec (failures b) threshold); [auto | lia].
  - cbn [failingCalls]; unfold execute, enter; rewrite Hclosed.
    cbn [snd].
    destruct (Nat.eq_dec (S (failures b)) threshold) as [Etrip | Hbelow].
    + assert (n = 0) by lia; subst n; cbn [failingCalls].
      unfold onFailure; cbn [state failures].
      destruct (Nat.leb_spec threshold (S (failures b))); [|lia].
      destruct (Nat.ltb_spec (failures b + 1) threshold); [lia|].
      split; [lia | reflexivity].
    + assert (Hc : state (onFailure threshold t b) = closed).
      { unfold onFailure; cbn [state failures].
        destruct (Nat.leb_spec threshold (S (failures b))); [lia|].
        exact Hclosed. }
      assert (Hf : failures (onFailure threshold t b) = S (failures b))
        by reflexivity.
      destruct (IH (onFailure threshold t b) Hc) as [IH1 IH2];
        [rewrite Hf; lia | rewrite Hf; lia |].
      rewrite IH1, IH2, Hf.
      replace (S (failures b) + n) with (failures b + S n) by lia; auto.
Qed.

(** A breaker is closed exactly while it has counted fewer failures than its
    threshold.  From a new breaker, failing calls leave it closed until the
    threshold is reached and open it then; an open breaker refuses a call
    made within the timeout of the last failure without running the
    operation and without changing. *)
Theorem breaker_opens_at_the_threshold :
  (forall b, reachableBreaker threshold timeout b ->
             (state b = closed <-> failures b < threshold))
  /\ (forall n t e,
        n <= threshold ->
        failures (failingCalls threshold timeout n t e newBreaker) = n
        /\ state (failingCalls threshold timeout n t e newBreaker)
           = if n <? threshold then closed else open)
  /\ (forall A t (result : Outcome A) t' b,
        state b = open ->
        (t - lastFailureTime b <= timeout)%Z ->
        execute threshold timeout t result t' b
        = (Threw (ServiceError "Circuit breaker is open"), b)).
Proof.
  split; [exact breaker_invariant|]; split.
  - intros n t e Hn.
    apply (failingCalls_from n t e newBreaker); simpl; auto.
  - intros A t result t' b Hopen Hrecent.
    unfold execute, enter; rewrite Hopen.
    destruct (Z.ltb_spec timeout (t - lastFailureTime b)); [lia|reflexivity].
Qed.

End Breaker.

(** The breaker of the service after five failing calls. *)
Lemma breaker_opens_at_the_threshold_witness :
  state (failingCalls 5 60000 5 0 (NetworkError "down") newBreaker) = open.
Proof.
  assert (Hpos : 0 < 5) by lia.
  destruct (breaker_opens_at_the_threshold 5 60000 Hpos) as (_ & Hfail & _).
  destruct (Hfail 5 0%Z (NetworkError "down") (le_n 5)) as [_ Hstate].
  exact Hstate.
Defined.

(** *** The hierarchical query behind the breaker *)

Lemma enhanceError_database e context :
  exists m c, enhanceError e context = DatabaseError m c.
Proof. destruct e; simpl; eauto. Qed.

Lemma hierarchicalQuery_returns a :
  exists r,
    hierarchicalQuery a = Returned r
    /\ (gw_data r = None <-> gw_error r <> None)
    /\ (forall e, gw_error r = Some e -> exists m c, e = DatabaseError m c).
Proof.
  unfold hierarchicalQuery.
  destruct (connectionFailure a) as [m|];
    [|destruct (answer a) as [[data [error|]] | e]];
    eexists; (split; [reflexivity|]); cbn [gw_data gw_error]; split;
    try (split; [intros _; discriminate | reflexivity]);
    try (split; [discriminate | intros H; exfalso; now apply H]);
    try discriminate;
    intros e' H; injection H as <-;
    first [apply enhanceError_database | eexists _, _; reflexivity].
Qed.

(** The hierarchical query never throws: what goes wrong is returned as the
    [error] of the result, with no data, and what goes well as data with no
    error.  Hence [withRetry] calls it once and never waits, the breaker
    counts a success and is closed afterwards, and [HierarchyService] always
    gets a resolved result with either rows or an error message. *)
Theorem hierarchical_query_never_retries t attempts t' b :
  let run := withRetry (fun k => hierarchicalQuery (attempts k)) 3 1000 in
  calls run = 1 /\ delays run = []
  /\ (state b <> open ->
      exists r,
        getHierarchicalData t attempts t' b
        = (Returned r, onSuccess b)
        /\ state (snd (getHierarchicalData t attempts t' b)) = closed
        /\ (gw_data r = None <-> gw_error r <> None)
        /\ exists result,
             seenByService (Returned r) = Service.Resolved result
             /\ (Service.db_data result = None
                 <-> Service.db_error result <> None)).
Proof.
  cbv zeta; unfold getHierarchicalData, withRetry.
  destruct (hierarchicalQuery_returns (attempts 0)) as (r & Hr & Hdata & _).
  cbn [retryFrom]; rewrite Hr; cbn [calls delays outcome].
  split; [reflexivity|]; split; [reflexivity|].
  intros Hstate; exists r.
  assert (E : enter 60000 t b = Some b).
  { unfold enter; destruct (state b); congruence. }
  unfold execute; rewrite E; cbn [snd onSuccess state].
  repeat split; try apply Hdata.
  eexists; split; [reflexivity|]; cbn [Service.db_data Service.db_error].
  destruct (gw_error r) as [e|]; simpl; rewrite Hdata.
  - split; intros _; discriminate.
  - split; intros H; exfalso; now apply H.
Qed.

(** A query whose connection check fails, on a new breaker. *)
Lemma hierarchical_query_never_retries_witness :
  state (snd (getHierarchicalData 0
                (fun _ => {| connectionFailure := Some "offline"%string;
                             answer := Threw NotAnError |})
                0 newBreaker)) = closed.
Proof.
  destruct (hierarchical_query_never_retries 0
              (fun _ => {| connectionFailure := Some "offline"%string;
                           answer := Threw NotAnError |})
              0 newBreaker) as (_ & _ & H).
  destruct H as (r & _ & Hclosed & _); [discriminate | exact Hclosed].
Defined.

End GatewayFacts.
